(** * Query dispatch pipeline of the Brazilian-economy multi-agent system

    A shallow embedding of [utils.py] (QueryAnalyzer, CacheManager,
    generate_cache_key, DataValidator.validate_chart_data), of [main_cli.py]
    (BrazilianEconomyAgentSystem._route_query and process_query,
    CLIInterface.main_loop and handle_cache_commands) and of [tools.py]
    (_enhance_search_query, _enhance_python_code), followed by the
    properties of the dispatch pipeline.

    Python [str] values are sequences of Unicode code points ([list N]);
    dictionaries used as maps are [gmap]s; the side effects of
    [process_query] (cache, clock, alarm, activity log) are threaded
    through a small state-and-exception monad.

    [process_query] and [main_loop] are embedded twice: first without the
    console and with executors that let the exception of the alarm through;
    then, in module [Console], with every [print] a call that may raise,
    with executors that may catch that exception, and with the loop
    followed pass by pass, [EOFError] and alarm included. *)

From Stdlib Require Import NArith ZArith QArith String Ascii List Lia Bool.
From stdpp Require Import base option list gmap.
Import ListNotations.

Local Open Scope N_scope.

(* ===================================================================== *)
(** ** Python strings                                                     *)
(* ===================================================================== *)

(** A code point, and a Python [str]. *)
Abbreviation cp := N.
Abbreviation str := (list N).

(** Source literals are written as UTF-8 text; [u] decodes them into the
    code points the Python literal denotes. *)
Fixpoint utf8_decode (bs : list N) : str :=
  match bs with
  | [] => []
  | b :: r =>
      if b <? 0x80 then b :: utf8_decode r
      else if b <? 0xE0 then
        match r with
        | b1 :: r1 => ((b mod 0x20) * 0x40 + b1 mod 0x40) :: utf8_decode r1
        | _ => []
        end
      else if b <? 0xF0 then
        match r with
        | b1 :: b2 :: r2 =>
            ((b mod 0x10) * 0x1000 + (b1 mod 0x40) * 0x40 + b2 mod 0x40)
              :: utf8_decode r2
        | _ => []
        end
      else
        match r with
        | b1 :: b2 :: b3 :: r3 =>
            ((b mod 0x08) * 0x40000 + (b1 mod 0x40) * 0x1000
             + (b2 mod 0x40) * 0x40 + b3 mod 0x40) :: utf8_decode r3
        | _ => []
        end
  end.

Fixpoint bytes_of_string (s : string) : list N :=
  match s with
  | EmptyString => []
  | String a r => N_of_ascii a :: bytes_of_string r
  end.

Definition u (s : string) : str := utf8_decode (bytes_of_string s).

(** [str.isspace] for one code point; the same set is what [\s] matches in
    a [str] pattern and what [str.strip()] removes. *)
Definition is_space (c : cp) : bool :=
  ((0x09 <=? c) && (c <=? 0x0D)) || ((0x1C <=? c) && (c <=? 0x20))
  || (c =? 0x85) || (c =? 0xA0) || (c =? 0x1680)
  || ((0x2000 <=? c) && (c <=? 0x200A))
  || (c =? 0x2028) || (c =? 0x2029) || (c =? 0x202F) || (c =? 0x205F)
  || (c =? 0x3000).

(** The part of the interpreter's Unicode database the program consults:
    [str.lower], [str.title] and the alphanumeric class behind [\w]. *)
Class UnicodeData := {
  str_lower : str -> str;
  str_title : str -> str;
  is_alnum : cp -> bool
}.

(** [\w] in a [str] pattern: alphanumeric or underscore. *)
Definition is_word `{UnicodeData} (c : cp) : bool := is_alnum c || (c =? 0x5F).

(** *** The database restricted to Basic Latin and Latin-1 Supplement

    For code points below U+0100 these tables are the interpreter's; code
    points above are treated as uncased and non-alphanumeric. *)
Module Latin1.

Definition is_upper (c : cp) : bool :=
  ((0x41 <=? c) && (c <=? 0x5A))
  || ((0xC0 <=? c) && (c <=? 0xDE) && negb (c =? 0xD7)).

Definition is_lower (c : cp) : bool :=
  ((0x61 <=? c) && (c <=? 0x7A))
  || ((0xDF <=? c) && (c <=? 0xFF) && negb (c =? 0xF7))
  || (c =? 0xAA) || (c =? 0xB5) || (c =? 0xBA).

Definition is_cased (c : cp) : bool := is_upper c || is_lower c.

Definition lower_cp (c : cp) : cp := if is_upper c then c + 0x20 else c.

(** Title-case mapping of one code point (a string: sharp s expands). *)
Definition title_cp (c : cp) : str :=
  if c =? 0xB5 then [0x39C]
  else if c =? 0xDF then [0x53; 0x73]
  else if c =? 0xFF then [0x178]
  else if c =? 0xAA then [c]
  else if c =? 0xBA then [c]
  else if is_lower c then [c - 0x20] else [c].

Definition lower (s : str) : str := map lower_cp s.

Fixpoint title_from (previous_is_cased : bool) (s : str) : str :=
  match s with
  | [] => []
  | c :: r =>
      (if previous_is_cased then [lower_cp c] else title_cp c)
        ++ title_from (is_cased c) r
  end.

Definition title (s : str) : str := title_from false s.

Definition alnum (c : cp) : bool :=
  ((0x30 <=? c) && (c <=? 0x39)) || ((0x41 <=? c) && (c <=? 0x5A))
  || ((0x61 <=? c) && (c <=? 0x7A))
  || (c =? 0xAA) || (c =? 0xB2) || (c =? 0xB3) || (c =? 0xB5) || (c =? 0xB9)
  || (c =? 0xBA) || ((0xBC <=? c) && (c <=? 0xBE))
  || ((0xC0 <=? c) && (c <=? 0xFF) && negb (c =? 0xD7) && negb (c =? 0xF7)).

End Latin1.

#[export] Instance latin1 : UnicodeData :=
  {| str_lower := Latin1.lower; str_title := Latin1.title;
     is_alnum := Latin1.alnum |}.

(** [needle in haystack] for Python strings. *)
Fixpoint starts_with (needle haystack : str) : bool :=
  match needle, haystack with
  | [], _ => true
  | _ :: _, [] => false
  | a :: n, b :: h => (a =? b) && starts_with n h
  end.

Fixpoint str_in (needle haystack : str) : bool :=
  starts_with needle haystack
  || match haystack with
     | [] => false
     | _ :: h => str_in needle h
     end.

(** [any(word in text for word in words)]. *)
Definition any_in (words : list str) (text : str) : bool :=
  existsb (fun word => str_in word text) words.

(** [s[:n]]. *)
Definition str_prefix (n : nat) (s : str) : str := firstn n s.

(* ===================================================================== *)
(** ** Exceptions and results                                             *)
(* ===================================================================== *)

(** Exceptions deriving from [Exception], with the text [str(e)] yields.
    [TimeoutException] is the class [main_cli.py] declares; every other
    class is recorded by name. *)
Inductive PyException :=
| TimeoutException (msg : str)
| Exception (class : string) (msg : str).

Definition exc_str (e : PyException) : str :=
  match e with
  | TimeoutException msg => msg
  | Exception _ msg => msg
  end.

Inductive res (A : Type) :=
| Ok (a : A)
| Raise (e : PyException).
Arguments Ok {A} a.
Arguments Raise {A} e.

(* ===================================================================== *)
(** ** The fragment of [re] the intent patterns use                       *)
(* ===================================================================== *)

Module Re.

(** One pattern has the shape [\b(a1|...|an)\b]; an alternative is a
    sequence of literal characters and [\s+]. *)
Inductive atom :=
| Chr (c : cp)
| Spaces.

Definition alternative := list atom.

Record pattern := WordGroup { alternatives : list alternative }.

(** Reads the text between the parentheses of [\b(...)\b]. *)
Fixpoint parse_alternatives (s : str) (cur : alternative) : list alternative :=
  match s with
  | [] => [rev cur]
  | c :: r =>
      if c =? 0x7C then rev cur :: parse_alternatives r []
      else
        match r with
        | c1 :: c2 :: r2 =>
            if (c =? 0x5C) && (c1 =? 0x73) && (c2 =? 0x2B)
            then parse_alternatives r2 (Spaces :: cur)
            else parse_alternatives r (Chr c :: cur)
        | _ => parse_alternatives r (Chr c :: cur)
        end
  end.

Definition word_group (inner : string) : pattern :=
  WordGroup (parse_alternatives (u inner) []).

Section Matching.
Context `{UnicodeData}.

Definition word_at (c : option cp) : bool :=
  match c with
  | Some c => is_word c
  | None => false
  end.

(** [\b] between the character before and the character after. *)
Definition boundary (before after : option cp) : bool :=
  xorb (word_at before) (word_at after).

(** The ways [\s+] can match at the head of [s], longest first; each
    gives the last character consumed and what follows. *)
Fixpoint space_runs (s : str) : list (cp * str) :=
  match s with
  | [] => []
  | c :: r => if is_space c then space_runs r ++ [(c, r)] else []
  end.

(** The ways an alternative can match at the head of [s], in the order
    a backtracking matcher tries them. *)
Fixpoint match_atoms (al : alternative) (prev : option cp) (s : str)
  : list (option cp * str) :=
  match al with
  | [] => [(prev, s)]
  | Chr c :: al' =>
      match s with
      | [] => []
      | c' :: r => if c =? c' then match_atoms al' (Some c') r else []
      end
  | Spaces :: al' =>
      flat_map (fun cr => match_atoms al' (Some (fst cr)) (snd cr))
               (space_runs s)
  end.

(** A match of the whole pattern starting here: what is left after it. *)
Definition match_here (p : pattern) (prev : option cp) (s : str)
  : option str :=
  if boundary prev (head s) then
    snd <$> List.find (fun lr => boundary (fst lr) (head (snd lr)))
              (flat_map (fun al => match_atoms al prev s) (alternatives p))
  else None.

(** Scans left to right; after a match the scan resumes where the match
    ended ([skip] counts the characters still covered by it). *)
Fixpoint count_from (p : pattern) (prev : option cp) (skip : nat) (s : str)
  : nat :=
  match skip with
  | S k =>
      match s with
      | [] => 0
      | c :: r => count_from p (Some c) k r
      end
  | O =>
      match match_here p prev s with
      | Some rest =>
          S (match s with
             | [] => 0
             | c :: r =>
                 count_from p (Some c)
                   (Nat.pred (length s - length rest)) r
             end)
      | None =>
          match s with
          | [] => 0
          | c :: r => count_from p (Some c) 0 r
          end
      end
  end%nat.

(** [len(re.findall(pattern, text))]. *)
Definition findall_len (p : pattern) (text : str) : nat :=
  count_from p None 0 text.

End Matching.

End Re.


(* ===================================================================== *)
(** ** utils.py: QueryAnalyzer                                           *)
(* ===================================================================== *)

Record QueryClassification := {
  intent : str;
  confidence : Q;
  entities : list str;
  keywords : list str
}.

(** The class attributes [analyze_query] reads through [self]. A [dict]
    literal iterates in the order it is written, so the pattern table is an
    association list. *)
Record QueryAnalyzer := {
  INTENT_PATTERNS : list (str * list Re.pattern);
  BRAZILIAN_LOCATIONS : list str
}.

Definition the_QueryAnalyzer : QueryAnalyzer := {|
  INTENT_PATTERNS := [
    (u "weather", [
       Re.word_group "clima|tempo|temperatura|chuva|sol|vento";
       Re.word_group "previsão|meteorol|°c|celsius|fahrenheit";
       Re.word_group "quente|frio|nublado|ensolarado" ]);
    (u "chart", [
       Re.word_group "gráfico|chart|plotar|visualiz|diagram";
       Re.word_group "histórico|evolução|tendência|comparar";
       Re.word_group "linha|barras|pizza|scatter" ]);
    (u "research", [
       Re.word_group "pib|economia|dados|estatística";
       Re.word_group "município|cidade|estado|região";
       Re.word_group "ibge|banco\s+central|bcb" ])
  ];
  BRAZILIAN_LOCATIONS := map u [
    "são paulo"; "rio de janeiro"; "brasília"; "salvador";
    "fortaleza"; "belo horizonte"; "manaus"; "curitiba";
    "recife"; "porto alegre"; "belém"; "goiânia" ]%string
|}.

(** [intent_scores[key] = score] on a dict kept in insertion order. *)
Fixpoint dict_set {V} (d : list (str * V)) (key : str) (v : V) : list (str * V) :=
  match d with
  | [] => [(key, v)]
  | (k, w) :: r =>
      if bool_decide (k = key) then (k, v) :: r else (k, w) :: dict_set r key v
  end.

(** [max(d, key=d.get)] once the first key is in hand: a later key replaces
    the best one only when its score is strictly greater. *)
Fixpoint max_from (best : str * nat) (rest : list (str * nat)) : str :=
  match rest with
  | [] => fst best
  | kv :: r => if (snd best <? snd kv)%nat then max_from kv r else max_from best r
  end.

Definition max_by_score (intent_scores : list (str * nat)) : res str :=
  match intent_scores with
  | [] => Raise (Exception "ValueError" (u "max() arg is an empty sequence"))
  | kv :: r => Ok (max_from kv r)
  end.

Section Analyzer.
Context `{UnicodeData}.

Definition pattern_score (patterns : list Re.pattern) (query_lower : str) : nat :=
  fold_left (fun score pattern => (score + Re.findall_len pattern query_lower)%nat)
            patterns 0%nat.

Definition intent_scores_of (self : QueryAnalyzer) (query_lower : str)
  : list (str * nat) :=
  fold_left (fun scores ip =>
               dict_set scores (fst ip) (pattern_score (snd ip) query_lower))
            (INTENT_PATTERNS self) [].

Definition _extract_entities (self : QueryAnalyzer) (query : str) : list str :=
  flat_map (fun location =>
              if str_in location query then [str_title location] else [])
           (BRAZILIAN_LOCATIONS self).

Definition economic_keywords : list str := map u [
  "pib"; "economia"; "renda"; "população"; "desenvolvimento";
  "crescimento"; "investimento"; "emprego"; "inflação" ]%string.

Definition _extract_keywords (query : str) : list str :=
  flat_map (fun keyword => if str_in keyword query then [keyword] else [])
           economic_keywords.

Definition sum_scores (intent_scores : list (str * nat)) : nat :=
  fold_left (fun acc kv => (acc + snd kv)%nat) intent_scores 0%nat.

(** The quotient [max_score / max(total_score, 1)] of two small integers is
    kept as the exact rational the float result rounds. *)
Definition analyze_query (self : QueryAnalyzer) (query : str)
  : res QueryClassification :=
  let query_lower := str_lower query in
  let intent_scores := intent_scores_of self query_lower in
  match max_by_score intent_scores with
  | Raise e => Raise e
  | Ok best_intent =>
      let max_score :=
        default 0%nat (snd <$> List.find (fun kv => bool_decide (fst kv = best_intent))
                                 intent_scores) in
      let total_score := sum_scores intent_scores in
      Ok {| intent := best_intent;
            confidence := Z.of_nat max_score # Pos.of_nat (Nat.max total_score 1);
            entities := _extract_entities self query_lower;
            keywords := _extract_keywords query_lower |}
  end.

End Analyzer.

(* ===================================================================== *)
(** ** hashlib.md5 and str.encode                                         *)
(* ===================================================================== *)

Module MD5.

Definition w32 (x : N) : N := x mod 0x100000000.

Definition rotl (x : N) (c : N) : N :=
  N.lor (w32 (N.shiftl x c)) (N.shiftr x (32 - c)).

Definition not32 (x : N) : N := N.lxor x 0xFFFFFFFF.

Definition shifts : list N := [
  7; 12; 17; 22; 7; 12; 17; 22; 7; 12; 17; 22; 7; 12; 17; 22;
  5; 9; 14; 20; 5; 9; 14; 20; 5; 9; 14; 20; 5; 9; 14; 20;
  4; 11; 16; 23; 4; 11; 16; 23; 4; 11; 16; 23; 4; 11; 16; 23;
  6; 10; 15; 21; 6; 10; 15; 21; 6; 10; 15; 21; 6; 10; 15; 21 ].

Definition K : list N := [
  0xd76aa478; 0xe8c7b756; 0x242070db; 0xc1bdceee;
  0xf57c0faf; 0x4787c62a; 0xa8304613; 0xfd469501;
  0x698098d8; 0x8b44f7af; 0xffff5bb1; 0x895cd7be;
  0x6b901122; 0xfd987193; 0xa679438e; 0x49b40821;
  0xf61e2562; 0xc040b340; 0x265e5a51; 0xe9b6c7aa;
  0xd62f105d; 0x02441453; 0xd8a1e681; 0xe7d3fbc8;
  0x21e1cde6; 0xc33707d6; 0xf4d50d87; 0x455a14ed;
  0xa9e3e905; 0xfcefa3f8; 0x676f02d9; 0x8d2a4c8a;
  0xfffa3942; 0x8771f681; 0x6d9d6122; 0xfde5380c;
  0xa4beea44; 0x4bdecfa9; 0xf6bb4b60; 0xbebfbc70;
  0x289b7ec6; 0xeaa127fa; 0xd4ef3085; 0x04881d05;
  0xd9d4d039; 0xe6db99e5; 0x1fa27cf8; 0xc4ac5665;
  0xf4292244; 0x432aff97; 0xab9423a7; 0xfc93a039;
  0x655b59c3; 0x8f0ccc92; 0xffeff47d; 0x85845dd1;
  0x6fa87e4f; 0xfe2ce6e0; 0xa3014314; 0x4e0811a1;
  0xf7537e82; 0xbd3af235; 0x2ad7d2bb; 0xeb86d391 ].

(** Little-endian bytes of a word, and back. *)
Definition le_bytes (n : nat) (x : N) : list N :=
  map (fun i => (N.shiftr x (8 * N.of_nat i)) mod 0x100) (seq 0 n).

Fixpoint le_word (bs : list N) : N :=
  match bs with
  | [] => 0
  | b :: r => b + 0x100 * le_word r
  end.

Definition padding (len : nat) : list N :=
  0x80 :: repeat 0 ((64 - (len + 9) mod 64) mod 64)%nat.

Definition pad (msg : list N) : list N :=
  msg ++ padding (length msg)
      ++ le_bytes 8 ((8 * N.of_nat (length msg)) mod 0x10000000000000000).

Fixpoint chunks (n : nat) (count : nat) (l : list N) : list (list N) :=
  match count with
  | O => []
  | S k => firstn n l :: chunks n k (skipn n l)
  end.

Record state := St { sa : N; sb : N; sc : N; sd : N }.

Definition round (M : list N) (st : state) (i : nat) : state :=
  let '(St A B C D) := st in
  let '(F, g) :=
    if (i <? 16)%nat then
      (N.lor (N.land B C) (N.land (not32 B) D), i)
    else if (i <? 32)%nat then
      (N.lor (N.land D B) (N.land (not32 D) C), ((5 * i + 1) mod 16)%nat)
    else if (i <? 48)%nat then
      (N.lxor (N.lxor B C) D, ((3 * i + 5) mod 16)%nat)
    else
      (N.lxor C (N.lor B (not32 D)), ((7 * i) mod 16)%nat) in
  let F' := w32 (F + A + nth i K 0 + nth g M 0) in
  St D (w32 (B + rotl F' (nth i shifts 0))) B C.

Definition process_chunk (st : state) (chunk : list N) : state :=
  let M := map le_word (chunks 4 16 chunk) in
  let '(St A B C D) := fold_left (round M) (seq 0 64) st in
  St (w32 (sa st + A)) (w32 (sb st + B)) (w32 (sc st + C)) (w32 (sd st + D)).

Definition digest (msg : list N) : list N :=
  let padded := pad msg in
  let '(St A B C D) :=
    fold_left process_chunk (chunks 64 (length padded / 64) padded)
              (St 0x67452301 0xefcdab89 0x98badcfe 0x10325476) in
  le_bytes 4 A ++ le_bytes 4 B ++ le_bytes 4 C ++ le_bytes 4 D.

Definition hex_digit (n : N) : cp := if n <? 10 then 0x30 + n else 0x57 + n.

Definition hexdigest (msg : list N) : str :=
  flat_map (fun b => [hex_digit (b / 16); hex_digit (b mod 16)]) (digest msg).

End MD5.

Definition is_surrogate (c : cp) : bool := (0xD800 <=? c) && (c <=? 0xDFFF).

Definition encode_cp (c : cp) : list N :=
  if c <? 0x80 then [c]
  else if c <? 0x800 then [0xC0 + c / 0x40; 0x80 + c mod 0x40]
  else if c <? 0x10000 then
    [0xE0 + c / 0x1000; 0x80 + (c / 0x40) mod 0x40; 0x80 + c mod 0x40]
  else
    [0xF0 + c / 0x40000; 0x80 + (c / 0x1000) mod 0x40;
     0x80 + (c / 0x40) mod 0x40; 0x80 + c mod 0x40].

(** Decimal and four-digit hexadecimal text, for the message of
    [UnicodeEncodeError]. *)
Fixpoint decimal_digits (fuel : nat) (n : N) (acc : str) : str :=
  match fuel with
  | O => acc
  | S k =>
      if n <? 10 then (0x30 + n) :: acc
      else decimal_digits k (n / 10) ((0x30 + n mod 10) :: acc)
  end.

Definition str_of_nat (n : nat) : str := decimal_digits (S n) (N.of_nat n) [].

Definition hex4 (c : cp) : str :=
  map MD5.hex_digit [c / 0x1000; (c / 0x100) mod 0x10; (c / 0x10) mod 0x10; c mod 0x10].

Fixpoint surrogate_run (s : str) : nat :=
  match s with
  | c :: r => if is_surrogate c then S (surrogate_run r) else O
  | [] => O
  end.

Fixpoint first_surrogate (pos : nat) (s : str) : option (nat * cp * nat) :=
  match s with
  | [] => None
  | c :: r =>
      if is_surrogate c then Some (pos, c, (pos + surrogate_run r)%nat)
      else first_surrogate (S pos) r
  end.

(** [s.encode()]: UTF-8, which refuses lone surrogates. *)
Definition str_encode (s : str) : res (list N) :=
  match first_surrogate 0 s with
  | None => Ok (flat_map encode_cp s)
  | Some (start, c, last) =>
      Raise (Exception "UnicodeEncodeError"
        (if (start =? last)%nat then
           u "'utf-8' codec can't encode character '\ud" ++ skipn 1 (hex4 c)
             ++ u "' in position " ++ str_of_nat start
             ++ u ": surrogates not allowed"
         else
           u "'utf-8' codec can't encode characters in position "
             ++ str_of_nat start ++ u "-" ++ str_of_nat last
             ++ u ": surrogates not allowed"))
  end.

(* ===================================================================== *)
(** ** utils.py: generate_cache_key                                       *)
(* ===================================================================== *)

Fixpoint lstrip (s : str) : str :=
  match s with
  | [] => []
  | c :: r => if is_space c then lstrip r else s
  end.

Definition rstrip (s : str) : str := rev (lstrip (rev s)).

(** [s.strip()]. *)
Definition strip (s : str) : str := rstrip (lstrip s).

(** [re.sub(r'\s+', ' ', s)]: every maximal run of white space becomes one
    U+0020; [in_run] tells that the run's replacement is already written. *)
Fixpoint sub_spaces_from (in_run : bool) (s : str) : str :=
  match s with
  | [] => []
  | c :: r =>
      if is_space c then
        if in_run then sub_spaces_from true r else 0x20 :: sub_spaces_from true r
      else c :: sub_spaces_from false r
  end.

Definition sub_spaces (s : str) : str := sub_spaces_from false s.

Definition normalize_query `{UnicodeData} (query : str) : str :=
  sub_spaces (strip (str_lower query)).

Definition generate_cache_key `{UnicodeData} (agent_type : str) (query : str)
  : res str :=
  let normalized_query := normalize_query query in
  match str_encode normalized_query with
  | Raise e => Raise e
  | Ok encoded =>
      let query_hash := str_prefix 8 (MD5.hexdigest encoded) in
      Ok (agent_type ++ u ":" ++ query_hash)
  end.

(* ===================================================================== *)
(** ** utils.py: CacheManager                                             *)
(* ===================================================================== *)

(** Instants and durations are integers, in microseconds (the resolution of
    [datetime]); the same unit serves for the readings of [time.time()]. *)
Definition seconds (n : Z) : Z := (n * 1000000)%Z.

(** [timedelta(minutes=n)], for the [n] that [timedelta] takes: outside
    [-1439999998560 .. 1439999999999] it raises [OverflowError]. *)
Definition timedelta_minutes (n : Z) : Z := (n * 60 * 1000000)%Z.

Module CacheManager.

Section WithValue.
Context {V : Type}.

Record t := Make {
  cache : gmap str (V * Z);
  ttl_minutes : Z
}.

(** [CacheManager(ttl_minutes=30)]. *)
Definition init (ttl : Z) : t := {| cache := ∅; ttl_minutes := ttl |}.

(** [get], with the reading of [datetime.now()] made explicit; the second
    component is the manager after the call. *)
Definition get (self : t) (now : Z) (key : str) : option V * t :=
  match cache self !! key with
  | Some (data, timestamp) =>
      if (now - timestamp <? timedelta_minutes (ttl_minutes self))%Z
      then (Some data, self)
      else (None, {| cache := delete key (cache self);
                     ttl_minutes := ttl_minutes self |})
  | None => (None, self)
  end.

Definition set (self : t) (now : Z) (key : str) (value : V) : t :=
  {| cache := <[key := (value, now)]> (cache self);
     ttl_minutes := ttl_minutes self |}.

Definition clear (self : t) : t :=
  {| cache := ∅; ttl_minutes := ttl_minutes self |}.

End WithValue.
Arguments t V : clear implicits.

End CacheManager.

(* ===================================================================== *)
(** ** main_cli.py: the dispatcher                                        *)
(* ===================================================================== *)

(** Of a call of [process_query] the embedding keeps the cache, the
    activity log, the calls of the analyzer and of the executors, the alarm
    and the dictionary returned; what is written to the console is left out,
    which takes every [print] to return, and an executor in which the alarm
    goes off is taken to let the [TimeoutException] through: module [Console]
    further down embeds [process_query] again without these two assumptions.
    The clock of the process state is the only time there is: it moves only
    while an executor runs, by the duration that executor's behaviour gives,
    and every other step takes no time. The dictionaries stored in the cache are never
    empty, so [if cached_result:] tests that the cache returned one. *)

Definition AGENT_TIMEOUT : Z := 30.

(** The dictionaries [process_query] returns: [final_result], and the one
    built by the outer [except]. *)
Inductive Outcome :=
| FinalResult (content agent_used query : str) (analysis : QueryClassification)
              (processing_time timestamp : Z)
| ErrorResult (error query : str) (processing_time timestamp : Z).

Definition success (o : Outcome) : bool :=
  match o with
  | FinalResult _ _ _ _ _ _ => true
  | ErrorResult _ _ _ _ => false
  end.

(** What an executor's [invoke] hands back: a dict, seen through its
    ["output"] entry, or an object on which [.get] raises. *)
Inductive PyValue :=
| Dict (output : option str)
| NoGet (attribute_error : str).

(** What a call of [invoke] does: return or raise after some time, or never
    come back. *)
Inductive behaviour :=
| Returns (value : PyValue) (duration : N)
| Raises (e : PyException) (duration : N)
| Hangs.

(** What a call leaves on record: the entries [log_agent_activity] writes,
    and, so that statements can speak of them, each call of the analyzer and
    each call of an executor's [invoke]. *)
Inductive event :=
| Activity (agent action : string)
| Analyzed (query : str)
| Invoked (executor : string) (query : str).

(** The platform's [signal] module as the program uses it: without SIGALRM,
    or with its alarm disarmed, or armed and due at an instant. *)
Inductive alarm_state :=
| NoSIGALRM
| Disarmed
| Armed (due : Z).

(** The process state a call reads and writes: the module-level
    [cache_manager], the clock, the alarm, and the record of activity,
    oldest first. *)
Record world := {
  cache_manager : CacheManager.t Outcome;
  clock : Z;
  alarm : alarm_state;
  activity : list event
}.

Definition logged (w : world) (ev : event) : world :=
  {| cache_manager := cache_manager w; clock := clock w; alarm := alarm w;
     activity := activity w ++ [ev] |}.

Definition with_cache_manager (w : world) (cm : CacheManager.t Outcome) : world :=
  {| cache_manager := cm; clock := clock w; alarm := alarm w;
     activity := activity w |}.

Definition with_alarm (w : world) (a : alarm_state) : world :=
  {| cache_manager := cache_manager w; clock := clock w; alarm := a;
     activity := activity w |}.

(** The clock moved forward to instant [t]. *)
Definition at_instant (w : world) (t : Z) : world :=
  {| cache_manager := cache_manager w; clock := Z.max (clock w) t;
     alarm := alarm w; activity := activity w |}.

(** [self]: the analyzer and the three executors; what an executor does may
    depend on the instant it is called. *)
Record BrazilianEconomyAgentSystem := {
  query_analyzer : str -> res QueryClassification;
  research_executor : Z -> str -> behaviour;
  chart_executor : Z -> str -> behaviour;
  weather_executor : Z -> str -> behaviour
}.

(** Computations on the process state that may raise, or not return. *)
Definition M (A : Type) : Type := world -> option (res A * world).

Definition ret {A} (a : A) : M A := fun w => Some (Ok a, w).

Definition bind {A B} (m : M A) (f : A -> M B) : M B :=
  fun w =>
    match m w with
    | None => None
    | Some (Ok a, w') => f a w'
    | Some (Raise e, w') => Some (Raise e, w')
    end.

Definition lift {A} (r : res A) : M A := fun w => Some (r, w).

(** [try: m  except ... as e: handler e]. *)
Definition try_except {A} (m : M A) (handler : PyException -> M A) : M A :=
  fun w =>
    match m w with
    | Some (Raise e, w') => handler e w'
    | r => r
    end.

Notation "'do' x <- m ;; k" := (bind m (fun x => k))
  (at level 10, x name, m at level 99, k at level 200).

Definition record (ev : event) : M unit :=
  fun w => Some (Ok tt, logged w ev).

(** [log_agent_activity(agent_name, action, ...)]. *)
Definition log_agent_activity (agent_name action : string) : M unit :=
  record (Activity agent_name action).

(** [time.time()] and [datetime.now()]. *)
Definition now : M Z := fun w => Some (Ok (clock w), w).

Definition cache_manager_get (key : str) : M (option Outcome) :=
  fun w =>
    let '(found, cm) := CacheManager.get (cache_manager w) (clock w) key in
    Some (Ok found, with_cache_manager w cm).

Definition cache_manager_set (key : str) (value : Outcome) : M unit :=
  fun w =>
    Some (Ok tt,
          with_cache_manager w
            (CacheManager.set (cache_manager w) (clock w) key value)).

(** [if hasattr(signal, 'SIGALRM'): signal.alarm(n)]: arms the alarm [n]
    seconds ahead, or disarms it when [n] is 0. *)
Definition signal_alarm (n : Z) : M unit :=
  fun w =>
    Some (Ok tt,
          match alarm w with
          | NoSIGALRM => w
          | _ => with_alarm w (if (n =? 0)%Z then Disarmed
                               else Armed (clock w + seconds n)%Z)
          end).

(** [timeout_handler]: what SIGALRM raises in the running call. *)
Definition timeout_handler : PyException :=
  TimeoutException (u "Agent execution timed out").

(** [executor.invoke({"input": query})]. The call ends when the executor
    is done or when the armed alarm goes off, whichever comes first, the
    alarm winning a tie; with no alarm armed a call that hangs never ends.
    The [TimeoutException] that the alarm raises inside the executor is
    taken to come out of the call. *)
Definition invoke (name : string) (executor : Z -> str -> behaviour) (query : str)
  : M PyValue :=
  do _ <- record (Invoked name query) ;;
  fun w =>
    let finished :=
      match executor (clock w) query with
      | Returns v d => Some (clock w + Z.of_N d, Ok v)%Z
      | Raises e d => Some (clock w + Z.of_N d, Raise e)%Z
      | Hangs => None
      end in
    match alarm w, finished with
    | Armed t, Some (t', r) =>
        if (t <=? t')%Z
        then Some (Raise timeout_handler, with_alarm (at_instant w t) Disarmed)
        else Some (r, at_instant w t')
    | Armed t, None =>
        Some (Raise timeout_handler, with_alarm (at_instant w t) Disarmed)
    | _, Some (t', r) => Some (r, at_instant w t')
    | _, None => None
    end.

(** [result.get("output", "Resposta não disponível")]. *)
Definition result_get_output (result : PyValue) : res str :=
  match result with
  | Dict (Some output) => Ok output
  | Dict None => Ok (u "Resposta não disponível")
  | NoGet msg => Raise (Exception "AttributeError" msg)
  end.

Section Dispatcher.
Context `{UnicodeData}.

Definition _route_query (query : str) : str :=
  let query_lower := str_lower query in
  if any_in (map u ["clima"; "tempo"; "temperatura"; "chuva"; "meteorológico"]%string)
            query_lower
  then u "weather"
  else if any_in (map u ["gráfico"; "chart"; "plotar"; "visualizar"; "plot"; "graph"]%string)
                 query_lower
  then u "chart"
  else if any_in (map u ["pesquisa"; "economia"; "pib"; "dados"; "ibge"; "estatística"]%string)
                 query_lower
  then u "research"
  else u "research".

(** The body of the inner [try]. *)
Definition execute_agent (self : BrazilianEconomyAgentSystem) (route query : str)
  : M PyValue :=
  do _ <- signal_alarm (AGENT_TIMEOUT + 5) ;;
  do result <-
    (if bool_decide (route = u "research") then
       do _ <- log_agent_activity "research_agent" "processing_query" ;;
       invoke "research_executor" (research_executor self) query
     else if bool_decide (route = u "chart") then
       do _ <- log_agent_activity "chart_agent" "generating_visualization" ;;
       invoke "chart_executor" (chart_executor self) query
     else if bool_decide (route = u "weather") then
       do _ <- log_agent_activity "weather_agent" "fetching_climate_data" ;;
       invoke "weather_executor" (weather_executor self) query
     else
       do _ <- log_agent_activity "research_agent" "processing_query" ;;
       invoke "research_executor" (research_executor self) query) ;;
  do _ <- signal_alarm 0 ;;
  ret result.

(** The two [except] clauses of the inner [try]. *)
Definition execution_fallback (query : str) (e : PyException) : M PyValue :=
  match e with
  | TimeoutException _ =>
      ret (Dict (Some (u "Consulta sobre '" ++ query
                         ++ u "' teve timeout. Tente uma pergunta mais específica ou simples.")))
  | Exception _ _ =>
      ret (Dict (Some (u "Não foi possível processar completamente a consulta '"
                         ++ query ++ u "'. Erro: "
                         ++ str_prefix 100 (exc_str e) ++ u "...")))
  end.

Definition process_query (self : BrazilianEconomyAgentSystem) (query : str)
  : M Outcome :=
  do start_time <- now ;;
  try_except
    (do cache_key <- lift (generate_cache_key (u "system") query) ;;
     do cached_result <- cache_manager_get cache_key ;;
     match cached_result with
     | Some cached =>
         do _ <- log_agent_activity "system" "cache_hit" ;;
         ret cached
     | None =>
         do _ <- record (Analyzed query) ;;
         do analysis <- lift (query_analyzer self query) ;;
         do _ <- log_agent_activity "system" "query_analyzed" ;;
         let route := _route_query query in
         do result <- try_except (execute_agent self route query)
                              (execution_fallback query) ;;
         do end_time <- now ;;
         let processing_time := (end_time - start_time)%Z in
         do content <- lift (result_get_output result) ;;
         do timestamp <- now ;;
         let final_result :=
           FinalResult content route query analysis processing_time timestamp in
         do _ <- (if (processing_time <? seconds AGENT_TIMEOUT)%Z
               then cache_manager_set cache_key final_result
               else ret tt) ;;
         ret final_result
     end)
    (fun e =>
       do end_time <- now ;;
       let processing_time := (end_time - start_time)%Z in
       do _ <- log_agent_activity "system" "error" ;;
       do timestamp <- now ;;
       ret (ErrorResult (exc_str e) query processing_time timestamp)).

(** The system as [__init__] builds it: [QueryAnalyzer()] and three
    executors. *)
Definition the_system (research chart weather : Z -> str -> behaviour)
  : BrazilianEconomyAgentSystem :=
  {| query_analyzer := analyze_query the_QueryAnalyzer;
     research_executor := research;
     chart_executor := chart;
     weather_executor := weather |}.

End Dispatcher.

(** A process that has just imported [utils]: [cache_manager =
    CacheManager()], no alarm armed, nothing logged. *)
Definition fresh_world (platform : alarm_state) (t0 : Z) : world :=
  {| cache_manager := CacheManager.init 30; clock := t0; alarm := platform;
     activity := [] |}.

(* ===================================================================== *)
(** ** main_cli.py: CLIInterface                                          *)
(* ===================================================================== *)

(** What [input()] meets at one prompt, after the user has let some time
    pass: a line of text, or Ctrl-C. Past the last event standard input is
    at its end, where every [input()] raises [EOFError]. *)
Inductive stdin_event :=
| Line (wait : N) (text : str)
| CtrlC (wait : N).

(** What the interface writes to the terminal, by the method that writes
    it; the texts themselves are left out, except for what they report. *)
Inductive display :=
| Help
| Status
| Banner
| Cache_cleared
| Cache_info (items : nat)
| Results (result : Outcome)
| Goodbye
| Interrupted
| Unexpected (error : str).

(** The state of a session: [self.running], the process state, what is on
    the terminal (oldest first) and what of standard input is unread. *)
Record session := {
  running : bool;
  process : world;
  terminal : list display;
  unread : list stdin_event
}.

(** Time spent waiting at the prompt, when no alarm falls due meanwhile. *)
Definition waited (w : world) (d : N) : world :=
  at_instant w (clock w + Z.of_N d).

Section CLI.
Context `{UnicodeData}.

(** [handle_cache_commands]: ['clear' in query.lower()] is tested first. *)
Definition handle_cache_commands (query : str) (w : world) (out : list display)
  : world * list display :=
  if str_in (u "clear") (str_lower query) then
    (with_cache_manager w (CacheManager.clear (cache_manager w)),
     out ++ [Cache_cleared])
  else if str_in (u "info") (str_lower query) then
    (w, out ++ [Cache_info (size (CacheManager.cache (cache_manager w)))])
  else (w, out).

(** The body of [while self.running:], once for each prompt. A call of
    [process_query] that never returns keeps the loop from going on; at the
    end of standard input the [EOFError] of [input()] is caught by [except
    Exception] and the loop goes on to the next prompt, for ever: [prompts]
    renders both as no return. No alarm is taken to fall due while a prompt
    waits, and the console to accept every line; [Console.pass] further down
    embeds the body again, one pass at a time, without these assumptions. *)
Fixpoint prompts (self : BrazilianEconomyAgentSystem) (stdin : list stdin_event)
  (w : world) (out : list display) : option session :=
  match stdin with
  | [] => None
  | CtrlC wait :: rest =>
      Some {| running := true; process := waited w wait;
              terminal := out ++ [Interrupted]; unread := rest |}
  | Line wait text :: rest =>
      let w := waited w wait in
      let query := strip text in
      if bool_decide (query = []) then prompts self rest w out
      else if bool_decide (str_lower query ∈ map u ["quit"; "exit"; "sair"]%string) then
        Some {| running := false; process := w;
                terminal := out ++ [Goodbye]; unread := rest |}
      else if bool_decide (str_lower query ∈ map u ["help"; "ajuda"]%string) then
        prompts self rest w (out ++ [Help])
      else if bool_decide (str_lower query ∈ map u ["clear"; "limpar"]%string) then
        prompts self rest w (out ++ [Banner])
      else if starts_with (u "cache") (str_lower query) then
        let '(w', out') := handle_cache_commands query w out in
        prompts self rest w' out'
      else if bool_decide (str_lower query ∈ map u ["status"; "info"]%string) then
        prompts self rest w (out ++ [Status])
      else
        match process_query self query w with
        | None => None
        | Some (Ok result, w') => prompts self rest w' (out ++ [Results result])
        | Some (Raise e, w') => prompts self rest w' (out ++ [Unexpected (exc_str e)])
        end
  end.

(** [main_loop], entered with [self.running] as [__init__] or an earlier
    [handle_quit] left it. *)
Definition main_loop (self : BrazilianEconomyAgentSystem) (s : session)
  : option session :=
  if running s then prompts self (unread s) (process s) (terminal s)
  else Some s.

End CLI.

(** The interface as [CLIInterface.__init__] and [start] leave it when
    [main_loop] is entered. *)
Definition new_session (w : world) (stdin : list stdin_event) : session :=
  {| running := true; process := w; terminal := []; unread := stdin |}.

(* ===================================================================== *)
(** ** tools.py: _enhance_search_query and _enhance_python_code           *)
(* ===================================================================== *)

(** The dict [enhancements], in the order it is written. *)
Definition enhancements : list (str * str) := [
  (u "pib", u "PIB Brasil dados oficiais IBGE");
  (u "economia", u "economia brasileira dados oficiais");
  (u "municipio", u "município Brasil dados IBGE");
  (u "cidade", u "cidade Brasil economia PIB");
  (u "clima", u "clima tempo Brasil INMET");
  (u "temperatura", u "temperatura clima Brasil") ].

Definition reliable_sources : str :=
  u "site:ibge.gov.br OR site:bcb.gov.br OR site:gov.br".

(** The [for ... in enhancements.items()] loop, left at the first term
    found in the lower-cased query. *)
Fixpoint enhance_with (items : list (str * str)) (query_lower query : str) : str :=
  match items with
  | [] => query
  | (term, enhancement) :: rest =>
      if str_in term query_lower then query ++ u " " ++ enhancement
      else enhance_with rest query_lower query
  end.

Definition _enhance_search_query `{UnicodeData} (query : str) : str :=
  let query_lower := str_lower query in
  let query := enhance_with enhancements query_lower query in
  query ++ u " " ++ reliable_sources.

(** [sep.join(parts)]. *)
Fixpoint str_join (sep : str) (parts : list str) : str :=
  match parts with
  | [] => []
  | [part] => part
  | part :: rest => part ++ sep ++ str_join sep rest
  end.

(** The four libraries [_enhance_python_code] knows: the texts that call
    for each, and its import line. *)
Definition known_imports : list (list str * str) := [
  ([u "plt."; u "pyplot"], u "import matplotlib.pyplot as plt");
  ([u "sns."; u "seaborn"], u "import seaborn as sns");
  ([u "pd."; u "DataFrame"], u "import pandas as pd");
  ([u "np."; u "numpy"], u "import numpy as np") ].

Definition _enhance_python_code (code : str) : str :=
  let imports_needed :=
    flat_map (fun lib => if any_in (fst lib) code then [snd lib] else [])
             known_imports in
  match imports_needed with
  | [] => code
  | _ :: _ =>
      let existing_imports := List.filter (fun imp => str_in imp code) imports_needed in
      let new_imports :=
        List.filter (fun imp => negb (bool_decide (imp ∈ existing_imports)))
                    imports_needed in
      match new_imports with
      | [] => code
      | _ :: _ => (str_join [0x0A] new_imports ++ [0x0A; 0x0A]) ++ code
      end
  end.

(* ===================================================================== *)
(** ** utils.py: DataValidator.validate_chart_data                        *)
(* ===================================================================== *)

(** A point of the data handed to [validate_chart_data], as far as the
    function looks at it: a dict, seen through its keys, or a value that is
    no dict. *)
Inductive PyPoint :=
| PointDict (keys : list str)
| NotADict.

(** The loop [for i, point in enumerate(data)], from index [i] on. *)
Fixpoint point_errors (i : nat) (data : list PyPoint) : list str :=
  match data with
  | [] => []
  | point :: rest =>
      match point with
      | NotADict =>
          [u "Ponto " ++ str_of_nat i ++ u " não é um dicionário válido"]
      | PointDict keys =>
          if negb (bool_decide (u "x" ∈ keys)) || negb (bool_decide (u "y" ∈ keys))
          then [u "Ponto " ++ str_of_nat i ++ u " missing 'x' or 'y' coordinates"]
          else []
      end ++ point_errors (S i) rest
  end.

Definition validate_chart_data (data : list PyPoint) : bool * list str :=
  let errors :=
    (if (length data <? 2)%nat
     then [u "Dados insuficientes para gráfico (mínimo 2 pontos)"] else [])
    ++ point_errors 0 data in
  (bool_decide (length errors = 0%nat), errors).

(* ===================================================================== *)
(** ** main_cli.py: process_query with its console and its executors      *)
(* ===================================================================== *)

(** [n / d] rounded to the nearest integer, ties to the even one
    ([0 <= n], [0 < d]). *)
Definition round_half_even (n d : Z) : Z :=
  let q := (n / d)%Z in
  let r := (n mod d)%Z in
  if (2 * r <? d)%Z then q
  else if (d <? 2 * r)%Z then (q + 1)%Z
  else if Z.even q then q else (q + 1)%Z.

(** The float nearest to [n / d] ([0 < n], [0 < d]), with its 53
    significant bits: [m / 2 ^ k] when [0 <= k], [m * 2 ^ (- k)] otherwise. *)
Definition nearest_double (n d : Z) : Z * Z :=
  let e0 := (Z.log2 n - Z.log2 d)%Z in
  let e := if (n * 2 ^ Z.max 0 (- e0) <? d * 2 ^ Z.max 0 e0)%Z
           then (e0 - 1)%Z else e0 in
  let k := (52 - e)%Z in
  (round_half_even (n * 2 ^ Z.max 0 k) (d * 2 ^ Z.max 0 (- k)), k).

(** [f"{x:.2f}"], for the float that the rational [x] rounds to. *)
Definition format_2f (x : Q) : str :=
  let n := Z.abs (Qnum x) in
  let d := Zpos (Qden x) in
  let hundredths :=
    if (n =? 0)%Z then 0%Z
    else let '(m, k) := nearest_double n d in
         round_half_even (100 * m * 2 ^ Z.max 0 (- k)) (2 ^ Z.max 0 k) in
  (if (Qnum x <? 0)%Z then [0x2D] else [])
    ++ decimal_digits (S (Z.to_nat (Z.log2 (hundredths / 100))))
                      (Z.to_N (hundredths / 100)) []
    ++ [0x2E; 0x30 + Z.to_N ((hundredths / 10) mod 10);
        0x30 + Z.to_N (hundredths mod 10)].

(** The embedding of [process_query] above takes a console that accepts
    every line and executors that let the exception of the alarm through.
    Here the function is embedded again with both made explicit: every
    [print] of the function is a call that may raise, and an executor may
    catch the [TimeoutException] that the alarm raises inside it, as the
    tools of [tools.py] do with [except Exception]. *)
Module Console.

(** What an executor does with the [TimeoutException] raised inside it
    when the alarm goes off: it lets it through, or catches it and goes on,
    to return or raise some time later, or never. *)
Inductive reaction :=
| Propagates
| Swallows (rest : behaviour).

(** The lines [process_query] prints. *)
Definition processing_line (query : str) : str := u "🔍 Processando: " ++ query.

Definition dashes : str := repeat 0x2D 60.

Definition found_line : str := u "⚡ Resultado encontrado no cache!".

Definition analysis_line (analysis : QueryClassification) : str :=
  u "🧠 Análise: Intenção=" ++ intent analysis
    ++ u " | Confiança=" ++ format_2f (confidence analysis).

Definition entities_line (analysis : QueryClassification) : str :=
  u "🏷️  Entidades: " ++ str_join (u ", ") (entities analysis).

Definition route_line (route : str) : str := u "🎯 Rota selecionada: " ++ route.

Definition executing_line : str :=
  [0x0A] ++ u "🤖 Executando agente (timeout: "
    ++ str_of_nat (Z.to_nat AGENT_TIMEOUT) ++ u "s)...".

Definition success_line (route : str) : str :=
  u "   ✓ Agente " ++ route ++ u " executado com sucesso".

Definition timeout_line : str :=
  u "   ⏱️  Timeout atingido (" ++ str_of_nat (Z.to_nat AGENT_TIMEOUT) ++ u "s)".

Definition failure_line (e : PyException) : str :=
  u "   ❌ Erro durante execução: " ++ str_prefix 100 (exc_str e) ++ u "...".

Definition error_line (e : PyException) : str :=
  u "❌ Erro no processamento: " ++ exc_str e.

Section WithConsole.
Context `{UnicodeData}.

(** [print(text)] on the standard output of the process: it returns, or
    raises what the encoder of the stream raises. What is written is not
    kept. *)
Variable print : str -> res unit.

(** The reaction of the executor of each name, by the instant of the call
    and the query. *)
Variable interrupted : string -> Z -> str -> reaction.

Definition say (text : str) : M unit := lift (print text).

(** [executor.invoke({"input": query})]. With the alarm armed and due
    before the executor is done, SIGALRM runs [timeout_handler], which
    raises [TimeoutException] inside the executor; the alarm is then
    spent. *)
Definition invoke (name : string) (executor : Z -> str -> behaviour) (query : str)
  : M PyValue :=
  do _ <- record (Invoked name query) ;;
  fun w =>
    let finished :=
      match executor (clock w) query with
      | Returns v d => Some (clock w + Z.of_N d, Ok v)%Z
      | Raises e d => Some (clock w + Z.of_N d, Raise e)%Z
      | Hangs => None
      end in
    let alarm_at (t : Z) :=
      let w' := with_alarm (at_instant w t) Disarmed in
      match interrupted name (clock w) query with
      | Propagates => Some (Raise timeout_handler, w')
      | Swallows (Returns v d) => Some (Ok v, at_instant w' (t + Z.of_N d))
      | Swallows (Raises e d) => Some (Raise e, at_instant w' (t + Z.of_N d))
      | Swallows Hangs => None
      end in
    match alarm w, finished with
    | Armed t, Some (t', r) =>
        if (t <=? t')%Z then alarm_at t else Some (r, at_instant w t')
    | Armed t, None => alarm_at t
    | _, Some (t', r) => Some (r, at_instant w t')
    | _, None => None
    end.

(** The body of the inner [try]. *)
Definition execute_agent (self : BrazilianEconomyAgentSystem) (route query : str)
  : M PyValue :=
  do _ <- signal_alarm (AGENT_TIMEOUT + 5) ;;
  do result <-
    (if bool_decide (route = u "research") then
       do _ <- log_agent_activity "research_agent" "processing_query" ;;
       invoke "research_executor" (research_executor self) query
     else if bool_decide (route = u "chart") then
       do _ <- log_agent_activity "chart_agent" "generating_visualization" ;;
       invoke "chart_executor" (chart_executor self) query
     else if bool_decide (route = u "weather") then
       do _ <- log_agent_activity "weather_agent" "fetching_climate_data" ;;
       invoke "weather_executor" (weather_executor self) query
     else
       do _ <- log_agent_activity "research_agent" "processing_query" ;;
       invoke "research_executor" (research_executor self) query) ;;
  do _ <- signal_alarm 0 ;;
  do _ <- say (success_line route) ;;
  ret result.

(** The two [except] clauses of the inner [try]. *)
Definition execution_fallback (query : str) (e : PyException) : M PyValue :=
  match e with
  | TimeoutException _ =>
      do _ <- say timeout_line ;;
      ret (Dict (Some (u "Consulta sobre '" ++ query
                         ++ u "' teve timeout. Tente uma pergunta mais específica ou simples.")))
  | Exception _ _ =>
      do _ <- say (failure_line e) ;;
      ret (Dict (Some (u "Não foi possível processar completamente a consulta '"
                         ++ query ++ u "'. Erro: "
                         ++ str_prefix 100 (exc_str e) ++ u "...")))
  end.

(** The inner [try] with its [except] clauses. *)
Definition run_agent (self : BrazilianEconomyAgentSystem) (query : str)
  : M PyValue :=
  try_except (execute_agent self (_route_query query) query)
             (execution_fallback query).

(** The body of the outer [try]. *)
Definition attempt (self : BrazilianEconomyAgentSystem) (query : str)
  (start_time : Z) : M Outcome :=
  do cache_key <- lift (generate_cache_key (u "system") query) ;;
  do cached_result <- cache_manager_get cache_key ;;
  match cached_result with
  | Some cached =>
      do _ <- say found_line ;;
      do _ <- log_agent_activity "system" "cache_hit" ;;
      ret cached
  | None =>
      do _ <- record (Analyzed query) ;;
      do analysis <- lift (query_analyzer self query) ;;
      do _ <- say (analysis_line analysis) ;;
      do _ <- match entities analysis with
              | [] => ret tt
              | _ :: _ => say (entities_line analysis)
              end ;;
      do _ <- log_agent_activity "system" "query_analyzed" ;;
      let route := _route_query query in
      do _ <- say (route_line route) ;;
      do _ <- say executing_line ;;
      do result <- run_agent self query ;;
      do end_time <- now ;;
      let processing_time := (end_time - start_time)%Z in
      do content <- lift (result_get_output result) ;;
      do timestamp <- now ;;
      let final_result :=
        FinalResult content route query analysis processing_time timestamp in
      do _ <- (if (processing_time <? seconds AGENT_TIMEOUT)%Z
            then cache_manager_set cache_key final_result
            else ret tt) ;;
      ret final_result
  end.

(** The outer [except Exception as e]. *)
Definition on_error (query : str) (start_time : Z) (e : PyException) : M Outcome :=
  do end_time <- now ;;
  let processing_time := (end_time - start_time)%Z in
  do _ <- say (error_line e) ;;
  do _ <- log_agent_activity "system" "error" ;;
  do timestamp <- now ;;
  ret (ErrorResult (exc_str e) query processing_time timestamp).

(** The two lines printed first are printed before the [try]. *)
Definition process_query (self : BrazilianEconomyAgentSystem) (query : str)
  : M Outcome :=
  do _ <- say (processing_line query) ;;
  do _ <- say dashes ;;
  do start_time <- now ;;
  try_except (attempt self query start_time) (on_error query start_time).

End WithConsole.

(** *** [CLIInterface.main_loop], pass by pass *)

(** The lines [main_loop] and the two methods embedded with it print, and
    the prompt of [input]. *)
Definition opening_lines : list str :=
  [[0x0A] ++ u "💬 Digite suas perguntas (ou 'help' para ajuda, 'quit' para sair)";
   u "💡 Para melhor performance, faça perguntas específicas e diretas";
   dashes].

Definition prompt : str := [0x0A] ++ u "🔮 Você: ".

Definition goodbye_lines : list str :=
  [[0x0A] ++ u "👋 Obrigado por usar o Sistema Multi-Agente Otimizado!";
   u "🎯 Estatísticas da sessão salvas em logs";
   u "Até a próxima! 🚀"].

Definition interrupted_line : str :=
  [0x0A; 0x0A] ++ u "👋 Sistema interrompido pelo usuário".

Definition unexpected_line (e : PyException) : str :=
  u "❌ Erro inesperado: " ++ exc_str e.

Definition cache_cleared_line : str := u "✅ Cache limpo com sucesso!".

Definition cache_info_lines (items : nat) : list str :=
  [u "🗄️  Informações do cache:";
   u "   • Items em cache: " ++ str_of_nat items;
   u "   • TTL: 30 minutos"].

(** What [input()] raises at the end of standard input. *)
Definition end_of_file : PyException :=
  Exception "EOFError" (u "EOF when reading a line").

(** The state of a session: [self.running], the process state, what has
    been written to the standard output (oldest first) and what of standard
    input is unread. *)
Record session := {
  running : bool;
  process : world;
  written : list str;
  unread : list stdin_event
}.

Definition wrote (s : session) (text : str) : session :=
  {| running := running s; process := process s;
     written := written s ++ [text]; unread := unread s |}.

Definition with_process (s : session) (w : world) : session :=
  {| running := running s; process := w; written := written s;
     unread := unread s |}.

Definition with_unread (s : session) (stdin : list stdin_event) : session :=
  {| running := running s; process := process s; written := written s;
     unread := stdin |}.

Definition stopped (s : session) : session :=
  {| running := false; process := process s; written := written s;
     unread := unread s |}.

(** How a call of [input] ends: with the line typed, with the
    [KeyboardInterrupt] of Ctrl-C, or with an exception that derives from
    [Exception]. The last case is the one the embedding does not settle:
    standard input is at its end while an alarm is armed. *)
Inductive input_end :=
| Typed (text : str)
| KeyboardInterrupt
| Failed (e : PyException)
| AlarmPending.

(** How one pass of the body of [while self.running:] ends: at [continue]
    or at the end of the body, at [break], or with an exception that leaves
    [main_loop]; or it is not settled. *)
Inductive pass_end :=
| Again (s : session)
| Break (s : session)
| Escapes (e : PyException) (s : session)
| Unsettled (s : session).

(** Where [main_loop] is after some passes: still in its loop, returned,
    or left by an exception; or it is not settled. *)
Inductive progress :=
| Looping (s : session)
| Returned (s : session)
| Raised (e : PyException) (s : session)
| Undetermined (s : session).

Definition wait_of (ev : stdin_event) : N :=
  match ev with
  | Line wait _ => wait
  | CtrlC wait => wait
  end.

Definition delayed (ev : stdin_event) (wait : N) : stdin_event :=
  match ev with
  | Line _ text => Line wait text
  | CtrlC _ => CtrlC wait
  end.

(** The instant at which the armed alarm goes off, when that is no later
    than [t]. *)
Definition alarm_due_by (w : world) (t : Z) : option Z :=
  match alarm w with
  | Armed due => if (due <=? t)%Z then Some due else None
  | _ => None
  end.

Section WithMethods.
Context `{UnicodeData}.

(** [print(text)], and the writing of the prompt by [input(text)]. *)
Variable print : str -> res unit.

(** The methods [main_loop] calls that are not embedded: each may write,
    change the process state, raise, or not return. *)
Variable show_help : session -> option (res unit * session).
Variable clear_screen : session -> option (res unit * session).
Variable show_status : session -> option (res unit * session).
Variable process_and_display_query : str -> session -> option (res unit * session).

(** The lines printed one after the other, up to the first that the
    standard output refuses. *)
Fixpoint say_all (lines : list str) (s : session) : res unit * session :=
  match lines with
  | [] => (Ok tt, s)
  | line :: rest =>
      match print line with
      | Ok _ => say_all rest (wrote s line)
      | Raise e => (Raise e, s)
      end
  end.

(** [input("\n🔮 Você: ")]. The prompt is written; at the end of standard
    input [EOFError] is raised at once; otherwise the call waits for the
    next event. An alarm left armed that falls due during the wait (or at
    its very end) runs [timeout_handler], which raises [TimeoutException]
    out of [input]: the alarm is then spent, and the event is still to
    come, after the rest of its wait. At the end of standard input nothing
    is waited for, and the passes of the loop follow one another in a time
    the clock of the embedding does not count: with an alarm armed, when it
    goes off, and whether that is inside the [try] or inside a handler, is
    left unsettled. *)
Definition input (s : session) : input_end * session :=
  match print prompt with
  | Raise e => (Failed e, s)
  | Ok _ =>
      let s := wrote s prompt in
      match unread s with
      | [] =>
          match alarm (process s) with
          | Armed _ => (AlarmPending, s)
          | _ => (Failed end_of_file, s)
          end
      | ev :: rest =>
          let w := process s in
          let arrival := (clock w + Z.of_N (wait_of ev))%Z in
          match alarm_due_by w arrival with
          | Some due =>
              let w' := with_alarm (at_instant w due) Disarmed in
              (Failed timeout_handler,
               with_unread (with_process s w')
                 (delayed ev (Z.to_N (arrival - clock w')) :: rest))
          | None =>
              (match ev with
               | Line _ text => Typed text
               | CtrlC _ => KeyboardInterrupt
               end,
               with_unread (with_process s (at_instant w arrival)) rest)
          end
      end
  end.

(** [handle_cache_commands]: ['clear' in query.lower()] is tested first. *)
Definition handle_cache_commands (query : str) (s : session) : res unit * session :=
  if str_in (u "clear") (str_lower query) then
    say_all [cache_cleared_line]
      (with_process s
         (with_cache_manager (process s)
            (CacheManager.clear (cache_manager (process s)))))
  else if str_in (u "info") (str_lower query) then
    say_all (cache_info_lines
               (size (CacheManager.cache (cache_manager (process s))))) s
  else (Ok tt, s).

(** [handle_quit]: [self.running] is cleared after the three lines. *)
Definition handle_quit (s : session) : res unit * session :=
  match say_all goodbye_lines s with
  | (Ok _, s') => (Ok tt, stopped s')
  | failed => failed
  end.

(** [except KeyboardInterrupt:]: the line, then [break]. *)
Definition on_keyboard_interrupt (s : session) : pass_end :=
  match print interrupted_line with
  | Ok _ => Break (wrote s interrupted_line)
  | Raise e => Escapes e s
  end.

(** [except Exception as e:]: the line, then [continue]. *)
Definition on_exception (e : PyException) (s : session) : pass_end :=
  match print (unexpected_line e) with
  | Ok _ => Again (wrote s (unexpected_line e))
  | Raise e' => Escapes e' s
  end.

(** A method called inside the [try] and followed by [continue] or by the
    end of the body. *)
Definition then_continue (called : option (res unit * session)) : option pass_end :=
  match called with
  | None => None
  | Some (Ok _, s) => Some (Again s)
  | Some (Raise e, s) => Some (on_exception e s)
  end.

(** One pass of the body of [while self.running:]. *)
Definition pass (s : session) : option pass_end :=
  let '(got, s) := input s in
  match got with
  | KeyboardInterrupt => Some (on_keyboard_interrupt s)
  | Failed e => Some (on_exception e s)
  | AlarmPending => Some (Unsettled s)
  | Typed text =>
      let query := strip text in
      if bool_decide (query = []) then Some (Again s)
      else if bool_decide (str_lower query ∈ map u ["quit"; "exit"; "sair"]%string) then
        match handle_quit s with
        | (Ok _, s') => Some (Break s')
        | (Raise e, s') => Some (on_exception e s')
        end
      else if bool_decide (str_lower query ∈ map u ["help"; "ajuda"]%string) then
        then_continue (show_help s)
      else if bool_decide (str_lower query ∈ map u ["clear"; "limpar"]%string) then
        then_continue (clear_screen s)
      else if starts_with (u "cache") (str_lower query) then
        then_continue (Some (handle_cache_commands query s))
      else if bool_decide (str_lower query ∈ map u ["status"; "info"]%string) then
        then_continue (show_status s)
      else
        then_continue (process_and_display_query query s)
  end.

(** The loop, for at most [n] passes. *)
Fixpoint passes (n : nat) (s : session) : option progress :=
  match n with
  | O => Some (Looping s)
  | S n =>
      if running s then
        match pass s with
        | None => None
        | Some (Again s') => passes n s'
        | Some (Break s') => Some (Returned s')
        | Some (Escapes e s') => Some (Raised e s')
        | Some (Unsettled s') => Some (Undetermined s')
        end
      else Some (Returned s)
  end.

(** [main_loop], followed for at most [n] passes of its loop: the three
    lines printed first are outside the [try]. *)
Definition main_loop (n : nat) (s : session) : option progress :=
  match say_all opening_lines s with
  | (Ok _, s') => passes n s'
  | (Raise e, s') => Some (Raised e s')
  end.

End WithMethods.

(** A method that writes nothing and returns. *)
Definition returns_at_once (s : session) : option (res unit * session) :=
  Some (Ok tt, s).

(** A standard output that encodes in UTF-8 and refuses what UTF-8 refuses
    (the error handler [strict], which is the default of [sys.stdout]). *)
Definition utf8_strict (text : str) : res unit :=
  match str_encode text with
  | Ok _ => Ok tt
  | Raise e => Raise e
  end.

(** A standard output whose error handler never raises ([replace],
    [backslashreplace], ...). *)
Definition accepts_all (text : str) : res unit := Ok tt.

(** Executors that let the exception of the alarm through. *)
Definition propagating (name : string) (start : Z) (query : str) : reaction :=
  Propagates.


End Console.

(* ===================================================================== *)
(** ** Vocabulary of the statements                                       *)
(* ===================================================================== *)

(** [needle] occurs in [haystack] as a contiguous piece. *)
Definition occurs_in (needle haystack : str) : Prop :=
  exists before after, haystack = before ++ needle ++ after.

(** The words of a text: its maximal runs of characters that are not white
    space (what [str.split()] returns). *)
Definition cons_word (c : cp) (r : str) (ws : list str) : list str :=
  match r with
  | [] => [c] :: ws
  | c' :: _ =>
      if is_space c' then [c] :: ws
      else match ws with
           | [] => [[c]]
           | w :: ws' => (c :: w) :: ws'
           end
  end.

Fixpoint words (s : str) : list str :=
  match s with
  | [] => []
  | c :: r => if is_space c then words r else cons_word c r (words r)
  end.

Fixpoint join_spaces (ws : list str) : str :=
  match ws with
  | [] => []
  | [w] => w
  | w :: ws' => w ++ 0x20 :: join_spaces ws'
  end.

(** Two queries that differ only in letter case and in the white space
    around and between their words: lower-cased, they have the same words. *)
Definition same_words_ignoring_case `{UnicodeData} (q1 q2 : str) : Prop :=
  words (str_lower q1) = words (str_lower q2).

(** The name under which [process_query] invokes the executor of a route. *)
Definition executor_name (route : str) : string :=
  if bool_decide (route = u "research") then "research_executor"
  else if bool_decide (route = u "chart") then "chart_executor"
  else if bool_decide (route = u "weather") then "weather_executor"
  else "research_executor".

Definition executor_of (self : BrazilianEconomyAgentSystem) (route : str)
  : Z -> str -> behaviour :=
  if bool_decide (route = u "research") then research_executor self
  else if bool_decide (route = u "chart") then chart_executor self
  else if bool_decide (route = u "weather") then weather_executor self
  else research_executor self.

Definition is_invocation (ev : event) : bool :=
  match ev with
  | Invoked _ _ => true
  | _ => false
  end.

Definition is_analysis (ev : event) : bool :=
  match ev with
  | Analyzed _ => true
  | _ => false
  end.

(** The executor calls recorded by a run, when the run ends. *)
Definition invocations {A} (run : option (res A * world)) : option (list event) :=
  match run with
  | Some (_, w) => Some (List.filter is_invocation (activity w))
  | None => None
  end.

Definition agent_used_of (run : option (res Outcome * world)) : option str :=
  match run with
  | Some (Ok (FinalResult _ agent _ _ _ _), _) => Some agent
  | _ => None
  end.

(** [self] with another analyzer in place of [self.query_analyzer]. *)
Definition with_analyzer (self : BrazilianEconomyAgentSystem)
  (analyzer : str -> res QueryClassification) : BrazilianEconomyAgentSystem :=
  {| query_analyzer := analyzer;
     research_executor := research_executor self;
     chart_executor := chart_executor self;
     weather_executor := weather_executor self |}.

Definition outcome_processing_time (o : Outcome) : Z :=
  match o with
  | FinalResult _ _ _ _ t _ => t
  | ErrorResult _ _ t _ => t
  end.

Definition outcome_content (o : Outcome) : option str :=
  match o with
  | FinalResult content _ _ _ _ _ => Some content
  | ErrorResult _ _ _ _ => None
  end.


(** The entry stored under a key, as the cache holds it. *)
Definition cached_at (w : world) (key : str) : option (Outcome * Z) :=
  CacheManager.cache (cache_manager w) !! key.

(** The three keyword lists of [_route_query], in the order it tests them. *)
Definition weather_words : list str :=
  map u ["clima"; "tempo"; "temperatura"; "chuva"; "meteorológico"]%string.
Definition chart_words : list str :=
  map u ["gráfico"; "chart"; "plotar"; "visualizar"; "plot"; "graph"]%string.
Definition research_words : list str :=
  map u ["pesquisa"; "economia"; "pib"; "dados"; "ibge"; "estatística"]%string.

(** Some word of the list occurs in the text. *)
Definition mentions (ws : list str) (text : str) : Prop :=
  exists word, In word ws /\ occurs_in word text.

(** The pattern table of the analyzer with ["research"] written first. *)
Definition research_first : QueryAnalyzer :=
  {| INTENT_PATTERNS := rev (INTENT_PATTERNS the_QueryAnalyzer);
     BRAZILIAN_LOCATIONS := BRAZILIAN_LOCATIONS the_QueryAnalyzer |}.

Definition intent_of (r : res QueryClassification) : option str :=
  match r with
  | Ok cl => Some (intent cl)
  | Raise _ => None
  end.

(** The activity [process_query] logs before invoking the executor of a
    route. *)
Definition agent_activity (route : str) : event :=
  if bool_decide (route = u "research") then Activity "research_agent" "processing_query"
  else if bool_decide (route = u "chart") then Activity "chart_agent" "generating_visualization"
  else if bool_decide (route = u "weather") then Activity "weather_agent" "fetching_climate_data"
  else Activity "research_agent" "processing_query".

(** The state after [signal.alarm(AGENT_TIMEOUT + 5)] and after
    [signal.alarm(0)], both guarded by [hasattr(signal, 'SIGALRM')]. *)
Definition armed (w : world) : world :=
  match alarm w with
  | NoSIGALRM => w
  | _ => with_alarm w (Armed (clock w + seconds (AGENT_TIMEOUT + 5))%Z)
  end.

Definition disarmed (w : world) : world :=
  match alarm w with
  | NoSIGALRM => w
  | _ => with_alarm w Disarmed
  end.

Definition timeout_text (query : str) : str :=
  u "Consulta sobre '" ++ query
    ++ u "' teve timeout. Tente uma pergunta mais específica ou simples.".

Definition fallback_text (query : str) (e : PyException) : str :=
  u "Não foi possível processar completamente a consulta '" ++ query
    ++ u "'. Erro: " ++ str_prefix 100 (exc_str e) ++ u "...".

(** The value the inner [except] clauses put in [result]. *)
Definition fallback_value (query : str) (e : PyException) : PyValue :=
  match e with
  | TimeoutException _ => Dict (Some (timeout_text query))
  | Exception _ _ => Dict (Some (fallback_text query e))
  end.

(** The inner [try] of [process_query] with its [except] clauses. *)
Definition run_agent `{UnicodeData} (self : BrazilianEconomyAgentSystem)
  (query : str) : M PyValue :=
  try_except (execute_agent self (_route_query query) query)
             (execution_fallback query).

(** How the inner [try] ends, given when the executor would be done. *)
Definition run_agent_outcome (query : str) (w0 w1 : world) (b : behaviour)
  : option (res PyValue * world) :=
  let timed_out t :=
    Some (Ok (Dict (Some (timeout_text query))),
          with_alarm (at_instant w1 t) Disarmed) in
  let done (r : res PyValue) (d : N) :=
    let w2 := at_instant w1 (clock w0 + Z.of_N d) in
    match r with
    | Ok v => Some (Ok v, disarmed w2)
    | Raise e => Some (Ok (fallback_value query e), w2)
    end in
  match alarm w1, b with
  | Armed t, Returns v d =>
      if (t <=? clock w0 + Z.of_N d)%Z then timed_out t else done (Ok v) d
  | Armed t, Raises e d =>
      if (t <=? clock w0 + Z.of_N d)%Z then timed_out t else done (Raise e) d
  | Armed t, Hangs => timed_out t
  | _, Returns v d => done (Ok v) d
  | _, Raises e d => done (Raise e) d
  | _, Hangs => None
  end.

(** The end of [process_query] once [result] is in hand. *)
Definition finalize (start_time : Z) (cache_key route query : str)
  (analysis : QueryClassification) (result : PyValue) (w : world)
  : res Outcome * world :=
  let processing_time := (clock w - start_time)%Z in
  match result_get_output result with
  | Raise e =>
      (Ok (ErrorResult (exc_str e) query processing_time (clock w)),
       logged w (Activity "system" "error"))
  | Ok content =>
      let final_result :=
        FinalResult content route query analysis processing_time (clock w) in
      (Ok final_result,
       if (processing_time <? seconds AGENT_TIMEOUT)%Z
       then with_cache_manager w
              (CacheManager.set (cache_manager w) (clock w) cache_key final_result)
       else w)
  end.

(** The behaviour of an executor that ends after [d] with result [r]. *)
Definition ends_with (r : res PyValue) (d : N) : behaviour :=
  match r with
  | Ok v => Returns v d
  | Raise e => Raises e d
  end.

(** Sample executors: one that answers after [d] microseconds, one that
    raises [RuntimeError(msg)] after [d] microseconds, one that never
    returns. *)
Definition answers (text : string) (d : N) : Z -> str -> behaviour :=
  fun _ _ => Returns (Dict (Some (u text))) d.

Definition fails (msg : string) (d : N) : Z -> str -> behaviour :=
  fun _ _ => Raises (Exception "RuntimeError" (u msg)) d.

Definition hangs : Z -> str -> behaviour := fun _ _ => Hangs.

(** One change to a query that touches only letter case or white space:
    a character replaced by one with the same lower case, a white-space
    character replaced by another, a run of white space made one longer, and
    white space put in front or at the end. *)
Inductive case_or_spacing_edit : str -> str -> Prop :=
| edit_case (a b : str) (c c' : cp) :
    Latin1.lower_cp c = Latin1.lower_cp c' ->
    case_or_spacing_edit (a ++ c :: b) (a ++ c' :: b)
| edit_space (a b : str) (c c' : cp) :
    is_space c = true -> is_space c' = true ->
    case_or_spacing_edit (a ++ c :: b) (a ++ c' :: b)
| edit_run (a b : str) (c c' : cp) :
    is_space c = true -> is_space c' = true ->
    case_or_spacing_edit (a ++ c :: b) (a ++ c :: c' :: b)
| edit_leading (s : str) (c : cp) :
    is_space c = true -> case_or_spacing_edit s (c :: s)
| edit_trailing (s : str) (c : cp) :
    is_space c = true -> case_or_spacing_edit s (s ++ [c]).

(** Queries that can be turned into one another by such changes, made or
    undone in any number. *)
Inductive differ_only_in_case_and_spacing : str -> str -> Prop :=
| differ_same (s : str) : differ_only_in_case_and_spacing s s
| differ_edit (s1 s2 : str) :
    case_or_spacing_edit s1 s2 -> differ_only_in_case_and_spacing s1 s2
| differ_back (s1 s2 : str) :
    differ_only_in_case_and_spacing s1 s2 -> differ_only_in_case_and_spacing s2 s1
| differ_then (s1 s2 s3 : str) :
    differ_only_in_case_and_spacing s1 s2 ->
    differ_only_in_case_and_spacing s2 s3 ->
    differ_only_in_case_and_spacing s1 s3.

(** The literal text an alternative of a pattern starts with: all of it
    when it has no [\s+]. *)
Fixpoint literal_prefix (al : Re.alternative) : str :=
  match al with
  | Re.Chr c :: al' => c :: literal_prefix al'
  | _ => []
  end.

(** The literal openings of all the alternatives of the patterns of a
    table. *)
Definition pattern_literals (table : list (str * list Re.pattern)) : list str :=
  flat_map (fun ip =>
              flat_map (fun p => map literal_prefix (Re.alternatives p)) (snd ip))
           table.

(** The alternative is exactly this word, with no [\s+] in it. *)
Fixpoint alternative_is (al : Re.alternative) (word : str) : bool :=
  match al, word with
  | [], [] => true
  | Re.Chr c :: al', c' :: word' => (c =? c') && alternative_is al' word'
  | _, _ => false
  end.

(** The word is one of the alternatives of the pattern. *)
Definition has_alternative (p : Re.pattern) (word : str) : bool :=
  existsb (fun al => alternative_is al word) (Re.alternatives p).

(** The last character read, after [consumed]. *)
Fixpoint last_from (prev : option cp) (consumed : str) : option cp :=
  match consumed with
  | [] => prev
  | c :: r => last_from (Some c) r
  end.

(** A character of a word: matched by [\w] and not by [\s]. *)
Definition word_char `{UnicodeData} (c : cp) : Prop :=
  is_word c = true /\ is_space c = false.

(** A lower-case hexadecimal digit. *)
Definition is_hex_digit (c : cp) : bool :=
  ((0x30 <=? c) && (c <=? 0x39)) || ((0x61 <=? c) && (c <=? 0x66)).

(** The words that end a session, and the other whole-line commands. *)
Definition quit_words : list str := map u ["quit"; "exit"; "sair"]%string.

(** An event at which [main_loop] leaves its loop: Ctrl-C, or a line that
    is, blanks and letter case apart, one of the quit words. *)
Definition ends_session `{UnicodeData} (ev : stdin_event) : bool :=
  match ev with
  | CtrlC _ => true
  | Line _ text =>
      negb (bool_decide (strip text = []))
      && bool_decide (str_lower (strip text) ∈ quit_words)
  end.

(** A line that [main_loop] hands to [handle_cache_commands]. *)
Definition cache_line `{UnicodeData} (text : str) : Prop :=
  strip text <> [] /\ starts_with (u "cache") (str_lower (strip text)) = true.

(** The process state with the cache emptied. *)
Definition cache_cleared (w : world) : world :=
  with_cache_manager w (CacheManager.clear (cache_manager w)).

(** The import lines [_enhance_python_code] puts before a code: those of
    the libraries the code calls for whose line the code does not hold. *)
Definition new_imports_of (code : str) : list str :=
  flat_map (fun lib =>
              if any_in (fst lib) code && negb (str_in (snd lib) code)
              then [snd lib] else [])
           known_imports.

(** The block of import lines, with the blank line that ends it. *)
Definition imports_block (new_imports : list str) : str :=
  match new_imports with
  | [] => []
  | _ :: _ => str_join [0x0A] new_imports ++ [0x0A; 0x0A]
  end.

(** A point that [validate_chart_data] accepts: a dict with the keys
    ['x'] and ['y']. *)
Definition complete_point (point : PyPoint) : bool :=
  match point with
  | PointDict keys => bool_decide (u "x" ∈ keys) && bool_decide (u "y" ∈ keys)
  | NotADict => false
  end.

(** A text of one line: not empty, and with no line feed in it. *)
Definition one_line (x : str) : bool :=
  match x with
  | [] => false
  | _ :: _ => forallb (fun c => negb (c =? 0x0A)) x
  end.

(** The process state with the entry of one key removed from the cache. *)
Definition without_entry (w : world) (key : str) : world :=
  with_cache_manager w
    {| CacheManager.cache := delete key (CacheManager.cache (cache_manager w));
       CacheManager.ttl_minutes := CacheManager.ttl_minutes (cache_manager w) |}.

(** A text with no white space in it. *)
Definition space_free (k : str) : bool := forallb (fun c => negb (is_space c)) k.

(** The numbers of minutes that [timedelta(minutes=n)] takes: those of at
    most 999999999 days either way; for any other it raises
    [OverflowError]. *)
Definition in_timedelta_range (n : Z) : Prop :=
  (-1439999998560 <= n <= 1439999999999)%Z.

(** The standard output accepts each of the lines. *)
Definition accepts (print : str -> res unit) (lines : list str) : Prop :=
  Forall (fun line => print line = Ok tt) lines.


(** The process state when the executor of a query is called, on a cache
    miss at the state [w] that left the cache manager as [cm]. *)
Definition at_the_call `{UnicodeData} (query : str) (w : world)
  (cm : CacheManager.t Outcome) : world :=
  logged
    (logged
       (armed (logged (logged (with_cache_manager w cm) (Analyzed query))
                      (Activity "system" "query_analyzed")))
       (agent_activity (_route_query query)))
    (Invoked (executor_name (_route_query query)) query).

(** The session after some lines were written, with the process state and
    the unread input given. *)
Definition session_after (s : Console.session) (w : world) (lines : list str)
  (stdin : list stdin_event) : Console.session :=
  {| Console.running := Console.running s; Console.process := w;
     Console.written := Console.written s ++ lines; Console.unread := stdin |}.

(** What a pass at the end of standard input writes: the prompt, and the
    line of [except Exception] for the [EOFError]. *)
Definition end_of_input_lines : list str :=
  [Console.prompt; Console.unexpected_line Console.end_of_file].

(* ===================================================================== *)
(** ** Strings: substring test, stripping, white-space runs               *)
(* ===================================================================== *)

Lemma starts_with_spec (needle haystack : str) :
  starts_with needle haystack = true <-> exists after, haystack = needle ++ after.
Proof.
  revert haystack; induction needle as [|a n IH]; intros haystack; simpl.
  - split; [intros _; eauto | reflexivity].
  - destruct haystack as [|b h].
    + split; [discriminate | intros [after Heq]; discriminate].
    + rewrite andb_true_iff, N.eqb_eq, IH. split.
      * intros [-> [after ->]]; eauto.
      * intros [after Heq]; injection Heq as -> ->; eauto.
Qed.

Lemma str_in_spec (needle haystack : str) :
  str_in needle haystack = true <-> occurs_in needle haystack.
Proof.
  unfold occurs_in. induction haystack as [|b h IH]; simpl.
  - rewrite orb_false_r, starts_with_spec. split.
    + intros [after Heq]; exists [], after; exact Heq.
    + intros [before [after Heq]].
      destruct before; [eauto | discriminate].
  - rewrite orb_true_iff, starts_with_spec, IH. split.
    + intros [[after Heq] | [before [after Heq]]].
      * exists [], after; exact Heq.
      * exists (b :: before), after; simpl; congruence.
    + intros [before [after Heq]]. destruct before as [|b' before]; simpl in Heq.
      * left; eauto.
      * right; injection Heq as -> ->; eauto.
Qed.

Lemma any_in_spec (ws : list str) (text : str) :
  any_in ws text = true <-> exists word, In word ws /\ occurs_in word text.
Proof.
  unfold any_in. rewrite existsb_exists.
  split; intros [word [Hin Hocc]]; exists word; split; auto;
    apply str_in_spec; exact Hocc.
Qed.

Lemma lstrip_app (a b : str) :
  lstrip (a ++ b) = if forallb is_space a then lstrip b else lstrip a ++ b.
Proof.
  induction a as [|c a IH]; simpl; [reflexivity|].
  destruct (is_space c); simpl; [exact IH | reflexivity].
Qed.

Lemma forallb_is_space_rev (s : str) :
  forallb is_space (rev s) = forallb is_space s.
Proof.
  induction s as [|c s IH]; simpl; [reflexivity|].
  rewrite forallb_app, IH; simpl. rewrite andb_true_r. apply andb_comm.
Qed.

Lemma rstrip_cons (c : cp) (r : str) :
  rstrip (c :: r) =
  if forallb is_space r then (if is_space c then [] else [c]) else c :: rstrip r.
Proof.
  unfold rstrip; simpl. rewrite lstrip_app, forallb_is_space_rev.
  destruct (forallb is_space r).
  - simpl. destruct (is_space c); reflexivity.
  - rewrite rev_app_distr. reflexivity.
Qed.

Lemma rstrip_all_space (s : str) : forallb is_space s = true -> rstrip s = [].
Proof.
  induction s as [|c s IH]; [reflexivity|]. simpl. intros Hall.
  apply andb_true_iff in Hall as [Hc Hs].
  rewrite rstrip_cons, Hs, Hc. reflexivity.
Qed.

Lemma words_all_space (s : str) : forallb is_space s = true -> words s = [].
Proof.
  induction s as [|c s IH]; [reflexivity|]. simpl. intros Hall.
  apply andb_true_iff in Hall as [Hc Hs]. rewrite Hc. auto.
Qed.

Lemma words_not_all_space (s : str) : forallb is_space s = false -> words s <> [].
Proof.
  induction s as [|c s IH]; [discriminate|]. simpl.
  destruct (is_space c); simpl; [exact IH | intros _].
  unfold cons_word. destruct s as [|c' s']; [discriminate|].
  destruct (is_space c'); [discriminate|]. destruct (words (c' :: s')); discriminate.
Qed.

Lemma words_lstrip (s : str) : words (lstrip s) = words s.
Proof.
  induction s as [|c s IH]; [reflexivity|]. simpl.
  destruct (is_space c) eqn:Hc; [exact IH|]. simpl. rewrite Hc. reflexivity.
Qed.

Lemma lstrip_head (s : str) :
  lstrip s = [] \/ exists c r, lstrip s = c :: r /\ is_space c = false.
Proof.
  induction s as [|c s IH]; [left; reflexivity|]. simpl.
  destruct (is_space c) eqn:Hc; [exact IH|]. right; eauto.
Qed.

Lemma join_spaces_cons (w : str) (ws : list str) :
  ws <> [] -> join_spaces (w :: ws) = w ++ 0x20 :: join_spaces ws.
Proof. destruct ws; [congruence | reflexivity]. Qed.

(** After right-stripping, rewriting the white-space runs yields the words
    joined by single spaces: always when a run is already open, and from a
    fresh start when the text begins with a word. *)
Lemma sub_spaces_rstrip (s : str) :
  forallb is_space s = false ->
  sub_spaces_from true (rstrip s) = join_spaces (words s)
  /\ (forall c r, s = c :: r -> is_space c = false ->
      sub_spaces_from false (rstrip s) = join_spaces (words s)).
Proof.
  induction s as [|c r IH]; [discriminate|]. intros Hall.
  destruct (is_space c) eqn:Hc.
  - simpl in Hall. rewrite Hc in Hall. simpl in Hall.
    destruct (IH Hall) as [IH1 _]. split.
    + rewrite rstrip_cons, Hall. simpl. rewrite Hc. exact IH1.
    + intros c0 r0 Heq Hc0. injection Heq as <- <-. congruence.
  - assert (Hboth : forall b, sub_spaces_from b (rstrip (c :: r))
                              = join_spaces (words (c :: r))).
    { intros b. rewrite rstrip_cons. simpl words. rewrite Hc.
      destruct (forallb is_space r) eqn:Hr.
      - simpl sub_spaces_from. rewrite Hc. rewrite (words_all_space r Hr).
        unfold cons_word. destruct r as [|c' r']; [reflexivity|].
        simpl in Hr. apply andb_true_iff in Hr as [-> _]. reflexivity.
      - simpl sub_spaces_from. rewrite Hc.
        destruct (IH eq_refl) as [IH1 IH2].
        pose proof (words_not_all_space r Hr) as Hne.
        destruct r as [|c' r']; [discriminate|].
        unfold cons_word. destruct (is_space c') eqn:Hc'.
        + rewrite join_spaces_cons by exact Hne. cbn [app]. f_equal.
          rewrite <- IH1. rewrite rstrip_cons.
          simpl in Hr. rewrite Hc' in Hr. simpl in Hr. rewrite Hr.
          simpl. rewrite Hc'. reflexivity.
        + rewrite (IH2 c' r' eq_refl Hc').
          destruct (words (c' :: r')) as [|w ws]; [congruence|].
          destruct ws; reflexivity. }
    split; [apply Hboth | intros; apply Hboth].
Qed.

(** [re.sub(r'\s+', ' ', s.strip())] is the words of [s] joined by single
    spaces. *)
Lemma sub_spaces_strip (s : str) : sub_spaces (strip s) = join_spaces (words s).
Proof.
  unfold sub_spaces, strip. rewrite <- (words_lstrip s).
  destruct (lstrip_head s) as [-> | [c [r [-> Hc]]]]; [reflexivity|].
  assert (Hall : forallb is_space (c :: r) = false) by (simpl; rewrite Hc; reflexivity).
  destruct (sub_spaces_rstrip (c :: r) Hall) as [_ H2].
  exact (H2 c r eq_refl Hc).
Qed.

Lemma normalize_query_words `{UnicodeData} (query : str) :
  normalize_query query = join_spaces (words (str_lower query)).
Proof. unfold normalize_query. apply sub_spaces_strip. Qed.

(* ===================================================================== *)
(** ** generate_cache_key                                                 *)
(* ===================================================================== *)

(** C8. Whatever the scope, two queries that differ only in letter case or
    in runs of white space (leading, trailing or between words) get the same
    cache key: [generate_cache_key] sees a query only through the words of its
    lower-cased text. *)
Theorem C8_cache_key_ignores_case_and_spacing `{UnicodeData}
  (agent_type q1 q2 : str) :
  same_words_ignoring_case q1 q2 ->
  generate_cache_key agent_type q1 = generate_cache_key agent_type q2.
Proof.
  unfold same_words_ignoring_case, generate_cache_key. intros Hsame.
  rewrite !normalize_query_words, Hsame. reflexivity.
Qed.

(** The scenario of the specification: ["  PIB   São Paulo "] and
    ["pib são paulo"] under the scope ["system"], both keyed
    ["system:67130af0"]. *)
Lemma C8_pib_sao_paulo_same_key :
  same_words_ignoring_case (u "  PIB   São Paulo ") (u "pib são paulo")
  /\ generate_cache_key (u "system") (u "  PIB   São Paulo ")
     = generate_cache_key (u "system") (u "pib são paulo")
  /\ generate_cache_key (u "system") (u "pib são paulo")
     = Ok (u "system:67130af0").
Proof.
  assert (Hsame : same_words_ignoring_case (u "  PIB   São Paulo ")
                                           (u "pib são paulo"))
    by (vm_compute; reflexivity).
  split; [exact Hsame|]. split.
  - apply (C8_cache_key_ignores_case_and_spacing (u "system") _ _ Hsame).
  - vm_compute; reflexivity.
Defined.

Lemma is_space_spec (c : cp) :
  is_space c = true <->
  (0x09 <= c <= 0x0D \/ 0x1C <= c <= 0x20 \/ c = 0x85 \/ c = 0xA0 \/ c = 0x1680
   \/ 0x2000 <= c <= 0x200A \/ c = 0x2028 \/ c = 0x2029 \/ c = 0x202F
   \/ c = 0x205F \/ c = 0x3000).
Proof.
  unfold is_space.
  rewrite !orb_true_iff, !andb_true_iff, !N.leb_le, !N.eqb_eq. tauto.
Qed.

Lemma lower_cp_keeps_spaces (c : cp) :
  is_space (Latin1.lower_cp c) = is_space c.
Proof.
  unfold Latin1.lower_cp. destruct (Latin1.is_upper c) eqn:Hup; [|reflexivity].
  unfold Latin1.is_upper in Hup.
  rewrite !orb_true_iff, !andb_true_iff, !N.leb_le in Hup.
  assert (Hrange : 0x41 <= c <= 0x5A \/ 0xC0 <= c <= 0xDE) by tauto.
  transitivity false; [|symmetry]; apply not_true_iff_false;
    rewrite is_space_spec; lia.
Qed.

Lemma words_head_not_space (c : cp) (r : str) :
  is_space c = false -> words (c :: r) <> [].
Proof.
  intros Hc. apply words_not_all_space. simpl. rewrite Hc. reflexivity.
Qed.

Lemma words_map (f : cp -> cp) (s : str) :
  (forall c, is_space (f c) = is_space c) ->
  words (map f s) = map (map f) (words s).
Proof.
  intros Hf. induction s as [|c r IH]; [reflexivity|].
  cbn [map words]. rewrite Hf. destruct (is_space c); [exact IH|].
  rewrite IH. unfold cons_word. destruct r as [|c' r']; [reflexivity|].
  cbn [map]. rewrite Hf. destruct (is_space c'); [reflexivity|].
  destruct (words (c' :: r')); reflexivity.
Qed.

Lemma words_app_space (a b : str) (c : cp) :
  is_space c = true -> words (a ++ c :: b) = words a ++ words b.
Proof.
  intros Hc. induction a as [|x a IH].
  - cbn [app words]. rewrite Hc. reflexivity.
  - cbn [app words]. destruct (is_space x) eqn:Hx; [exact IH|].
    rewrite IH. unfold cons_word. destruct a as [|y a'].
    + cbn [app words]. rewrite Hc. reflexivity.
    + cbn [app]. destruct (is_space y) eqn:Hy; [reflexivity|].
      pose proof (words_head_not_space y a' Hy) as Hne.
      destruct (words (y :: a')); [congruence | reflexivity].
Qed.

Lemma edit_same_words (q1 q2 : str) :
  case_or_spacing_edit q1 q2 -> same_words_ignoring_case q1 q2.
Proof.
  unfold same_words_ignoring_case. cbn [str_lower latin1]. unfold Latin1.lower.
  intros [a b c c' Hcase | a b c c' Hc Hc' | a b c c' Hc Hc' | s c Hc | s c Hc].
  - rewrite !map_app. cbn [map]. rewrite Hcase. reflexivity.
  - rewrite !(words_map _ _ lower_cp_keeps_spaces), !words_app_space by assumption.
    reflexivity.
  - rewrite !(words_map _ _ lower_cp_keeps_spaces).
    rewrite !words_app_space by assumption. cbn [words]. rewrite Hc'. reflexivity.
  - rewrite !(words_map _ _ lower_cp_keeps_spaces). cbn [words]. rewrite Hc.
    reflexivity.
  - rewrite !(words_map _ _ lower_cp_keeps_spaces).
    rewrite words_app_space by assumption. cbn [words]. rewrite app_nil_r.
    reflexivity.
Qed.

(** Queries that differ only by changes of letter case and of white space
    have the same words once lower-cased, hence the same cache key. *)
Lemma differ_same_words (q1 q2 : str) :
  differ_only_in_case_and_spacing q1 q2 -> same_words_ignoring_case q1 q2.
Proof.
  unfold same_words_ignoring_case. induction 1 as [s | s1 s2 Hedit | | ].
  - reflexivity.
  - apply edit_same_words. exact Hedit.
  - congruence.
  - congruence.
Qed.

Lemma differ_same_cache_key (agent_type q1 q2 : str) :
  differ_only_in_case_and_spacing q1 q2 ->
  generate_cache_key agent_type q1 = generate_cache_key agent_type q2.
Proof.
  intros Hdiff. unfold generate_cache_key.
  rewrite !normalize_query_words.
  rewrite (differ_same_words q1 q2 Hdiff). reflexivity.
Qed.

(* ===================================================================== *)
(** ** CacheManager                                                       *)
(* ===================================================================== *)

(** C6. An entry stored at [t0] is returned by [get] at every instant
    strictly before [t0 + ttl]; from [t0 + ttl] on, [get] answers [None] and
    the manager it leaves behind no longer holds the key. Until such a read
    the entry stays stored: a later [set] of another key does not remove
    it, however old it is. *)
Theorem C6_cache_expiry {V : Type} (cm : CacheManager.t V) (key : str) (v : V)
  (t0 t : Z) :
  let stored := CacheManager.set cm t0 key v in
  let ttl := timedelta_minutes (CacheManager.ttl_minutes cm) in
  ((t < t0 + ttl)%Z -> CacheManager.get stored t key = (Some v, stored))
  /\ ((t0 + ttl <= t)%Z ->
      fst (CacheManager.get stored t key) = None
      /\ CacheManager.cache (snd (CacheManager.get stored t key))
         = delete key (CacheManager.cache stored)
      /\ CacheManager.cache (snd (CacheManager.get stored t key)) !! key = None)
  /\ (forall (key' : str) (v' : V) (t' : Z), key' <> key ->
      CacheManager.cache (CacheManager.set stored t' key' v') !! key
      = Some (v, t0)).
Proof.
  cbv zeta. unfold CacheManager.get, CacheManager.set. cbn [CacheManager.cache
    CacheManager.ttl_minutes]. rewrite lookup_insert_eq.
  split; [|split].
  - intros Hlt. destruct (Z.ltb_spec (t - t0) (timedelta_minutes (CacheManager.ttl_minutes cm)));
      [reflexivity | lia].
  - intros Hge. destruct (Z.ltb_spec (t - t0) (timedelta_minutes (CacheManager.ttl_minutes cm)));
      [lia|]. cbn. split; [reflexivity|]. split; [reflexivity|].
    apply lookup_delete_eq.
  - intros key' v' t' Hne. rewrite lookup_insert_ne by exact Hne.
    apply lookup_insert_eq.
Qed.

(** With the thirty-minute manager of [utils.py]: stored at instant 0, an
    entry is a hit one microsecond before the thirtieth minute and a miss,
    removed by the read, at the thirtieth minute. *)
Lemma C6_thirty_minutes :
  let stored := CacheManager.set (CacheManager.init 30) 0 (u "system:67130af0") 7%nat in
  CacheManager.get stored 1799999999 (u "system:67130af0") = (Some 7%nat, stored)
  /\ fst (CacheManager.get stored 1800000000 (u "system:67130af0")) = None
  /\ CacheManager.cache (snd (CacheManager.get stored 1800000000 (u "system:67130af0")))
       !! u "system:67130af0" = None.
Proof.
  pose proof (C6_cache_expiry (CacheManager.init 30) (u "system:67130af0") 7%nat
                0 1799999999) as [Hhit _].
  pose proof (C6_cache_expiry (CacheManager.init 30) (u "system:67130af0") 7%nat
                0 1800000000) as [_ [Hmiss _]].
  cbv zeta in *. split; [apply Hhit; vm_compute; reflexivity|].
  destruct Hmiss as [Hnone [_ Hgone]]; [vm_compute; discriminate|].
  split; assumption.
Defined.

Lemma get_ttl_minutes {V : Type} (cm : CacheManager.t V) (t : Z) (key : str) :
  CacheManager.ttl_minutes (snd (CacheManager.get cm t key))
  = CacheManager.ttl_minutes cm.
Proof.
  unfold CacheManager.get. destruct (CacheManager.cache cm !! key) as [[v ts]|];
    [destruct (_ <? _)%Z|]; reflexivity.
Qed.

Lemma get_hit_again {V : Type} (cm cm' : CacheManager.t V) (t : Z) (key : str) (v : V) :
  CacheManager.get cm t key = (Some v, cm') ->
  cm' = cm /\ CacheManager.get cm t key = (Some v, cm).
Proof.
  unfold CacheManager.get. destruct (CacheManager.cache cm !! key) as [[v0 ts]|];
    [destruct (_ <? _)%Z|]; intros Heq; try discriminate.
  injection Heq as -> <-. split; reflexivity.
Qed.

Lemma get_after_set {V : Type} (cm : CacheManager.t V) (t : Z) (key : str) (v : V) :
  (0 < CacheManager.ttl_minutes cm)%Z ->
  CacheManager.get (CacheManager.set cm t key v) t key
  = (Some v, CacheManager.set cm t key v).
Proof.
  intros Httl. unfold CacheManager.get, CacheManager.set.
  cbn [CacheManager.cache CacheManager.ttl_minutes]. rewrite lookup_insert_eq.
  unfold timedelta_minutes.
  destruct (Z.ltb_spec (t - t) (CacheManager.ttl_minutes cm * 60 * 1000000));
    [reflexivity | lia].
Qed.

Lemma get_keeps_no_new_entry {V : Type} (cm : CacheManager.t V) (t : Z)
  (key key' : str) (entry : V * Z) :
  CacheManager.cache (snd (CacheManager.get cm t key)) !! key' = Some entry ->
  CacheManager.cache cm !! key' = Some entry.
Proof.
  unfold CacheManager.get. destruct (CacheManager.cache cm !! key) as [[v ts]|];
    [destruct (_ <? _)%Z|]; cbn [snd CacheManager.cache]; auto.
  intros Hlook. apply lookup_delete_Some in Hlook as [_ Hlook]. exact Hlook.
Qed.

(* ===================================================================== *)
(** ** QueryAnalyzer                                                      *)
(* ===================================================================== *)

(** [max(d, key=d.get)] returns the first key whose score is maximal: every
    key before it scores strictly less, every key after it at most as
    much. *)
Lemma max_from_first_maximal (rest : list (str * nat)) (best : str * nat) :
  exists pre v post,
    best :: rest = pre ++ (max_from best rest, v) :: post
    /\ Forall (fun kv => (snd kv < v)%nat) pre
    /\ Forall (fun kv => (snd kv <= v)%nat) post
    /\ (snd best <= v)%nat.
Proof.
  revert best. induction rest as [|kv r IH]; intros best.
  - exists [], (snd best), []. cbn. destruct best; cbn. repeat split; auto.
  - cbn [max_from]. destruct (Nat.ltb_spec (snd best) (snd kv)) as [Hlt | Hge].
    + destruct (IH kv) as (pre & v & post & Heq & Hpre & Hpost & Hv).
      exists (best :: pre), v, post. rewrite Heq. repeat split; auto.
      * constructor; [cbn; lia | exact Hpre].
      * lia.
    + destruct (IH best) as (pre & v & post & Heq & Hpre & Hpost & Hv).
      destruct pre as [|b pre'].
      * cbn [app] in Heq. injection Heq as Hb Hr. subst r.
        assert (Hbv : snd best = v) by (rewrite Hb; reflexivity).
        exists [], v, (kv :: post).
        split; [cbn [app]; rewrite <- Hb; reflexivity|].
        split; [constructor|]. split; [|lia].
        constructor; [lia | exact Hpost].
      * cbn [app] in Heq. injection Heq as Hb Hr. subst b.
        exists (best :: kv :: pre'), v, post.
        split; [cbn [app]; do 2 f_equal; exact Hr|].
        inversion Hpre as [|? ? Hbest Hpre']; subst.
        split; [|split; [exact Hpost | exact Hv]].
        constructor; [exact Hbest|]. constructor; [lia | exact Hpre'].
Qed.

Lemma intent_scores_of_the_QueryAnalyzer `{UnicodeData} (query_lower : str) :
  exists w c r : nat,
    intent_scores_of the_QueryAnalyzer query_lower
    = [(u "weather", w); (u "chart", c); (u "research", r)].
Proof.
  unfold intent_scores_of, the_QueryAnalyzer.
  cbn [INTENT_PATTERNS fold_left fst snd].
  do 3 eexists. cbn [dict_set fst snd].
  rewrite (bool_decide_eq_false_2 (u "weather" = u "chart"))
    by (vm_compute; discriminate).
  cbn [dict_set].
  rewrite (bool_decide_eq_false_2 (u "weather" = u "research"))
    by (vm_compute; discriminate).
  rewrite (bool_decide_eq_false_2 (u "chart" = u "research"))
    by (vm_compute; discriminate).
  cbn [dict_set]. reflexivity.
Qed.

Ltac decide_keys :=
  repeat match goal with
         | |- context [bool_decide (?a = ?b)] =>
             let v := eval vm_compute in (bool_decide (a = b)) in
             change (bool_decide (a = b)) with v
         end.

Ltac conj_split := repeat match goal with |- _ /\ _ => split end.

(** C1, as the code has it. With the table in the order it is written
    (weather, chart, research), [analyze_query] returns the first intent
    that reaches the maximal score: a tie goes to the intent listed first
    among those tied, not to ["research"], and a query matching no pattern
    is classified ["weather"] with confidence 0. The confidence is the
    maximal score over the sum of the scores (over 1 when the sum is 0). *)
Theorem C1_tie_goes_to_first_listed_intent `{UnicodeData} (query : str) :
  exists (w c r : nat) (cl : QueryClassification),
    intent_scores_of the_QueryAnalyzer (str_lower query)
    = [(u "weather", w); (u "chart", c); (u "research", r)]
    /\ analyze_query the_QueryAnalyzer query = Ok cl
    /\ intent cl = (if ((c <=? w) && (r <=? w))%nat then u "weather"
                    else if (r <=? c)%nat then u "chart" else u "research")
    /\ confidence cl
       = (Z.of_nat (Nat.max w (Nat.max c r)) # Pos.of_nat (Nat.max (w + c + r) 1))
    /\ (w = 0%nat -> c = 0%nat -> r = 0%nat ->
        intent cl = u "weather" /\ confidence cl == 0).
Proof.
  destruct (intent_scores_of_the_QueryAnalyzer (str_lower query))
    as (w & c & r & Hscores).
  exists w, c, r. unfold analyze_query. rewrite Hscores.
  cbn [max_by_score max_from fst snd sum_scores fold_left].
  eexists. split; [reflexivity|]. split; [reflexivity|].
  cbn [intent confidence].
  destruct (Nat.ltb_spec w c) as [Hwc | Hwc];
    [destruct (Nat.ltb_spec c r) as [Hcr | Hcr]
    | destruct (Nat.ltb_spec w r) as [Hwr | Hwr]];
    cbn [List.find fst snd]; decide_keys;
    cbn [fmap option_fmap option_map default]; unfold id; cbn [snd].
  - split.
    + destruct (Nat.leb_spec c w); [lia|]. cbn [andb].
      destruct (Nat.leb_spec r c); [lia | reflexivity].
    + split; [do 2 f_equal; lia|]. intros; lia.
  - split.
    + destruct (Nat.leb_spec c w); [lia|]. cbn [andb].
      destruct (Nat.leb_spec r c); [reflexivity | lia].
    + split; [do 2 f_equal; lia|]. intros; lia.
  - split.
    + destruct (Nat.leb_spec c w); [|lia]. destruct (Nat.leb_spec r w); [lia|].
      cbn [andb]. destruct (Nat.leb_spec r c); [lia | reflexivity].
    + split; [do 2 f_equal; lia|]. intros; lia.
  - split.
    + destruct (Nat.leb_spec c w); [|lia]. destruct (Nat.leb_spec r w); [|lia].
      reflexivity.
    + split; [do 2 f_equal; lia|]. intros -> -> ->. split; reflexivity.
Qed.

(** C1 fails as stated. ["xyz abc"] matches no pattern and is classified
    ["weather"]; ["Gráfico do PIB"] scores 1 for chart and 1 for research
    and is classified ["chart"]; and with the same patterns listed in
    another order ["xyz abc"] is classified ["research"]: the order of the
    table decides. *)
Lemma C1_tie_is_not_research :
  (intent_scores_of the_QueryAnalyzer (str_lower (u "xyz abc"))
   = [(u "weather", 0%nat); (u "chart", 0%nat); (u "research", 0%nat)]
   /\ intent_of (analyze_query the_QueryAnalyzer (u "xyz abc")) = Some (u "weather")
   /\ u "weather" <> u "research")
  /\ (intent_scores_of the_QueryAnalyzer (str_lower (u "Gráfico do PIB"))
      = [(u "weather", 0%nat); (u "chart", 1%nat); (u "research", 1%nat)]
      /\ intent_of (analyze_query the_QueryAnalyzer (u "Gráfico do PIB"))
         = Some (u "chart")
      /\ u "chart" <> u "research")
  /\ intent_of (analyze_query research_first (u "xyz abc")) = Some (u "research").
Proof.
  repeat split; try (vm_compute; reflexivity); vm_compute; discriminate.
Qed.

(* ===================================================================== *)
(** ** _route_query                                                       *)
(* ===================================================================== *)

(** C10. [_route_query] answers for every string, with ["weather"],
    ["chart"] or ["research"]. It looks for its keywords as substrings of
    the lower-cased query, weather first, then chart, then research, and
    falls back on ["research"]: a query that mentions a weather word is
    routed to weather whatever else it mentions, and one that mentions a
    chart word and no weather word to chart. *)
Theorem C10_route_query_precedence `{UnicodeData} (query : str) :
  let text := str_lower query in
  (_route_query query = u "weather" \/ _route_query query = u "chart"
   \/ _route_query query = u "research")
  /\ (mentions weather_words text -> _route_query query = u "weather")
  /\ (~ mentions weather_words text -> mentions chart_words text ->
      _route_query query = u "chart")
  /\ (~ mentions weather_words text -> ~ mentions chart_words text ->
      _route_query query = u "research")
  /\ (u "weather" <> u "chart" /\ u "weather" <> u "research"
      /\ u "chart" <> u "research").
Proof.
  cbv zeta. unfold _route_query, mentions.
  fold weather_words chart_words research_words.
  pose proof (any_in_spec weather_words (str_lower query)) as Hw.
  pose proof (any_in_spec chart_words (str_lower query)) as Hc.
  destruct (any_in weather_words (str_lower query)).
  - split; [auto|]. split; [auto|]. split; [|split].
    + intros Hno; exfalso; apply Hno, Hw; reflexivity.
    + intros Hno; exfalso; apply Hno, Hw; reflexivity.
    + repeat split; vm_compute; discriminate.
  - assert (Hnw : ~ (exists word, In word weather_words
                                  /\ occurs_in word (str_lower query)))
      by (intros Hex; apply Hw in Hex; discriminate).
    destruct (any_in chart_words (str_lower query)).
    + split; [auto|]. split; [intros Hex; contradiction|].
      split; [auto|]. split.
      * intros _ Hno; exfalso; apply Hno, Hc; reflexivity.
      * repeat split; vm_compute; discriminate.
    + assert (Hnc : ~ (exists word, In word chart_words
                                    /\ occurs_in word (str_lower query)))
        by (intros Hex; apply Hc in Hex; discriminate).
      assert (Hres : (if any_in research_words (str_lower query)
                      then u "research" else u "research") = u "research")
        by (destruct (any_in research_words (str_lower query)); reflexivity).
      rewrite Hres.
      split; [auto|]. split; [intros Hex; contradiction|].
      split; [intros _ Hex; contradiction|]. split; [auto|].
      repeat split; vm_compute; discriminate.
Qed.

(** ["Gráfico do clima e do PIB"] mentions words of all three lists and is
    routed to weather. *)
Lemma C10_all_three_categories :
  mentions weather_words (str_lower (u "Gráfico do clima e do PIB"))
  /\ mentions chart_words (str_lower (u "Gráfico do clima e do PIB"))
  /\ mentions research_words (str_lower (u "Gráfico do clima e do PIB"))
  /\ _route_query (u "Gráfico do clima e do PIB") = u "weather".
Proof.
  assert (Hw : mentions weather_words (str_lower (u "Gráfico do clima e do PIB")))
    by (apply any_in_spec; vm_compute; reflexivity).
  split; [exact Hw|].
  split; [apply any_in_spec; vm_compute; reflexivity|].
  split; [apply any_in_spec; vm_compute; reflexivity|].
  destruct (C10_route_query_precedence (u "Gráfico do clima e do PIB"))
    as [_ [Hweather _]].
  exact (Hweather Hw).
Defined.

(* ===================================================================== *)
(** ** process_query, step by step                                        *)
(* ===================================================================== *)

#[local] Arguments u : simpl never.
#[local] Arguments seconds : simpl never.

Ltac world_simpl :=
  cbn beta iota delta [alarm clock logged with_alarm with_cache_manager at_instant
                         cache_manager activity result_get_output exc_str fst snd].

Tactic Notation "world_simpl" "in" hyp(H) :=
  cbn beta iota delta [alarm clock logged with_alarm with_cache_manager at_instant
                         cache_manager activity result_get_output exc_str fst snd] in H.

Section DispatcherLemmas.
Context `{UnicodeData}.

Lemma run_agent_eq (self : BrazilianEconomyAgentSystem) (query : str) (w : world) :
  run_agent self query w =
  let route := _route_query query in
  run_agent_outcome query w
    (logged (logged (armed w) (agent_activity route))
            (Invoked (executor_name route) query))
    (executor_of self route (clock w) query).
Proof.
  cbv zeta. unfold run_agent, execute_agent, agent_activity, executor_name, executor_of.
  set (route := _route_query query). clearbody route.
  unfold run_agent_outcome, try_except, bind, signal_alarm, log_agent_activity,
    invoke, bind, record, ret, armed, disarmed, execution_fallback, fallback_value,
    timeout_handler, timeout_text, fallback_text.
  change (AGENT_TIMEOUT + 5 =? 0)%Z with false.
  change (0 =? 0)%Z with true.
  destruct (bool_decide (route = u "research"));
    [|destruct (bool_decide (route = u "chart"));
      [|destruct (bool_decide (route = u "weather"))]].
  all: destruct w as [cm t a evs]; destruct a.
  all: cbn beta iota delta [alarm clock logged with_alarm at_instant cache_manager activity].
  all: match goal with
       | |- context [match ?b with Returns _ _ => _ | Raises _ _ => _ | Hangs => _ end] =>
           destruct b as [v d | e d |]
       end.
  all: cbn beta iota delta [alarm clock logged with_alarm at_instant cache_manager activity].
  all: try reflexivity.
  all: try (destruct e; reflexivity).
  all: match goal with
       | |- context [(?x <=? ?y)%Z] => destruct (x <=? y)%Z
       end.
  all: cbn beta iota delta [alarm clock logged with_alarm at_instant cache_manager activity].
  all: try reflexivity.
  all: try (destruct e; reflexivity).
Qed.

Lemma process_query_eq (self : BrazilianEconomyAgentSystem) (query : str) (w : world) :
  process_query self query w =
  match generate_cache_key (u "system") query with
  | Raise e =>
      Some (Ok (ErrorResult (exc_str e) query 0 (clock w)),
            logged w (Activity "system" "error"))
  | Ok cache_key =>
      match CacheManager.get (cache_manager w) (clock w) cache_key with
      | (Some cached, cm) =>
          Some (Ok cached,
                logged (with_cache_manager w cm) (Activity "system" "cache_hit"))
      | (None, cm) =>
          let w1 := logged (with_cache_manager w cm) (Analyzed query) in
          match query_analyzer self query with
          | Raise e =>
              Some (Ok (ErrorResult (exc_str e) query 0 (clock w)),
                    logged w1 (Activity "system" "error"))
          | Ok analysis =>
              match run_agent self query
                      (logged w1 (Activity "system" "query_analyzed")) with
              | None => None
              | Some (Ok result, w2) =>
                  Some (finalize (clock w) cache_key (_route_query query) query
                                 analysis result w2)
              | Some (Raise e, w2) =>
                  Some (Ok (ErrorResult (exc_str e) query (clock w2 - clock w)
                                        (clock w2)),
                        logged w2 (Activity "system" "error"))
              end
          end
      end
  end.
Proof.
  unfold process_query. fold (run_agent self query).
  unfold bind at 1. unfold now at 1. unfold try_except at 1.
  unfold bind at 1. unfold lift at 1.
  destruct (generate_cache_key (u "system") query) as [cache_key | e].
  - unfold bind at 1. unfold cache_manager_get.
    destruct (CacheManager.get (cache_manager w) (clock w) cache_key)
      as [[cached|] cm].
    + reflexivity.
    + cbv zeta. unfold bind at 1. unfold record at 1.
      unfold bind at 1. unfold lift at 1.
      destruct (query_analyzer self query) as [analysis | e].
      * unfold bind at 1. unfold log_agent_activity at 1, record at 1.
        unfold bind at 1.
        destruct (run_agent self query _) as [[[result | e] w2] |].
        -- unfold finalize, bind, now, lift, cache_manager_set, ret.
           destruct (result_get_output result) as [content | e]; [|reflexivity].
           cbv zeta.
           destruct (clock w2 - clock w <? seconds AGENT_TIMEOUT)%Z; reflexivity.
        -- reflexivity.
        -- reflexivity.
      * cbn beta iota delta [bind now log_agent_activity record ret logged
                               with_cache_manager clock].
        rewrite Z.sub_diag. reflexivity.
  - cbn beta iota delta [bind now log_agent_activity record ret logged clock].
    rewrite Z.sub_diag. reflexivity.
Qed.

End DispatcherLemmas.

Lemma run_agent_outcome_world (query : str) (w0 w1 : world) (b : behaviour)
  (r : res PyValue) (w2 : world) :
  run_agent_outcome query w0 w1 b = Some (r, w2) ->
  (exists v, r = Ok v)
  /\ cache_manager w2 = cache_manager w1
  /\ activity w2 = activity w1
  /\ (clock w1 <= clock w2)%Z.
Proof.
  unfold run_agent_outcome, disarmed, fallback_value.
  destruct w1 as [cm t a evs].
  cbn beta iota delta [alarm clock with_alarm at_instant cache_manager activity].
  intros Hrun.
  destruct a, b; try discriminate;
    repeat match type of Hrun with
           | context [(?x <=? ?y)%Z] => destruct (x <=? y)%Z
           end;
    try match type of Hrun with
        | context [match ?e with TimeoutException _ => _ | Exception _ _ => _ end] =>
            destruct e
        end;
    injection Hrun as <- <-;
    cbn beta iota delta [alarm clock with_alarm at_instant cache_manager activity];
    (split; [eexists; reflexivity|]); repeat split; lia.
Qed.

Lemma run_agent_world `{UnicodeData} (self : BrazilianEconomyAgentSystem)
  (query : str) (w : world) (r : res PyValue) (w2 : world) :
  run_agent self query w = Some (r, w2) ->
  (exists v, r = Ok v)
  /\ cache_manager w2 = cache_manager w
  /\ activity w2 = activity w ++ [agent_activity (_route_query query);
                                  Invoked (executor_name (_route_query query)) query]
  /\ (clock w <= clock w2)%Z.
Proof.
  rewrite run_agent_eq. cbv zeta. intros Hrun.
  apply run_agent_outcome_world in Hrun as (Hok & Hcm & Hact & Hclock).
  split; [exact Hok|]. rewrite Hcm, Hact.
  unfold armed in *. destruct w as [cm t a evs]; destruct a;
    cbn [logged with_alarm cache_manager activity clock alarm] in *;
    rewrite <- app_assoc; auto.
Qed.

Lemma run_agent_with_analyzer `{UnicodeData} (self : BrazilianEconomyAgentSystem)
  (analyzer : str -> res QueryClassification) (query : str) :
  run_agent (with_analyzer self analyzer) query = run_agent self query.
Proof. reflexivity. Qed.

Lemma generate_cache_key_normalized `{UnicodeData} (agent_type q1 q2 : str) :
  normalize_query q1 = normalize_query q2 ->
  generate_cache_key agent_type q1 = generate_cache_key agent_type q2.
Proof. unfold generate_cache_key. intros ->. reflexivity. Qed.

(** Where the executor ends before the alarm is due, [run_agent] ends when
    the executor does. *)
Lemma run_agent_outcome_in_time (query : str) (w0 w1 : world)
  (r : res PyValue) (d : N) :
  clock w1 = clock w0 ->
  alarm w1 = alarm (armed w0) ->
  (alarm w0 <> NoSIGALRM -> (Z.of_N d < seconds (AGENT_TIMEOUT + 5))%Z) ->
  run_agent_outcome query w0 w1 (ends_with r d)
  = let w2 := at_instant w1 (clock w0 + Z.of_N d) in
    match r with
    | Ok v => Some (Ok v, disarmed w2)
    | Raise e => Some (Ok (fallback_value query e), w2)
    end.
Proof.
  intros Hclock Halarm Hd. unfold run_agent_outcome. rewrite Halarm.
  unfold armed. cbv zeta.
  destruct r as [v | e];
    destruct (alarm w0) eqn:Ha; cbn [alarm with_alarm ends_with];
    try (rewrite Ha; reflexivity);
    (destruct (Z.leb_spec (clock w0 + seconds (AGENT_TIMEOUT + 5))
                          (clock w0 + Z.of_N d));
     [assert ((Z.of_N d < seconds (AGENT_TIMEOUT + 5))%Z)
        by (apply Hd; congruence); lia
     | reflexivity]).
Qed.

(* ===================================================================== *)
(** ** process_query: which executor runs                                 *)
(* ===================================================================== *)

Lemma agent_activity_not_invocation (route : str) :
  is_invocation (agent_activity route) = false.
Proof. unfold agent_activity. repeat case_bool_decide; reflexivity. Qed.

Lemma finalize_activity (start_time : Z) (key route query : str)
  (analysis : QueryClassification) (result : PyValue) (w : world) :
  List.filter is_invocation
    (activity (snd (finalize start_time key route query analysis result w)))
  = List.filter is_invocation (activity w).
Proof.
  unfold finalize. destruct (result_get_output result); cbv zeta.
  - destruct (_ <? _)%Z; reflexivity.
  - cbn [snd logged activity]. rewrite List.filter_app. cbn. apply app_nil_r.
Qed.

(** C2, as the code has it. The executor [process_query] invokes is chosen
    by [_route_query] from the text of the query. The classification takes
    no part: whatever the analyzer returns (intent, confidence, entities,
    keywords), the same executor calls are made and the same [agent_used] is
    reported; and on a cache miss the one executor called is that of
    [_route_query(query)]. *)
Theorem C2_executor_chosen_from_query_text `{UnicodeData}
  (self : BrazilianEconomyAgentSystem) (c1 c2 : QueryClassification)
  (query : str) (w : world) :
  let run c := process_query (with_analyzer self (fun _ => Ok c)) query w in
  invocations (run c1) = invocations (run c2)
  /\ agent_used_of (run c1) = agent_used_of (run c2)
  /\ (forall key r w',
      generate_cache_key (u "system") query = Ok key ->
      fst (CacheManager.get (cache_manager w) (clock w) key) = None ->
      run c1 = Some (r, w') ->
      List.filter is_invocation (activity w')
      = List.filter is_invocation (activity w)
          ++ [Invoked (executor_name (_route_query query)) query]
      /\ (forall content agent q a t ts,
          r = Ok (FinalResult content agent q a t ts) ->
          agent = _route_query query)).
Proof.
  cbv beta zeta. rewrite !process_query_eq. cbn [with_analyzer query_analyzer].
  rewrite !run_agent_with_analyzer.
  destruct (generate_cache_key (u "system") query) as [key | e].
  2: { split; [reflexivity|]. split; [reflexivity|]. intros; discriminate. }
  destruct (CacheManager.get (cache_manager w) (clock w) key) as [[cached|] cm]
    eqn:Hget.
  { split; [reflexivity|]. split; [reflexivity|].
    intros key' r w' [= <-] Hmiss _. rewrite Hget in Hmiss. discriminate. }
  cbv zeta.
  destruct (run_agent self query
              (logged (logged (with_cache_manager w cm) (Analyzed query))
                      (Activity "system" "query_analyzed")))
    as [[[result | e] w2] |] eqn:Hrun.
  - split; [|split].
    + unfold invocations.
      destruct (finalize (clock w) key (_route_query query) query c1 result w2)
        as [r1 w1'] eqn:Hf1.
      destruct (finalize (clock w) key (_route_query query) query c2 result w2)
        as [r2 w2'] eqn:Hf2.
      f_equal.
      change w1' with (snd (r1, w1')). change w2' with (snd (r2, w2')).
      rewrite <- Hf1, <- Hf2, !finalize_activity. reflexivity.
    + unfold finalize. destruct (result_get_output result); reflexivity.
    + intros key' r w' _ _ Hret. injection Hret as Hfin.
      apply run_agent_world in Hrun as (_ & _ & Hact & _).
      split.
      * replace w' with (snd (finalize (clock w) key (_route_query query) query
                                       c1 result w2)) by (rewrite Hfin; reflexivity).
        rewrite finalize_activity, Hact. cbn [logged activity with_cache_manager].
        rewrite !List.filter_app. cbn [List.filter is_invocation].
        rewrite agent_activity_not_invocation. cbn [app]. rewrite !app_nil_r.
        reflexivity.
      * intros content agent q a t ts ->. unfold finalize in Hfin.
        destruct (result_get_output result); [|discriminate].
        cbv zeta in Hfin. injection Hfin as _ <- _ _ _ _ _. reflexivity.
  - apply run_agent_world in Hrun as ([v Hv] & _). discriminate.
  - split; [reflexivity|]. split; [reflexivity|]. intros; discriminate.
Qed.

(** C2 fails as stated. ["temperatura"] and ["quente"] are both
    classified ["weather"], each with that intent alone scoring, yet the
    first is handled by the weather executor and the second by the research
    executor. *)
Lemma C2_same_intent_different_executor :
  let self := the_system (answers "r" 1000000) (answers "c" 1000000)
                         (answers "w" 1000000) in
  intent_of (analyze_query the_QueryAnalyzer (u "temperatura")) = Some (u "weather")
  /\ intent_of (analyze_query the_QueryAnalyzer (u "quente")) = Some (u "weather")
  /\ agent_used_of (process_query self (u "temperatura") (fresh_world Disarmed 0))
     = Some (u "weather")
  /\ agent_used_of (process_query self (u "quente") (fresh_world Disarmed 0))
     = Some (u "research")
  /\ invocations (process_query self (u "temperatura") (fresh_world Disarmed 0))
     = Some [Invoked "weather_executor" (u "temperatura")]
  /\ invocations (process_query self (u "quente") (fresh_world Disarmed 0))
     = Some [Invoked "research_executor" (u "quente")]
  /\ u "weather" <> u "research".
Proof.
  cbv zeta. repeat split; try (vm_compute; reflexivity). vm_compute; discriminate.
Qed.

(** ["plot"] on a fresh process: a cache miss, answered by the chart
    executor, the classification (["weather"], by the all-zero tie)
    notwithstanding. *)
Lemma C2_plot_goes_to_chart :
  let self := the_system (answers "r" 1000000) (answers "c" 1000000)
                         (answers "w" 1000000) in
  let weather := {| intent := u "weather"; confidence := 0 # 1;
                    entities := []; keywords := [] |} in
  analyze_query the_QueryAnalyzer (u "plot") = Ok weather
  /\ exists content agent q a t ts w',
       process_query (with_analyzer self (fun _ => Ok weather)) (u "plot")
                     (fresh_world Disarmed 0)
       = Some (Ok (FinalResult content agent q a t ts), w')
       /\ agent = u "chart"
       /\ List.filter is_invocation (activity w')
          = [Invoked "chart_executor" (u "plot")].
Proof.
  cbv zeta. split; [vm_compute; reflexivity|].
  assert (Hrun : exists content agent q a t ts w',
             process_query
               (with_analyzer (the_system (answers "r" 1000000) (answers "c" 1000000)
                                          (answers "w" 1000000))
                              (fun _ => Ok {| intent := u "weather"; confidence := 0 # 1;
                                              entities := []; keywords := [] |}))
               (u "plot") (fresh_world Disarmed 0)
             = Some (Ok (FinalResult content agent q a t ts), w'))
    by (do 7 eexists; vm_compute; reflexivity).
  destruct Hrun as (content & agent & q & a & t & ts & w' & Hrun).
  destruct (C2_executor_chosen_from_query_text
              (the_system (answers "r" 1000000) (answers "c" 1000000)
                          (answers "w" 1000000))
              {| intent := u "weather"; confidence := 0 # 1;
                 entities := []; keywords := [] |}
              {| intent := u "weather"; confidence := 0 # 1;
                 entities := []; keywords := [] |}
              (u "plot") (fresh_world Disarmed 0)) as [_ [_ Hmiss]].
  cbv zeta in Hmiss.
  destruct (Hmiss (u "system:32fa6e1b") _ _ ltac:(vm_compute; reflexivity)
                  ltac:(vm_compute; reflexivity) Hrun) as [Hinv Hagent].
  exists content, agent, q, a, t, ts, w'. split; [exact Hrun|]. split.
  - rewrite (Hagent _ _ _ _ _ _ eq_refl). vm_compute. reflexivity.
  - rewrite Hinv. vm_compute. reflexivity.
Defined.

(* ===================================================================== *)
(** ** process_query: an executor that raises                             *)
(* ===================================================================== *)




(* ===================================================================== *)
(** ** process_query: what reaches the cache                              *)
(* ===================================================================== *)

(** C4 on a failing run. The research executor raises one second into the
    call; the fallback dictionary is stored in the cache, and the same query
    asked again right away is answered with it, although the executor would
    now answer. *)
Lemma C4_failed_run_is_cached :
  exists o w' w'',
    process_query (the_system (fails "boom" 1000000) hangs hangs)
                  (u "PIB do Brasil") (fresh_world Disarmed 0)
    = Some (Ok o, w')
    /\ outcome_content o
       = Some (u "Não foi possível processar completamente a consulta 'PIB do Brasil'. Erro: boom...")
    /\ outcome_processing_time o = seconds 1
    /\ cached_at w' (u "system:23e048b3") = Some (o, seconds 1)
    /\ process_query (the_system (answers "R$ 10,9 trilhões" 1000000) hangs hangs)
                     (u "pib do brasil") w'
       = Some (Ok o, w'')
    /\ invocations (Some (Ok o, w''))
       = Some [Invoked "research_executor" (u "PIB do Brasil")].
Proof.
  eexists. eexists. eexists. split; [vm_compute; reflexivity|].
  conj_split; vm_compute; reflexivity.
Qed.

(** The part of C4 that holds on a run cut short by the alarm: with
    SIGALRM, an executor that never returns gives the timeout text after 35
    seconds, and nothing is stored. *)
Lemma timed_out_run_is_not_cached :
  exists o w',
    process_query (the_system hangs hangs hangs) (u "PIB do Brasil")
                  (fresh_world Disarmed 0)
    = Some (Ok o, w')
    /\ outcome_content o
       = Some (u "Consulta sobre 'PIB do Brasil' teve timeout. Tente uma pergunta mais específica ou simples.")
    /\ outcome_processing_time o = seconds 35
    /\ cached_at w' (u "system:23e048b3") = None.
Proof.
  eexists. eexists. split; [vm_compute; reflexivity|].
  conj_split; vm_compute; reflexivity.
Qed.

(** What does hold of C4: the only entry a call of [process_query] can add
    to the cache is the dictionary it returns, and then that dictionary has
    [success] true and was produced in less than [AGENT_TIMEOUT] seconds;
    every other entry was there before the call. *)
Lemma process_query_caches_only_quick_results `{UnicodeData}
  (self : BrazilianEconomyAgentSystem) (query : str) (w w' : world)
  (r : res Outcome) (key' : str) (o' : Outcome) (ts : Z) :
  process_query self query w = Some (r, w') ->
  cached_at w' key' = Some (o', ts) ->
  cached_at w key' = Some (o', ts)
  \/ (r = Ok o' /\ success o' = true
      /\ (outcome_processing_time o' < seconds AGENT_TIMEOUT)%Z
      /\ ts = clock w').
Proof.
  unfold cached_at. rewrite process_query_eq. intros Hrun Hentry.
  destruct (generate_cache_key (u "system") query) as [key | e].
  2: { injection Hrun as _ <-. left. exact Hentry. }
  pose proof (get_keeps_no_new_entry (cache_manager w) (clock w) key key' (o', ts))
    as Hold.
  destruct (CacheManager.get (cache_manager w) (clock w) key) as [[cached|] cm].
  { injection Hrun as _ <-. left. apply Hold. exact Hentry. }
  cbv zeta in Hrun. cbn [snd] in Hold.
  destruct (query_analyzer self query) as [analysis | e].
  2: { injection Hrun as _ <-. left. apply Hold. exact Hentry. }
  destruct (run_agent self query _) as [[[result | e] w2] |] eqn:Hagent;
    [|apply run_agent_world in Hagent as ([v Hv] & _); discriminate
     |discriminate].
  apply run_agent_world in Hagent as (_ & Hcm & _ & _).
  cbn [logged with_cache_manager cache_manager] in Hcm.
  unfold finalize in Hrun. destruct (result_get_output result) as [content | e].
  - cbv zeta in Hrun. injection Hrun as <- <-.
    destruct (Z.ltb_spec (clock w2 - clock w) (seconds AGENT_TIMEOUT)).
    + cbn [with_cache_manager cache_manager CacheManager.set CacheManager.cache clock]
        in Hentry |- *.
      destruct (decide (key = key')) as [<- | Hne].
      * rewrite lookup_insert_eq in Hentry. injection Hentry as <- <-.
        right. repeat split; auto.
      * rewrite lookup_insert_ne in Hentry by exact Hne.
        left. apply Hold. rewrite <- Hcm. exact Hentry.
    + left. apply Hold. rewrite <- Hcm. exact Hentry.
  - injection Hrun as _ <-. left. apply Hold. rewrite <- Hcm. exact Hentry.
Qed.

(* ===================================================================== *)
(** ** process_query: the deadline                                        *)
(* ===================================================================== *)

(** C5 on a platform whose [signal] has no SIGALRM. No alarm is armed:
    with an executor that never returns [process_query] never returns, and
    with one that answers after 60 seconds it returns after 60 seconds, with
    that late answer as its content. *)
Lemma C5_no_deadline_without_SIGALRM :
  process_query (the_system hangs hangs hangs) (u "PIB do Brasil")
                (fresh_world NoSIGALRM 0) = None
  /\ exists o w',
       process_query (the_system (answers "R$ 10,9 trilhões" 60000000) hangs hangs)
                     (u "PIB do Brasil") (fresh_world NoSIGALRM 0)
       = Some (Ok o, w')
       /\ outcome_content o = Some (u "R$ 10,9 trilhões")
       /\ outcome_processing_time o = seconds 60
       /\ clock w' = seconds 60
       /\ (seconds (AGENT_TIMEOUT + 5) < seconds 60)%Z.
Proof.
  split; [vm_compute; reflexivity|].
  eexists. eexists. split; [vm_compute; reflexivity|].
  conj_split; vm_compute; reflexivity.
Qed.

(* ===================================================================== *)
(** ** process_query: the cache short-circuit                             *)
(* ===================================================================== *)

(** C7. After a call that ended with a [success] dictionary produced in
    less than [AGENT_TIMEOUT] seconds, a call made right away (the clock has
    not moved) for a query with the same normalized text returns that very
    dictionary, so the same [content] and [agent_used]; all it adds to the
    activity is the ["cache_hit"] record: the analyzer is not consulted and
    no executor is invoked, and the cache is left as it was. *)
Theorem C7_repeated_query_served_from_cache `{UnicodeData}
  (self : BrazilianEconomyAgentSystem) (q1 q2 : str) (w w1 : world) (o1 : Outcome) :
  process_query self q1 w = Some (Ok o1, w1) ->
  success o1 = true ->
  (outcome_processing_time o1 < seconds AGENT_TIMEOUT)%Z ->
  (0 < CacheManager.ttl_minutes (cache_manager w))%Z ->
  normalize_query q1 = normalize_query q2 ->
  exists w2,
    process_query self q2 w1 = Some (Ok o1, w2)
    /\ activity w2 = activity w1 ++ [Activity "system" "cache_hit"]
    /\ List.filter is_analysis (activity w2) = List.filter is_analysis (activity w1)
    /\ List.filter is_invocation (activity w2) = List.filter is_invocation (activity w1)
    /\ cache_manager w2 = cache_manager w1.
Proof.
  intros Hrun Hsuccess Htime Httl Hnorm.
  assert (Hend : forall w' : world,
             activity w' = activity w1 ++ [Activity "system" "cache_hit"] ->
             List.filter is_analysis (activity w') = List.filter is_analysis (activity w1)
             /\ List.filter is_invocation (activity w')
                = List.filter is_invocation (activity w1)).
  { intros w' ->. rewrite !List.filter_app. cbn. rewrite !app_nil_r. auto. }
  assert (Hhit : forall key cm,
             generate_cache_key (u "system") q1 = Ok key ->
             CacheManager.get (cache_manager w1) (clock w1) key = (Some o1, cm) ->
             exists w2,
               process_query self q2 w1 = Some (Ok o1, w2)
               /\ activity w2 = activity w1 ++ [Activity "system" "cache_hit"]
               /\ List.filter is_analysis (activity w2)
                  = List.filter is_analysis (activity w1)
               /\ List.filter is_invocation (activity w2)
                  = List.filter is_invocation (activity w1)
               /\ cache_manager w2 = cache_manager w1).
  { intros key cm Hkey Hget. apply get_hit_again in Hget as [-> Hget].
    rewrite process_query_eq.
    rewrite <- (generate_cache_key_normalized (u "system") q1 q2 Hnorm), Hkey, Hget.
    eexists. split; [reflexivity|]. split; [reflexivity|].
    split; [|split; [|reflexivity]]; apply Hend; reflexivity. }
  rewrite process_query_eq in Hrun.
  destruct (generate_cache_key (u "system") q1) as [key | e] eqn:Hkey.
  2: { injection Hrun as <- _. discriminate. }
  destruct (CacheManager.get (cache_manager w) (clock w) key) as [[cached|] cm]
    eqn:Hget.
  - injection Hrun as -> <-. apply get_hit_again in Hget as [-> Hget].
    eapply (Hhit key); [reflexivity|].
    destruct w; exact Hget.
  - cbv zeta in Hrun.
    destruct (query_analyzer self q1) as [analysis | e].
    2: { injection Hrun as <- _. discriminate. }
    destruct (run_agent self q1 _) as [[[result | e] w2] |] eqn:Hagent.
    3: discriminate.
    2: { injection Hrun as <- _. discriminate. }
    apply run_agent_world in Hagent as (_ & Hcm & _ & _).
    unfold finalize in Hrun. destruct (result_get_output result) as [content | e].
    2: { injection Hrun as <- _. discriminate. }
    cbv zeta in Hrun. injection Hrun as <- <-.
    cbn [outcome_processing_time] in Htime.
    destruct (Z.ltb_spec (clock w2 - clock w) (seconds AGENT_TIMEOUT)); [|lia].
    eapply (Hhit key); [reflexivity|]. cbn [with_cache_manager cache_manager clock].
    apply get_after_set. rewrite Hcm. cbn [logged with_cache_manager cache_manager].
    pose proof (get_ttl_minutes (cache_manager w) (clock w) key) as Hsame.
    rewrite Hget in Hsame. cbn [snd] in Hsame. rewrite Hsame. exact Httl.
Qed.

(** ["  PIB   São Paulo "] answered in one second by the research executor,
    then ["pib são paulo"] right away: the second call returns the first
    dictionary and adds only the ["cache_hit"] record. *)
Lemma C7_pib_sao_paulo_twice :
  let self := the_system (answers "R$ 10,9 trilhões" 1000000) hangs hangs in
  exists o1 w1 w2,
    process_query self (u "  PIB   São Paulo ") (fresh_world Disarmed 0)
    = Some (Ok o1, w1)
    /\ outcome_content o1 = Some (u "R$ 10,9 trilhões")
    /\ process_query self (u "pib são paulo") w1 = Some (Ok o1, w2)
    /\ activity w2 = activity w1 ++ [Activity "system" "cache_hit"].
Proof.
  cbv zeta.
  assert (Hfirst : exists o1 w1,
             process_query (the_system (answers "R$ 10,9 trilhões" 1000000) hangs hangs)
                           (u "  PIB   São Paulo ") (fresh_world Disarmed 0)
             = Some (Ok o1, w1)
             /\ outcome_content o1 = Some (u "R$ 10,9 trilhões")
             /\ success o1 = true
             /\ (outcome_processing_time o1 < seconds AGENT_TIMEOUT)%Z).
  { eexists. eexists. split; [vm_compute; reflexivity|].
    split; [vm_compute; reflexivity|]. split; vm_compute; reflexivity. }
  destruct Hfirst as (o1 & w1 & Hrun & Hcontent & Hsuccess & Htime).
  destruct (C7_repeated_query_served_from_cache _ (u "  PIB   São Paulo ")
              (u "pib são paulo") _ _ _ Hrun Hsuccess Htime)
    as (w2 & Hsecond & Hactivity & _).
  - vm_compute; reflexivity.
  - vm_compute; reflexivity.
  - exists o1, w1, w2. auto.
Defined.

(* ===================================================================== *)
(** ** CacheManager: writes, reads and the number of entries             *)
(* ===================================================================== *)

(** X1. Writing a key again replaces the value and restarts its life: after
    two writes the entry is served exactly while less than the ttl has passed
    since the second one, however long ago the first was. *)
Theorem X1_rewrite_restarts_lifetime {V : Type} (cm : CacheManager.t V)
  (key : str) (v1 v2 : V) (t1 t2 t : Z) :
  let twice := CacheManager.set (CacheManager.set cm t1 key v1) t2 key v2 in
  twice = CacheManager.set cm t2 key v2
  /\ fst (CacheManager.get twice t key)
     = if (t - t2 <? timedelta_minutes (CacheManager.ttl_minutes cm))%Z
       then Some v2 else None.
Proof.
  cbv zeta. unfold CacheManager.get, CacheManager.set.
  cbn [CacheManager.cache CacheManager.ttl_minutes].
  rewrite insert_insert_eq, lookup_insert_eq. split; [reflexivity|].
  destruct (_ <? _)%Z; reflexivity.
Qed.

(** X2. A read touches no other key, never adds an entry, and changes the
    manager only by removing the key it found expired: the number of entries
    then drops by one; entries that have expired but were not read are still
    counted. *)
Theorem X2_get_only_evicts_its_own_key {V : Type} (cm : CacheManager.t V)
  (key : str) (t : Z) :
  let after := snd (CacheManager.get cm t key) in
  (forall key', key' <> key ->
     CacheManager.cache after !! key' = CacheManager.cache cm !! key')
  /\ (forall v, fst (CacheManager.get cm t key) = Some v -> after = cm)
  /\ (CacheManager.cache cm !! key = None -> after = cm)
  /\ (forall v t0, CacheManager.cache cm !! key = Some (v, t0) ->
      (t0 + timedelta_minutes (CacheManager.ttl_minutes cm) <= t)%Z ->
      size (CacheManager.cache cm) = S (size (CacheManager.cache after)))
  /\ (size (CacheManager.cache after) <= size (CacheManager.cache cm))%nat.
Proof.
  cbv zeta. unfold CacheManager.get.
  destruct (CacheManager.cache cm !! key) as [[v0 ts]|] eqn:Hlook.
  - destruct (Z.ltb_spec (t - ts) (timedelta_minutes (CacheManager.ttl_minutes cm)))
      as [Hlt | Hge]; cbn [fst snd CacheManager.cache].
    + split; [reflexivity|]. split; [reflexivity|]. split; [discriminate|].
      split; [|lia]. intros v t0 [= <- <-] Hexp. lia.
    + split; [intros key' Hne; apply lookup_delete_ne; congruence|].
      split; [discriminate|]. split; [discriminate|].
      pose proof (map_size_delete key (CacheManager.cache cm)) as Hsize.
      rewrite Hlook in Hsize.
      assert (Hpos : size (CacheManager.cache cm) <> 0%nat).
      { intros Hzero. apply map_size_empty_inv in Hzero. rewrite Hzero in Hlook.
        rewrite lookup_empty in Hlook. discriminate. }
      split; [intros; lia | lia].
  - cbn [fst snd]. split; [reflexivity|]. split; [reflexivity|].
    split; [reflexivity|]. split; [discriminate | lia].
Qed.

(** X3. A manager built with a ttl of zero minutes or less never serves
    what it stores: read at the instant of the write or later, the entry is a
    miss. The ttl is one that [timedelta(minutes=...)] takes; below that
    range [get] raises [OverflowError] instead. *)
Theorem X3_no_ttl_no_hit {V : Type} (cm : CacheManager.t V) (key : str) (v : V)
  (t0 t : Z) :
  in_timedelta_range (CacheManager.ttl_minutes cm) ->
  (CacheManager.ttl_minutes cm <= 0)%Z ->
  (t0 <= t)%Z ->
  fst (CacheManager.get (CacheManager.set cm t0 key v) t key) = None.
Proof.
  intros _ Httl Hlater. unfold CacheManager.get, CacheManager.set.
  cbn [CacheManager.cache CacheManager.ttl_minutes]. rewrite lookup_insert_eq.
  unfold timedelta_minutes.
  destruct (Z.ltb_spec (t - t0) (CacheManager.ttl_minutes cm * 60 * 1000000));
    [lia | reflexivity].
Qed.

Lemma X3_zero_minutes :
  fst (CacheManager.get (CacheManager.set (CacheManager.init 0) 5 (u "k") 7%nat)
                        5 (u "k")) = None.
Proof.
  apply X3_no_ttl_no_hit.
  - vm_compute. split; discriminate.
  - vm_compute; discriminate.
  - vm_compute; discriminate.
Defined.

(* ===================================================================== *)
(** ** process_query: the alarm, the deadline and the cache               *)
(* ===================================================================== *)

Lemma get_miss_key_absent {V : Type} (cm : CacheManager.t V) (t : Z) (key : str) :
  fst (CacheManager.get cm t key) = None ->
  CacheManager.cache (snd (CacheManager.get cm t key)) !! key = None.
Proof.
  unfold CacheManager.get. destruct (CacheManager.cache cm !! key) as [[v ts]|] eqn:Hlook;
    [destruct (_ <? _)%Z|]; cbn [fst snd CacheManager.cache]; try discriminate; intros _.
  - apply lookup_delete_eq.
  - exact Hlook.
Qed.

(** On a cache miss with the analysis in hand and an executor that ends
    before the alarm is due, the call is the inner [try] followed by the
    final steps. *)
Lemma process_query_in_time `{UnicodeData} (self : BrazilianEconomyAgentSystem)
  (query : str) (w : world) (key : str) (analysis : QueryClassification)
  (r : res PyValue) (d : N) :
  generate_cache_key (u "system") query = Ok key ->
  fst (CacheManager.get (cache_manager w) (clock w) key) = None ->
  query_analyzer self query = Ok analysis ->
  executor_of self (_route_query query) (clock w) query = ends_with r d ->
  (alarm w <> NoSIGALRM -> (Z.of_N d < seconds (AGENT_TIMEOUT + 5))%Z) ->
  process_query self query w
  = let w1 := logged (logged (with_cache_manager w
                                (snd (CacheManager.get (cache_manager w) (clock w) key)))
                             (Analyzed query))
                     (Activity "system" "query_analyzed") in
    let w2 := at_instant
                (logged (logged (armed w1) (agent_activity (_route_query query)))
                        (Invoked (executor_name (_route_query query)) query))
                (clock w + Z.of_N d) in
    Some (match r with
          | Ok v => finalize (clock w) key (_route_query query) query analysis v
                             (disarmed w2)
          | Raise e => finalize (clock w) key (_route_query query) query analysis
                                (fallback_value query e) w2
          end).
Proof.
  intros Hkey Hmiss Han Hex Hd. rewrite process_query_eq, Hkey.
  destruct (CacheManager.get (cache_manager w) (clock w) key) as [found cm].
  cbn [fst] in Hmiss. subst found. cbv zeta. rewrite Han, run_agent_eq. cbv zeta.
  world_simpl. rewrite Hex.
  destruct w as [cm0 t a evs]. world_simpl in Hd. world_simpl.
  rewrite run_agent_outcome_in_time;
    [| unfold armed; destruct a; reflexivity
     | unfold armed; destruct a; reflexivity
     | exact Hd].
  cbv zeta. world_simpl. destruct r; reflexivity.
Qed.

(** X4. With SIGALRM, when the executor raises before the alarm is due the
    call returns with the alarm still armed: [signal.alarm(0)] is reached
    only when the executor returns. The alarm stays due 35 seconds after the
    call began, which is after the call has ended. *)
Theorem X4_executor_error_leaves_alarm_armed `{UnicodeData}
  (self : BrazilianEconomyAgentSystem) (query : str) (w : world) (key : str)
  (analysis : QueryClassification) (r : res PyValue) (d : N) :
  generate_cache_key (u "system") query = Ok key ->
  fst (CacheManager.get (cache_manager w) (clock w) key) = None ->
  query_analyzer self query = Ok analysis ->
  executor_of self (_route_query query) (clock w) query = ends_with r d ->
  alarm w <> NoSIGALRM ->
  (Z.of_N d < seconds (AGENT_TIMEOUT + 5))%Z ->
  exists o w',
    process_query self query w = Some (Ok o, w')
    /\ clock w' = (clock w + Z.of_N d)%Z
    /\ alarm w' = match r with
                  | Ok _ => Disarmed
                  | Raise _ => Armed (clock w + seconds (AGENT_TIMEOUT + 5))%Z
                  end
    /\ (clock w' < clock w + seconds (AGENT_TIMEOUT + 5))%Z.
Proof.
  intros Hkey Hmiss Han Hex Hsig Hd.
  rewrite (process_query_in_time self query w key analysis r d Hkey Hmiss Han Hex
             (fun _ => Hd)).
  cbv zeta. unfold finalize, armed, disarmed.
  destruct w as [cm0 t a evs]. world_simpl in Hsig. world_simpl.
  assert (Hmax : Z.max t (t + Z.of_N d) = (t + Z.of_N d)%Z) by lia.
  destruct a; [congruence| |]; world_simpl;
    (destruct r as [v | e];
     [ destruct (result_get_output v)
     | destruct (result_get_output (fallback_value query e)) ]);
    cbv zeta; world_simpl;
    try match goal with |- context [(?x <? ?y)%Z] => destruct (x <? y)%Z end;
    eexists; eexists; (split; [reflexivity|]); world_simpl; rewrite Hmax;
    (split; [reflexivity|]); (split; [reflexivity | lia]).
Qed.

Lemma X4_alarm_after_boom :
  exists o w',
    process_query (the_system (fails "boom" 1000000) hangs hangs)
                  (u "PIB do Brasil") (fresh_world Disarmed 0)
    = Some (Ok o, w')
    /\ clock w' = (clock (fresh_world Disarmed 0) + Z.of_N 1000000)%Z
    /\ alarm w' = Armed (clock (fresh_world Disarmed 0) + seconds (AGENT_TIMEOUT + 5))%Z
    /\ (clock w' < clock (fresh_world Disarmed 0) + seconds (AGENT_TIMEOUT + 5))%Z.
Proof.
  refine (X4_executor_error_leaves_alarm_armed
            (the_system (fails "boom" 1000000) hangs hangs)
            (u "PIB do Brasil") (fresh_world Disarmed 0)
            (u "system:23e048b3")
            {| intent := u "research"; confidence := 1 # 1;
               entities := []; keywords := [u "pib"] |}
            (Raise (Exception "RuntimeError" (u "boom"))) 1000000 _ _ _ _ _ _);
    vm_compute; (reflexivity || discriminate).
Defined.

(** X5. On a cache miss, an executor that hands back a dict before the
    alarm is due gives a [success] dictionary with the dict's ["output"] (or
    the stock text when the key is missing) as content and the executor's
    duration as processing time; it is stored in the cache exactly when that
    duration is under [AGENT_TIMEOUT] seconds, so an answer that took 30
    seconds or more is returned but not remembered. *)
Theorem X5_answer_cached_iff_under_timeout `{UnicodeData}
  (self : BrazilianEconomyAgentSystem) (query : str) (w : world) (key : str)
  (analysis : QueryClassification) (output : option str) (d : N) :
  generate_cache_key (u "system") query = Ok key ->
  fst (CacheManager.get (cache_manager w) (clock w) key) = None ->
  query_analyzer self query = Ok analysis ->
  executor_of self (_route_query query) (clock w) query = Returns (Dict output) d ->
  (alarm w <> NoSIGALRM -> (Z.of_N d < seconds (AGENT_TIMEOUT + 5))%Z) ->
  let o := FinalResult (default (u "Resposta não disponível") output)
                       (_route_query query) query analysis
                       (Z.of_N d) (clock w + Z.of_N d) in
  exists w',
    process_query self query w = Some (Ok o, w')
    /\ cached_at w' key
       = if (Z.of_N d <? seconds AGENT_TIMEOUT)%Z
         then Some (o, (clock w + Z.of_N d)%Z) else None.
Proof.
  intros Hkey Hmiss Han Hex Hd. cbv zeta.
  rewrite (process_query_in_time self query w key analysis (Ok (Dict output)) d
             Hkey Hmiss Han Hex Hd).
  pose proof (get_miss_key_absent _ _ _ Hmiss) as Habsent.
  cbv zeta. unfold finalize, armed, disarmed, cached_at.
  destruct w as [cm0 t a evs]. world_simpl. world_simpl in Habsent.
  assert (Hmax : Z.max t (t + Z.of_N d) = (t + Z.of_N d)%Z) by lia.
  assert (Hsub : (t + Z.of_N d - t)%Z = Z.of_N d) by lia.
  destruct a, output; world_simpl; cbv zeta; world_simpl;
    rewrite Hmax, Hsub; cbn [default];
    (destruct (Z.of_N d <? seconds AGENT_TIMEOUT)%Z;
     eexists; (split; [reflexivity|]);
     cbn [with_cache_manager cache_manager CacheManager.set CacheManager.cache
          with_alarm at_instant logged clock];
     [apply lookup_insert_eq | exact Habsent]).
Qed.

(** An answer that takes 32 seconds is returned and not stored. *)
Lemma X5_thirty_two_seconds :
  let o := FinalResult (default (u "Resposta não disponível")
                                (Some (u "R$ 10,9 trilhões")))
                       (_route_query (u "PIB do Brasil")) (u "PIB do Brasil")
                       {| intent := u "research"; confidence := 1 # 1;
                          entities := []; keywords := [u "pib"] |}
                       (Z.of_N 32000000)
                       (clock (fresh_world Disarmed 0) + Z.of_N 32000000) in
  exists w',
    process_query (the_system (answers "R$ 10,9 trilhões" 32000000) hangs hangs)
                  (u "PIB do Brasil") (fresh_world Disarmed 0)
    = Some (Ok o, w')
    /\ cached_at w' (u "system:23e048b3")
       = if (Z.of_N 32000000 <? seconds AGENT_TIMEOUT)%Z
         then Some (o, (clock (fresh_world Disarmed 0) + Z.of_N 32000000)%Z)
         else None.
Proof.
  refine (X5_answer_cached_iff_under_timeout
            (the_system (answers "R$ 10,9 trilhões" 32000000) hangs hangs)
            (u "PIB do Brasil") (fresh_world Disarmed 0)
            (u "system:23e048b3")
            {| intent := u "research"; confidence := 1 # 1;
               entities := []; keywords := [u "pib"] |}
            (Some (u "R$ 10,9 trilhões")) 32000000 _ _ _ _ _);
    try (intros _); vm_compute; reflexivity.
Defined.

(** X8. After ["PIB do Brasil"] is answered in one second, the entry
    found under its key is the dictionary the call returned. *)
Lemma X8_entry_is_the_returned_dictionary :
  exists o w' entry,
    process_query (the_system (answers "R$ 10,9 trilhões" 1000000) hangs hangs)
                  (u "PIB do Brasil") (fresh_world Disarmed 0)
    = Some (Ok o, w')
    /\ cached_at w' (u "system:23e048b3") = Some entry
    /\ entry = (o, clock w')
    /\ success o = true
    /\ (outcome_processing_time o < seconds AGENT_TIMEOUT)%Z.
Proof.
  assert (Hrun : exists o w' o' ts,
             process_query (the_system (answers "R$ 10,9 trilhões" 1000000) hangs hangs)
                           (u "PIB do Brasil") (fresh_world Disarmed 0)
             = Some (Ok o, w')
             /\ cached_at w' (u "system:23e048b3") = Some (o', ts)
             /\ cached_at (fresh_world Disarmed 0) (u "system:23e048b3") = None).
  { do 4 eexists. split; [vm_compute; reflexivity|].
    split; vm_compute; reflexivity. }
  destruct Hrun as (o & w' & o' & ts & Hrun & Hentry & Hbefore).
  destruct (process_query_caches_only_quick_results _ _ _ _ _ _ _ _ Hrun Hentry)
    as [Hold | (Heq & Hsuccess & Htime & Hts)].
  - rewrite Hbefore in Hold. discriminate.
  - injection Heq as ->. exists o', w', (o', ts).
    split; [exact Hrun|]. split; [exact Hentry|]. split; [congruence|].
    split; [exact Hsuccess | exact Htime].
Defined.

(* ===================================================================== *)
(** ** process_query with its console: step by step                       *)
(* ===================================================================== *)

Lemma accepts_by_computation (print : str -> res unit) (lines : list str) :
  forallb (fun line => match print line with Ok _ => true | Raise _ => false end) lines
  = true ->
  accepts print lines.
Proof.
  unfold accepts. rewrite forallb_forall, List.Forall_forall.
  intros Hall line Hin. specialize (Hall line Hin).
  destruct (print line) as [[]|e]; [reflexivity | discriminate].
Qed.

Section ConsoleLemmas.
Context `{UnicodeData}.
Variable print : str -> res unit.
Variable interrupted : string -> Z -> str -> Console.reaction.

(** The prints before the [try], the [try], and its [except]. *)
Lemma console_process_query_eq (self : BrazilianEconomyAgentSystem) (query : str)
  (w : world) :
  Console.process_query print interrupted self query w =
  match print (Console.processing_line query) with
  | Raise e => Some (Raise e, w)
  | Ok _ =>
      match print Console.dashes with
      | Raise e => Some (Raise e, w)
      | Ok _ =>
          match Console.attempt print interrupted self query (clock w) w with
          | Some (Raise e, w1) =>
              match print (Console.error_line e) with
              | Raise e' => Some (Raise e', w1)
              | Ok _ =>
                  Some (Ok (ErrorResult (exc_str e) query (clock w1 - clock w)
                                        (clock w1)),
                        logged w1 (Activity "system" "error"))
              end
          | r => r
          end
      end
  end.
Proof.
  unfold Console.process_query, Console.say.
  unfold bind at 1. unfold lift at 1.
  destruct (print (Console.processing_line query)) as [[]|e]; [|reflexivity].
  unfold bind at 1. unfold lift at 1.
  destruct (print Console.dashes) as [[]|e]; [|reflexivity].
  unfold bind at 1. unfold now at 1. unfold try_except.
  destruct (Console.attempt print interrupted self query (clock w) w)
    as [[[o | e] w1]|]; [reflexivity | | reflexivity].
  unfold Console.on_error, Console.say.
  unfold bind at 1. unfold now at 1. unfold bind at 1. unfold lift at 1.
  destruct (print (Console.error_line e)) as [[]|e']; reflexivity.
Qed.

(** The inner [try]: the call of the executor, then the line that reports
    it or the [except] clause. *)
Lemma console_run_agent_eq (self : BrazilianEconomyAgentSystem) (query : str)
  (w : world) :
  Console.run_agent print interrupted self query w =
  let route := _route_query query in
  match Console.invoke interrupted (executor_name route) (executor_of self route)
                       query (logged (armed w) (agent_activity route)) with
  | None => None
  | Some (Ok v, wi) =>
      match print (Console.success_line route) with
      | Ok _ => Some (Ok v, disarmed wi)
      | Raise e => Console.execution_fallback print query e (disarmed wi)
      end
  | Some (Raise e, wi) => Console.execution_fallback print query e wi
  end.
Proof.
  cbv zeta. unfold Console.run_agent, Console.execute_agent, agent_activity,
    executor_name, executor_of.
  set (route := _route_query query). clearbody route.
  unfold try_except, bind, signal_alarm, log_agent_activity, record, ret,
    Console.say, lift, armed, disarmed.
  change (AGENT_TIMEOUT + 5 =? 0)%Z with false.
  change (0 =? 0)%Z with true.
  destruct (bool_decide (route = u "research"));
    [|destruct (bool_decide (route = u "chart"));
      [|destruct (bool_decide (route = u "weather"))]].
  all: match goal with
       | |- context [Console.invoke ?i ?n ?x ?q ?w0] =>
           destruct (Console.invoke i n x q w0) as [[[v | e] wi]|]
       end.
  all: try reflexivity.
  all: match goal with
       | |- context [print ?line] => destruct (print line) as [[]|e]
       end; reflexivity.
Qed.

(** The body of the outer [try]. *)
Lemma console_attempt_eq (self : BrazilianEconomyAgentSystem) (query : str)
  (start_time : Z) (w : world) :
  Console.attempt print interrupted self query start_time w =
  match generate_cache_key (u "system") query with
  | Raise e => Some (Raise e, w)
  | Ok cache_key =>
      match CacheManager.get (cache_manager w) (clock w) cache_key with
      | (Some cached, cm) =>
          match print Console.found_line with
          | Raise e => Some (Raise e, with_cache_manager w cm)
          | Ok _ =>
              Some (Ok cached,
                    logged (with_cache_manager w cm) (Activity "system" "cache_hit"))
          end
      | (None, cm) =>
          let w1 := logged (with_cache_manager w cm) (Analyzed query) in
          match query_analyzer self query with
          | Raise e => Some (Raise e, w1)
          | Ok analysis =>
              match print (Console.analysis_line analysis) with
              | Raise e => Some (Raise e, w1)
              | Ok _ =>
                  match match entities analysis with
                        | [] => Ok tt
                        | _ :: _ => print (Console.entities_line analysis)
                        end with
                  | Raise e => Some (Raise e, w1)
                  | Ok _ =>
                      let w2 := logged w1 (Activity "system" "query_analyzed") in
                      match print (Console.route_line (_route_query query)) with
                      | Raise e => Some (Raise e, w2)
                      | Ok _ =>
                          match print Console.executing_line with
                          | Raise e => Some (Raise e, w2)
                          | Ok _ =>
                              match Console.run_agent print interrupted self query w2 with
                              | None => None
                              | Some (Raise e, w3) => Some (Raise e, w3)
                              | Some (Ok result, w3) =>
                                  match result_get_output result with
                                  | Raise e => Some (Raise e, w3)
                                  | Ok _ =>
                                      Some (finalize start_time cache_key
                                              (_route_query query) query analysis
                                              result w3)
                                  end
                              end
                          end
                      end
                  end
              end
          end
      end
  end.
Proof.
  unfold Console.attempt, Console.say.
  unfold bind at 1. unfold lift at 1.
  destruct (generate_cache_key (u "system") query) as [cache_key | e]; [|reflexivity].
  unfold bind at 1. unfold cache_manager_get.
  destruct (CacheManager.get (cache_manager w) (clock w) cache_key) as [[cached|] cm].
  { unfold bind at 1. unfold lift at 1.
    destruct (print Console.found_line) as [[]|e]; reflexivity. }
  cbv zeta. unfold bind at 1. unfold record at 1.
  unfold bind at 1. unfold lift at 1.
  destruct (query_analyzer self query) as [analysis | e]; [|reflexivity].
  unfold bind at 1. unfold lift at 1.
  destruct (print (Console.analysis_line analysis)) as [[]|e]; [|reflexivity].
  unfold bind at 1.
  assert (Hentities :
            (match entities analysis with
             | [] => ret tt
             | _ :: _ => lift (print (Console.entities_line analysis))
             end) (logged (with_cache_manager w cm) (Analyzed query))
            = Some (match entities analysis with
                    | [] => Ok tt
                    | _ :: _ => print (Console.entities_line analysis)
                    end,
                    logged (with_cache_manager w cm) (Analyzed query)))
    by (destruct (entities analysis); reflexivity).
  rewrite Hentities. clear Hentities.
  destruct (match entities analysis with
            | [] => Ok tt
            | _ :: _ => print (Console.entities_line analysis)
            end) as [[]|e]; [|reflexivity].
  unfold bind at 1. unfold log_agent_activity at 1, record at 1.
  unfold bind at 1. unfold lift at 1.
  destruct (print (Console.route_line (_route_query query))) as [[]|e]; [|reflexivity].
  unfold bind at 1. unfold lift at 1.
  destruct (print Console.executing_line) as [[]|e]; [|reflexivity].
  unfold bind at 1.
  destruct (Console.run_agent print interrupted self query _) as [[[result | e] w3] |];
    [|reflexivity|reflexivity].
  unfold finalize, bind, now, lift, cache_manager_set, ret.
  destruct (result_get_output result) as [content | e]; [|reflexivity].
  cbv zeta.
  destruct (clock w3 - start_time <? seconds AGENT_TIMEOUT)%Z; reflexivity.
Qed.


(** The inner [except] clauses leave the process state as it is. *)
Lemma console_execution_fallback_eq (query : str) (e : PyException) (w : world) :
  Console.execution_fallback print query e w =
  match print (match e with
               | TimeoutException _ => Console.timeout_line
               | Exception _ _ => Console.failure_line e
               end) with
  | Raise e' => Some (Raise e', w)
  | Ok _ => Some (Ok (fallback_value query e), w)
  end.
Proof.
  unfold Console.execution_fallback, Console.say, bind, lift, ret, fallback_value,
    timeout_text, fallback_text.
  destruct e as [msg | cls msg];
    match goal with |- context [print ?line] => destruct (print line) as [[]|e'] end;
    reflexivity.
Qed.

(** The call of the executor, with the alarm armed or not. *)
Lemma console_invoke_eq (name : string) (executor : Z -> str -> behaviour)
  (query : str) (w : world) :
  Console.invoke interrupted name executor query w =
  let w0 := logged w (Invoked name query) in
  let done (r : res PyValue) (d : N) := Some (r, at_instant w0 (clock w + Z.of_N d)) in
  let alarm_at (t : Z) :=
    let w' := with_alarm (at_instant w0 t) Disarmed in
    match interrupted name (clock w) query with
    | Console.Propagates => Some (Raise timeout_handler, w')
    | Console.Swallows (Returns v d) => Some (Ok v, at_instant w' (t + Z.of_N d))
    | Console.Swallows (Raises e d) => Some (Raise e, at_instant w' (t + Z.of_N d))
    | Console.Swallows Hangs => None
    end in
  match alarm w, executor (clock w) query with
  | Armed t, Returns v d =>
      if (t <=? clock w + Z.of_N d)%Z then alarm_at t else done (Ok v) d
  | Armed t, Raises e d =>
      if (t <=? clock w + Z.of_N d)%Z then alarm_at t else done (Raise e) d
  | Armed t, Hangs => alarm_at t
  | _, Returns v d => done (Ok v) d
  | _, Raises e d => done (Raise e) d
  | _, Hangs => None
  end.
Proof.
  unfold Console.invoke, bind, record. cbv zeta.
  destruct w as [cm t a evs]. world_simpl.
  destruct a, (executor t query); reflexivity.
Qed.







End ConsoleLemmas.

(** With a standard output that accepts every line and executors that let
    the exception of the alarm through, [process_query] with its console is
    the [process_query] of the first embedding: what is proved of the
    latter holds of the former under these two conditions. *)
Lemma console_run_agent_lenient `{UnicodeData} (self : BrazilianEconomyAgentSystem)
  (query : str) (w : world) :
  Console.run_agent Console.accepts_all Console.propagating self query w
  = run_agent self query w.
Proof.
  rewrite console_run_agent_eq, run_agent_eq. cbv zeta.
  rewrite console_invoke_eq. cbv zeta.
  unfold run_agent_outcome, Console.propagating, Console.accepts_all, armed, disarmed.
  destruct w as [cm t a evs]. world_simpl.
  destruct a; world_simpl;
    (destruct (executor_of self (_route_query query) t query) as [v d | e d |];
     try match goal with
         | |- context [(?x <=? ?y)%Z] => destruct (x <=? y)%Z
         end);
    rewrite ?console_execution_fallback_eq; try reflexivity.
Qed.

Lemma console_process_query_lenient `{UnicodeData} (self : BrazilianEconomyAgentSystem)
  (query : str) (w : world) :
  Console.process_query Console.accepts_all Console.propagating self query w
  = process_query self query w.
Proof.
  rewrite console_process_query_eq, process_query_eq, console_attempt_eq.
  unfold Console.accepts_all.
  destruct (generate_cache_key (u "system") query) as [key | e].
  2: { rewrite Z.sub_diag. reflexivity. }
  destruct (CacheManager.get (cache_manager w) (clock w) key) as [[cached|] cm];
    [reflexivity|].
  cbv zeta. destruct (query_analyzer self query) as [analysis | e].
  2: { world_simpl. rewrite Z.sub_diag. reflexivity. }
  assert (Hentities : match entities analysis with
                      | [] => Ok tt
                      | _ :: _ => Ok tt
                      end = Ok tt) by (destruct (entities analysis); reflexivity).
  rewrite Hentities.
  change (fun _ : str => Ok tt) with Console.accepts_all.
  rewrite console_run_agent_lenient.
  destruct (run_agent self query _) as [[[result | e] w2] |]; try reflexivity.
  unfold finalize. destruct (result_get_output result); reflexivity.
Qed.

(* ===================================================================== *)
(** ** process_query with its console: the alarm and the deadline         *)
(* ===================================================================== *)





(* ===================================================================== *)
(** ** process_query with its console: errors outside the execution       *)
(* ===================================================================== *)




(* ===================================================================== *)
(** ** QueryAnalyzer: any pattern table                                   *)
(* ===================================================================== *)

Lemma dict_set_new {V} (d : list (str * V)) (key : str) (v : V) :
  key ∉ map fst d -> dict_set d key v = d ++ [(key, v)].
Proof.
  induction d as [|[k w] r IH]; intros Hkey; cbn [dict_set app]; [reflexivity|].
  cbn [map fst] in Hkey. apply not_elem_of_cons in Hkey as [Hne Hr].
  rewrite bool_decide_eq_false_2 by congruence. rewrite IH by exact Hr. reflexivity.
Qed.

(** The keys of a dict are distinct, so [intent_scores] lists the intents
    in the order of the table, each with the score of its patterns. *)
Lemma intent_scores_map `{UnicodeData} (self : QueryAnalyzer) (query_lower : str) :
  NoDup (map fst (INTENT_PATTERNS self)) ->
  intent_scores_of self query_lower
  = map (fun ip => (fst ip, pattern_score (snd ip) query_lower)) (INTENT_PATTERNS self).
Proof.
  unfold intent_scores_of. intros Hnd.
  rewrite <- (app_nil_l (map _ (INTENT_PATTERNS self))).
  assert (Hacc : NoDup (map fst ([] : list (str * nat)) ++ map fst (INTENT_PATTERNS self)))
    by exact Hnd.
  revert Hacc. generalize ([] : list (str * nat)) as scores. clear Hnd.
  induction (INTENT_PATTERNS self) as [|[k ps] table IH]; intros scores Hnd;
    cbn [fold_left map fst snd].
  - rewrite app_nil_r. reflexivity.
  - cbn [map fst] in Hnd. apply NoDup_app in Hnd as (Hs & Hdisj & Ht).
    apply NoDup_cons in Ht as [Hk Ht].
    rewrite dict_set_new.
    2: { intros Hin. apply (Hdisj k Hin). apply list_elem_of_here. }
    rewrite IH.
    + rewrite <- app_assoc. reflexivity.
    + rewrite map_app. cbn [map fst]. rewrite <- app_assoc. cbn [app].
      apply NoDup_app. split; [exact Hs|]. split.
      * intros x Hx Hx'. apply (Hdisj x Hx). exact Hx'.
      * apply NoDup_cons. split; assumption.
Qed.

Lemma find_key_NoDup (scores : list (str * nat)) (k : str) (v : nat) :
  NoDup (map fst scores) -> (k, v) ∈ scores ->
  List.find (fun kv => bool_decide (fst kv = k)) scores = Some (k, v).
Proof.
  induction scores as [|[k1 v1] r IH]; intros Hnd Hin.
  - apply elem_of_nil in Hin. contradiction.
  - cbn [map fst] in Hnd. apply NoDup_cons in Hnd as [Hk1 Hnd].
    cbn [List.find fst]. apply elem_of_cons in Hin as [Hhd | Htl].
    + injection Hhd as -> ->. rewrite bool_decide_eq_true_2 by reflexivity.
      reflexivity.
    + rewrite bool_decide_eq_false_2; [apply IH; assumption|].
      intros ->. apply Hk1. apply (list_elem_of_fmap_2 fst _ (k, v)). exact Htl.
Qed.

Lemma sum_scores_from (scores : list (str * nat)) (acc : nat) :
  fold_left (fun acc kv => (acc + snd kv)%nat) scores acc
  = (acc + sum_scores scores)%nat.
Proof.
  unfold sum_scores. revert acc.
  induction scores as [|kv r IH]; intros acc; cbn [fold_left]; [lia|].
  rewrite IH, (IH (0 + snd kv)%nat). lia.
Qed.

Lemma sum_scores_cons (kv : str * nat) (scores : list (str * nat)) :
  sum_scores (kv :: scores) = (snd kv + sum_scores scores)%nat.
Proof. unfold sum_scores at 1. cbn [fold_left]. rewrite sum_scores_from. lia. Qed.

Lemma sum_scores_bounds (scores : list (str * nat)) (v : nat) :
  Forall (fun kv => (snd kv <= v)%nat) scores ->
  (sum_scores scores <= length scores * v)%nat
  /\ forall kv, kv ∈ scores -> (snd kv <= sum_scores scores)%nat.
Proof.
  induction scores as [|kv r IH]; intros Hall.
  - split; [reflexivity|]. intros kv Hkv. apply elem_of_nil in Hkv. contradiction.
  - apply Forall_cons in Hall as [Hkv Hr]. destruct (IH Hr) as [Hsum Hle].
    rewrite sum_scores_cons. cbn [length]. split; [lia|].
    intros kv' [-> | Hin]%elem_of_cons; [lia|]. specialize (Hle kv' Hin). lia.
Qed.

Lemma Zpos_of_nat (n : nat) : (1 <= n)%nat -> Z.pos (Pos.of_nat n) = Z.of_nat n.
Proof.
  destruct n as [|m]; [lia|]. intros _.
  rewrite <- Pos.of_nat_succ, Zpos_P_of_succ_nat. lia.
Qed.

(** What [analyze_query] returns on a non-empty table: the first intent of
    maximal score, with that score over the sum of all scores. *)
Lemma analyze_query_general `{UnicodeData} (self : QueryAnalyzer) (query : str) :
  NoDup (map fst (INTENT_PATTERNS self)) ->
  INTENT_PATTERNS self <> [] ->
  exists (cl : QueryClassification) (v : nat),
    analyze_query self query = Ok cl
    /\ (intent cl, v) ∈ intent_scores_of self (str_lower query)
    /\ Forall (fun kv => (snd kv <= v)%nat) (intent_scores_of self (str_lower query))
    /\ confidence cl
       = (Z.of_nat v # Pos.of_nat (Nat.max (sum_scores (intent_scores_of self (str_lower query))) 1))
    /\ entities cl = _extract_entities self (str_lower query)
    /\ keywords cl = _extract_keywords (str_lower query).
Proof.
  intros Hdict Htable. unfold analyze_query. cbv zeta.
  assert (Hnd : NoDup (map fst (intent_scores_of self (str_lower query)))).
  { rewrite intent_scores_map by exact Hdict. rewrite map_map. cbn [fst]. exact Hdict. }
  destruct (intent_scores_of self (str_lower query)) as [|kv r] eqn:Hscores.
  { rewrite intent_scores_map in Hscores by exact Hdict.
    destruct (INTENT_PATTERNS self); [contradiction | discriminate]. }
  cbn [max_by_score].
  destruct (max_from_first_maximal r kv) as (pre & v & post & Heq & Hpre & Hpost & _).
  assert (Hin : (max_from kv r, v) ∈ kv :: r).
  { rewrite Heq. apply elem_of_app. right. apply list_elem_of_here. }
  rewrite (find_key_NoDup _ _ v Hnd Hin).
  cbn [fmap option_fmap option_map default snd]. unfold id.
  eexists. exists v. split; [reflexivity|]. cbn [intent confidence entities keywords].
  split; [exact Hin|]. split; [|auto].
  rewrite Heq. apply Forall_app. split.
  - eapply Forall_impl; [exact Hpre|]. cbn. intros; lia.
  - constructor; [cbn; lia | exact Hpost].
Qed.

(** X9. With any pattern table (a dict, so its keys are distinct),
    [analyze_query] raises only when the table is empty: the [ValueError]
    of [max] on an empty dict. Otherwise it returns a classification whose
    intent is a key of the table, whose patterns score at least as much as
    those of every other intent; the confidence lies between 0 and 1, is 0
    exactly when no pattern matched anything, and is otherwise at least one
    over the number of intents. *)
Theorem X9_analysis_of_any_table `{UnicodeData} (self : QueryAnalyzer) (query : str) :
  NoDup (map fst (INTENT_PATTERNS self)) ->
  (INTENT_PATTERNS self = [] ->
   analyze_query self query
   = Raise (Exception "ValueError" (u "max() arg is an empty sequence")))
  /\ (INTENT_PATTERNS self <> [] ->
      exists cl patterns,
        analyze_query self query = Ok cl
        /\ (intent cl, patterns) ∈ INTENT_PATTERNS self
        /\ (forall k ps, (k, ps) ∈ INTENT_PATTERNS self ->
              (pattern_score ps (str_lower query)
               <= pattern_score patterns (str_lower query))%nat)
        /\ (0 <= confidence cl <= 1)%Q
        /\ ((confidence cl == 0)%Q
            <-> forall k ps, (k, ps) ∈ INTENT_PATTERNS self ->
                  pattern_score ps (str_lower query) = 0%nat)
        /\ (~ (confidence cl == 0)%Q ->
            (1 # Pos.of_nat (length (INTENT_PATTERNS self)) <= confidence cl)%Q)).
Proof.
  intros Hdict. split.
  { intros Hempty. unfold analyze_query, intent_scores_of. rewrite Hempty.
    reflexivity. }
  intros Htable.
  destruct (analyze_query_general self query Hdict Htable)
    as (cl & v & Hcl & Hin & Hmax & Hconf & _).
  pose proof (sum_scores_bounds _ v Hmax) as [Hsum Hle].
  specialize (Hle _ Hin). cbn [snd] in Hle. revert Hsum Hle Hconf.
  generalize (sum_scores (intent_scores_of self (str_lower query))) as total.
  intros total Hsum Hle Hconf.
  rewrite intent_scores_map in Hin, Hmax, Hsum by exact Hdict.
  rewrite length_map in Hsum.
  apply list_elem_of_fmap in Hin as ([k patterns] & Hkv & Hin).
  cbn [fst snd] in Hkv. injection Hkv as Hk Hv.
  exists cl, patterns. split; [exact Hcl|]. split; [rewrite Hk; exact Hin|].
  assert (Hscore : forall k ps, (k, ps) ∈ INTENT_PATTERNS self ->
                     (pattern_score ps (str_lower query) <= v)%nat).
  { intros k' ps Hps. rewrite Forall_forall in Hmax.
    apply (Hmax (k', pattern_score ps (str_lower query))).
    apply (list_elem_of_fmap_2
             (fun ip : str * list Re.pattern =>
                (fst ip, pattern_score (snd ip) (str_lower query)))
             _ (k', ps)). exact Hps. }
  split; [intros k' ps Hps; rewrite <- Hv; eauto|].
  rewrite Hconf. unfold Qle, Qeq. cbn [Qnum Qden].
  rewrite (Zpos_of_nat (Nat.max total 1)) by lia.
  split; [lia|]. split.
  - split.
    + intros H0 k' ps Hps. specialize (Hscore k' ps Hps). lia.
    + intros Hzero. specialize (Hzero k patterns Hin). lia.
  - intros Hne. assert (Hlen : (1 <= length (INTENT_PATTERNS self))%nat).
    { destruct (INTENT_PATTERNS self); [contradiction | cbn; lia]. }
    rewrite (Zpos_of_nat _ Hlen). nia.
Qed.

(** The table of the class, on a query that scores for two intents. *)
Lemma X9_the_table_of_the_class :
  NoDup (map fst (INTENT_PATTERNS the_QueryAnalyzer))
  /\ (INTENT_PATTERNS the_QueryAnalyzer = [] ->
      analyze_query the_QueryAnalyzer (u "Gráfico do PIB")
      = Raise (Exception "ValueError" (u "max() arg is an empty sequence")))
  /\ (INTENT_PATTERNS the_QueryAnalyzer <> [] ->
      exists cl patterns,
        analyze_query the_QueryAnalyzer (u "Gráfico do PIB") = Ok cl
        /\ (intent cl, patterns) ∈ INTENT_PATTERNS the_QueryAnalyzer
        /\ (forall k ps, (k, ps) ∈ INTENT_PATTERNS the_QueryAnalyzer ->
              (pattern_score ps (str_lower (u "Gráfico do PIB"))
               <= pattern_score patterns (str_lower (u "Gráfico do PIB")))%nat)
        /\ (0 <= confidence cl <= 1)%Q
        /\ ((confidence cl == 0)%Q
            <-> forall k ps, (k, ps) ∈ INTENT_PATTERNS the_QueryAnalyzer ->
                  pattern_score ps (str_lower (u "Gráfico do PIB")) = 0%nat)
        /\ (~ (confidence cl == 0)%Q ->
            (1 # Pos.of_nat (length (INTENT_PATTERNS the_QueryAnalyzer))
             <= confidence cl)%Q)).
Proof.
  assert (Hdict : NoDup (map fst (INTENT_PATTERNS the_QueryAnalyzer))).
  { apply (bool_decide_unpack (NoDup _)). vm_compute. exact I. }
  split; [exact Hdict|].
  exact (X9_analysis_of_any_table the_QueryAnalyzer (u "Gráfico do PIB") Hdict).
Defined.

(* ===================================================================== *)
(** ** QueryAnalyzer: keywords and entities                               *)
(* ===================================================================== *)

Lemma occurs_in_trans (a b c : str) : occurs_in a b -> occurs_in b c -> occurs_in a c.
Proof.
  intros (p1 & s1 & ->) (p2 & s2 & ->). exists (p2 ++ p1), (s1 ++ s2).
  rewrite <- !app_assoc. reflexivity.
Qed.

(** The loop [for x in table: if x in query: out.append(f(x))]. *)
Lemma found_in_table {A} (f : str -> A) (table : list str) (query : str) :
  let found := flat_map (fun x => if str_in x query then [f x] else []) table in
  found `sublist_of` map f table
  /\ (forall y, y ∈ found <-> exists x, x ∈ table /\ occurs_in x query /\ y = f x)
  /\ (forall query',
        occurs_in query query' ->
        found `sublist_of`
          flat_map (fun x => if str_in x query' then [f x] else []) table).
Proof.
  cbv zeta. induction table as [|x table (IHsub & IHin & IHmono)]; cbn [flat_map map].
  - split; [constructor|]. split; [|constructor].
    intros y. split; [intros Hy; apply elem_of_nil in Hy; contradiction|].
    intros (x & Hx & _). apply elem_of_nil in Hx. contradiction.
  - split; [|split].
    + destruct (str_in x query); cbn [app];
        [apply sublist_skip | apply sublist_cons]; exact IHsub.
    + intros y. rewrite elem_of_app, IHin. split.
      * intros [Hy | (x' & Hx' & Hocc & ->)].
        -- destruct (str_in x query) eqn:Hx;
             [|apply elem_of_nil in Hy; contradiction].
           apply list_elem_of_singleton in Hy as ->. exists x.
           split; [apply list_elem_of_here|]. split; [|reflexivity].
           apply str_in_spec. exact Hx.
        -- exists x'. split; [apply list_elem_of_further; exact Hx' | auto].
      * intros (x' & [-> | Hx']%elem_of_cons & Hocc & ->).
        -- left. apply str_in_spec in Hocc. rewrite Hocc. apply list_elem_of_here.
        -- right. exists x'. auto.
    + intros query' Hocc. specialize (IHmono query' Hocc).
      destruct (str_in x query) eqn:Hx; cbn [app].
      * apply str_in_spec in Hx.
        pose proof (occurs_in_trans _ _ _ Hx Hocc) as Hx'.
        apply str_in_spec in Hx'. rewrite Hx'. cbn [app].
        apply sublist_skip. exact IHmono.
      * destruct (str_in x query'); cbn [app];
          [apply sublist_cons|]; exact IHmono.
Qed.

Lemma analyze_query_lists `{UnicodeData} (self : QueryAnalyzer) (query : str)
  (cl : QueryClassification) :
  analyze_query self query = Ok cl ->
  entities cl = _extract_entities self (str_lower query)
  /\ keywords cl = _extract_keywords (str_lower query).
Proof.
  unfold analyze_query. cbv zeta.
  destruct (max_by_score _); [|discriminate].
  intros [= <-]. split; reflexivity.
Qed.

(** X10. The keywords of a classification are found by substring search
    in the lower-cased query: a keyword is reported exactly when it occurs
    in it (inside a longer word too); they come in the order of the
    keyword table, not in the order of the query, and each at most once. *)
Theorem X10_keywords_by_substring `{UnicodeData} (self : QueryAnalyzer)
  (query : str) (cl : QueryClassification) :
  analyze_query self query = Ok cl ->
  (forall k, k ∈ keywords cl
             <-> k ∈ economic_keywords /\ occurs_in k (str_lower query))
  /\ keywords cl `sublist_of` economic_keywords
  /\ NoDup (keywords cl).
Proof.
  intros Hcl. apply analyze_query_lists in Hcl as [_ ->].
  unfold _extract_keywords.
  destruct (found_in_table id economic_keywords (str_lower query))
    as (Hsub & Hin & _).
  rewrite map_id in Hsub. unfold id in Hin. split; [|split].
  - intros k. rewrite Hin. split.
    + intros (x & Hx & Hocc & ->). auto.
    + intros [Hk Hocc]. exists k. auto.
  - exact Hsub.
  - eapply sublist_NoDup; [|exact Hsub].
    apply (bool_decide_unpack (NoDup _)). vm_compute. exact I.
Qed.

(** ["pib"] is found inside ["PIBinho"], and ["economia"] is listed after
    it although the query has it first. *)
Lemma X10_economia_e_pibinho :
  @analyze_query latin1 the_QueryAnalyzer (u "Economia e PIBinho")
  = Ok {| intent := u "research"; confidence := 1 # 1; entities := [];
          keywords := [u "pib"; u "economia"] |}
  /\ (forall k, k ∈ [u "pib"; u "economia"]
                <-> k ∈ economic_keywords
                    /\ occurs_in k (str_lower (u "Economia e PIBinho")))
  /\ [u "pib"; u "economia"] `sublist_of` economic_keywords
  /\ NoDup [u "pib"; u "economia"].
Proof.
  assert (Hcl : @analyze_query latin1 the_QueryAnalyzer (u "Economia e PIBinho")
                = Ok {| intent := u "research"; confidence := 1 # 1; entities := [];
                        keywords := [u "pib"; u "economia"] |})
    by (vm_compute; reflexivity).
  split; [exact Hcl|].
  exact (X10_keywords_by_substring the_QueryAnalyzer (u "Economia e PIBinho") _ Hcl).
Defined.

(** X11. The entities of a classification are the title-cased locations
    of the table that occur in the lower-cased query, in the order of the
    table. *)
Theorem X11_entities_by_substring `{UnicodeData} (self : QueryAnalyzer)
  (query : str) (cl : QueryClassification) :
  analyze_query self query = Ok cl ->
  (forall e, e ∈ entities cl
             <-> exists location,
                   location ∈ BRAZILIAN_LOCATIONS self
                   /\ occurs_in location (str_lower query)
                   /\ e = str_title location)
  /\ entities cl `sublist_of` map str_title (BRAZILIAN_LOCATIONS self)
  /\ (length (entities cl) <= length (BRAZILIAN_LOCATIONS self))%nat.
Proof.
  intros Hcl. apply analyze_query_lists in Hcl as [-> _].
  unfold _extract_entities.
  destruct (found_in_table str_title (BRAZILIAN_LOCATIONS self) (str_lower query))
    as (Hsub & Hin & _).
  split; [exact Hin|]. split; [exact Hsub|].
  apply sublist_length in Hsub. rewrite length_map in Hsub. exact Hsub.
Qed.

(** [str.title] capitalises every word: the entity found for
    ["rio de janeiro"] is ["Rio De Janeiro"]. *)
Lemma X11_rio_de_janeiro :
  @analyze_query latin1 the_QueryAnalyzer (u "PIB do RIO DE JANEIRO e de Manaus")
  = Ok {| intent := u "research"; confidence := 1 # 1;
          entities := [u "Rio De Janeiro"; u "Manaus"];
          keywords := [u "pib"] |}
  /\ (forall e, e ∈ [u "Rio De Janeiro"; u "Manaus"]
             <-> exists location,
                   location ∈ BRAZILIAN_LOCATIONS the_QueryAnalyzer
                   /\ occurs_in location (str_lower (u "PIB do RIO DE JANEIRO e de Manaus"))
                   /\ e = str_title location)
  /\ [u "Rio De Janeiro"; u "Manaus"]
       `sublist_of` map str_title (BRAZILIAN_LOCATIONS the_QueryAnalyzer)
  /\ (length [u "Rio De Janeiro"; u "Manaus"]
      <= length (BRAZILIAN_LOCATIONS the_QueryAnalyzer))%nat.
Proof.
  assert (Hcl : @analyze_query latin1 the_QueryAnalyzer
                  (u "PIB do RIO DE JANEIRO e de Manaus")
                = Ok {| intent := u "research"; confidence := 1 # 1;
                        entities := [u "Rio De Janeiro"; u "Manaus"];
                        keywords := [u "pib"] |})
    by (vm_compute; reflexivity).
  split; [exact Hcl|].
  exact (X11_entities_by_substring the_QueryAnalyzer
           (u "PIB do RIO DE JANEIRO e de Manaus") _ Hcl).
Defined.

(** X12. Text added around a query never loses a keyword or an entity:
    when the lower-cased query occurs in another lower-cased query, the
    keywords and the entities of the first are among those of the second,
    in the same order. The intent may change. *)
Theorem X12_longer_query_keeps_keywords `{UnicodeData} (self : QueryAnalyzer)
  (query query' : str) (cl cl' : QueryClassification) :
  analyze_query self query = Ok cl ->
  analyze_query self query' = Ok cl' ->
  occurs_in (str_lower query) (str_lower query') ->
  keywords cl `sublist_of` keywords cl'
  /\ entities cl `sublist_of` entities cl'.
Proof.
  intros [-> ->]%analyze_query_lists [-> ->]%analyze_query_lists Hocc.
  unfold _extract_keywords, _extract_entities. split.
  - apply (found_in_table (fun k => k) economic_keywords (str_lower query)).
    exact Hocc.
  - apply (found_in_table str_title (BRAZILIAN_LOCATIONS self) (str_lower query)).
    exact Hocc.
Qed.

(** Asking for a chart of the same thing keeps the keyword and the city
    and changes the intent. *)
Lemma X12_grafico_do_pib :
  exists cl cl',
    @analyze_query latin1 the_QueryAnalyzer (u "PIB de Salvador") = Ok cl
    /\ @analyze_query latin1 the_QueryAnalyzer (u "Gráfico: PIB de Salvador, linha")
       = Ok cl'
    /\ intent cl = u "research" /\ intent cl' = u "chart"
    /\ keywords cl `sublist_of` keywords cl'
    /\ entities cl `sublist_of` entities cl'.
Proof.
  assert (Hrun : exists cl cl',
             @analyze_query latin1 the_QueryAnalyzer (u "PIB de Salvador") = Ok cl
             /\ @analyze_query latin1 the_QueryAnalyzer
                  (u "Gráfico: PIB de Salvador, linha") = Ok cl'
             /\ intent cl = u "research" /\ intent cl' = u "chart"
             /\ occurs_in (str_lower (u "PIB de Salvador"))
                          (str_lower (u "Gráfico: PIB de Salvador, linha"))).
  { do 2 eexists. split; [vm_compute; reflexivity|].
    split; [vm_compute; reflexivity|].
    split; [vm_compute; reflexivity|]. split; [vm_compute; reflexivity|].
    apply str_in_spec. vm_compute. reflexivity. }
  destruct Hrun as (cl & cl' & Hcl & Hcl' & Hi & Hi' & Hocc).
  exists cl, cl'. split; [exact Hcl|]. split; [exact Hcl'|].
  split; [exact Hi|]. split; [exact Hi'|].
  exact (X12_longer_query_keeps_keywords the_QueryAnalyzer _ _ cl cl' Hcl Hcl' Hocc).
Defined.

(* ===================================================================== *)
(** ** QueryAnalyzer: what a pattern can count                            *)
(* ===================================================================== *)

Lemma match_atoms_literal `{UnicodeData} (al : Re.alternative) (prev : option cp)
  (s : str) :
  Re.match_atoms al prev s <> [] -> exists after, s = literal_prefix al ++ after.
Proof.
  revert prev s. induction al as [|[c|] al IH]; intros prev s Hm;
    cbn [literal_prefix Re.match_atoms] in *.
  - exists s. reflexivity.
  - destruct s as [|c' r]; [contradiction|].
    destruct (N.eqb_spec c c') as [<- | ?]; [|contradiction].
    destruct (IH _ _ Hm) as [after ->]. exists after. reflexivity.
  - exists s. reflexivity.
Qed.

Lemma match_here_literal `{UnicodeData} (p : Re.pattern) (prev : option cp)
  (s rest : str) :
  Re.match_here p prev s = Some rest ->
  exists al after, al ∈ Re.alternatives p /\ s = literal_prefix al ++ after.
Proof.
  unfold Re.match_here. destruct (Re.boundary prev (head s)); [|discriminate].
  destruct (List.find _ _) as [lr|] eqn:Hfind; [|discriminate]. intros _.
  apply find_some in Hfind as [Hin _]. apply in_flat_map in Hin as (al & Hal & Hin).
  exists al. destruct (match_atoms_literal al prev s) as [after ->].
  - intros Hnil. rewrite Hnil in Hin. destruct Hin.
  - exists after. split; [apply list_elem_of_In; exact Hal | reflexivity].
Qed.

Lemma count_from_no_literal `{UnicodeData} (p : Re.pattern) (s : str) :
  (forall al, al ∈ Re.alternatives p -> ~ occurs_in (literal_prefix al) s) ->
  forall prev skip, Re.count_from p prev skip s = 0%nat.
Proof.
  induction s as [|c r IH]; intros Hno prev skip.
  - destruct skip; cbn [Re.count_from]; [|reflexivity].
    destruct (Re.match_here p prev []) as [rest|] eqn:Hm; [|reflexivity].
    apply match_here_literal in Hm as (al & after & Hal & Heq).
    exfalso. apply (Hno al Hal). exists [], after. exact Heq.
  - assert (Hr : forall al, al ∈ Re.alternatives p -> ~ occurs_in (literal_prefix al) r).
    { intros al Hal (before & after & ->). apply (Hno al Hal).
      exists (c :: before), after. reflexivity. }
    destruct skip; cbn [Re.count_from]; [|apply IH; exact Hr].
    destruct (Re.match_here p prev (c :: r)) as [rest|] eqn:Hm; [|apply IH; exact Hr].
    apply match_here_literal in Hm as (al & after & Hal & Heq).
    exfalso. apply (Hno al Hal). exists [], after. exact Heq.
Qed.

Lemma pattern_score_from `{UnicodeData} (patterns : list Re.pattern)
  (query_lower : str) (acc : nat) :
  fold_left (fun score pattern => (score + Re.findall_len pattern query_lower)%nat)
            patterns acc
  = (acc + pattern_score patterns query_lower)%nat.
Proof.
  unfold pattern_score. revert acc.
  induction patterns as [|p ps IH]; intros acc; cbn [fold_left]; [lia|].
  rewrite IH, (IH (0 + _)%nat). lia.
Qed.

Lemma pattern_score_cons `{UnicodeData} (p : Re.pattern) (patterns : list Re.pattern)
  (query_lower : str) :
  pattern_score (p :: patterns) query_lower
  = (Re.findall_len p query_lower + pattern_score patterns query_lower)%nat.
Proof.
  unfold pattern_score at 1. cbn [fold_left]. rewrite pattern_score_from. lia.
Qed.

(** [analyze_query] on a non-empty table, with the place of the chosen
    intent in [intent_scores]. *)
Lemma analyze_query_first_maximal `{UnicodeData} (self : QueryAnalyzer) (query : str) :
  NoDup (map fst (INTENT_PATTERNS self)) ->
  INTENT_PATTERNS self <> [] ->
  exists (cl : QueryClassification) (v : nat) (pre post : list (str * nat)),
    analyze_query self query = Ok cl
    /\ intent_scores_of self (str_lower query) = pre ++ (intent cl, v) :: post
    /\ Forall (fun kv => (snd kv < v)%nat) pre
    /\ Forall (fun kv => (snd kv <= v)%nat) post
    /\ confidence cl
       = (Z.of_nat v # Pos.of_nat (Nat.max (sum_scores (intent_scores_of self (str_lower query))) 1)).
Proof.
  intros Hdict Htable. unfold analyze_query. cbv zeta.
  assert (Hnd : NoDup (map fst (intent_scores_of self (str_lower query)))).
  { rewrite intent_scores_map by exact Hdict. rewrite map_map. cbn [fst]. exact Hdict. }
  destruct (intent_scores_of self (str_lower query)) as [|kv r] eqn:Hscores.
  { rewrite intent_scores_map in Hscores by exact Hdict.
    destruct (INTENT_PATTERNS self); [contradiction | discriminate]. }
  cbn [max_by_score].
  destruct (max_from_first_maximal r kv) as (pre & v & post & Heq & Hpre & Hpost & _).
  assert (Hin : (max_from kv r, v) ∈ kv :: r).
  { rewrite Heq. apply elem_of_app. right. apply list_elem_of_here. }
  rewrite (find_key_NoDup _ _ v Hnd Hin).
  cbn [fmap option_fmap option_map default snd]. unfold id.
  eexists. exists v, pre, post. split; [reflexivity|].
  cbn [intent confidence]. auto.
Qed.

(** X13. An intent scores only on text in which one of its keywords
    occurs: when the literal opening of no alternative of its patterns
    occurs in the lower-cased query, the score of the intent is 0. So a
    query in which no keyword of the table occurs at all is classified as
    the first intent of the table, with confidence 0. *)
Theorem X13_no_keyword_no_score `{UnicodeData} (self : QueryAnalyzer) (query : str) :
  (forall k, k ∈ pattern_literals (INTENT_PATTERNS self) ->
             ~ occurs_in k (str_lower query)) ->
  (forall intent patterns,
     (intent, patterns) ∈ INTENT_PATTERNS self ->
     pattern_score patterns (str_lower query) = 0%nat)
  /\ (NoDup (map fst (INTENT_PATTERNS self)) ->
      forall first rest,
        INTENT_PATTERNS self = first :: rest ->
        exists cl,
          analyze_query self query = Ok cl
          /\ intent cl = fst first
          /\ (confidence cl == 0)%Q).
Proof.
  intros Hno.
  assert (Hzero : forall intent patterns,
             (intent, patterns) ∈ INTENT_PATTERNS self ->
             pattern_score patterns (str_lower query) = 0%nat).
  { intros intent patterns Hin.
    assert (Hps : forall p al, p ∈ patterns -> al ∈ Re.alternatives p ->
                    ~ occurs_in (literal_prefix al) (str_lower query)).
    { intros p al Hp Hal. apply Hno. unfold pattern_literals.
      apply list_elem_of_In, in_flat_map. exists (intent, patterns).
      split; [apply list_elem_of_In; exact Hin|].
      cbn [snd]. apply in_flat_map. exists p.
      split; [apply list_elem_of_In; exact Hp|].
      apply in_map, list_elem_of_In. exact Hal. }
    clear Hin. induction patterns as [|p ps IH]; [reflexivity|].
    rewrite pattern_score_cons, IH.
    - unfold Re.findall_len. rewrite count_from_no_literal; [reflexivity|].
      intros al Hal. apply (Hps p al); [apply list_elem_of_here | exact Hal].
    - intros p' al Hp'. apply Hps. apply list_elem_of_further. exact Hp'. }
  split; [exact Hzero|].
  intros Hdict first rest Htable.
  destruct (analyze_query_first_maximal self query Hdict)
    as (cl & v & pre & post & Hcl & Hscores & Hpre & _ & Hconf).
  { rewrite Htable. discriminate. }
  exists cl. split; [exact Hcl|].
  rewrite intent_scores_map in Hscores by exact Hdict.
  assert (Hall : Forall (fun kv : str * nat => snd kv = 0%nat)
                        (pre ++ (intent cl, v) :: post)).
  { rewrite <- Hscores. apply Forall_forall. intros kv Hkv.
    apply list_elem_of_fmap in Hkv as ([k ps] & -> & Hin). cbn [fst snd].
    exact (Hzero k ps Hin). }
  apply Forall_app in Hall as [_ Hv]. apply Forall_cons in Hv as [Hv _].
  cbn [snd] in Hv. subst v.
  destruct pre as [|kv pre'].
  - rewrite Htable in Hscores. cbn [map app] in Hscores.
    injection Hscores as Hfirst _. split; [symmetry; exact Hfirst|].
    rewrite Hconf. reflexivity.
  - apply Forall_cons in Hpre as [Hlt _]. lia.
Qed.

(** None of the keywords of the class occurs in ["Quanto custa um
    carro?"], which is therefore a weather query with confidence 0. *)
Lemma X13_quanto_custa_um_carro :
  (forall k, k ∈ pattern_literals (INTENT_PATTERNS the_QueryAnalyzer) ->
             ~ occurs_in k (str_lower (u "Quanto custa um carro?")))
  /\ (forall intent patterns,
        (intent, patterns) ∈ INTENT_PATTERNS the_QueryAnalyzer ->
        pattern_score patterns (str_lower (u "Quanto custa um carro?")) = 0%nat)
  /\ (NoDup (map fst (INTENT_PATTERNS the_QueryAnalyzer)) ->
      forall first rest,
        INTENT_PATTERNS the_QueryAnalyzer = first :: rest ->
        exists cl,
          analyze_query the_QueryAnalyzer (u "Quanto custa um carro?") = Ok cl
          /\ intent cl = fst first
          /\ (confidence cl == 0)%Q).
Proof.
  assert (Hno : forall k, k ∈ pattern_literals (INTENT_PATTERNS the_QueryAnalyzer) ->
                  ~ occurs_in k (str_lower (u "Quanto custa um carro?"))).
  { assert (Hall : forallb (fun k => negb (str_in k (str_lower (u "Quanto custa um carro?"))))
                           (pattern_literals (INTENT_PATTERNS the_QueryAnalyzer)) = true)
      by (vm_compute; reflexivity).
    rewrite forallb_forall in Hall. intros k Hk Hocc.
    apply str_in_spec in Hocc. apply list_elem_of_In in Hk.
    specialize (Hall k Hk). rewrite Hocc in Hall. discriminate. }
  split; [exact Hno|].
  exact (X13_no_keyword_no_score the_QueryAnalyzer (u "Quanto custa um carro?") Hno).
Defined.

(* ===================================================================== *)
(** ** QueryAnalyzer: a query of one word                                 *)
(* ===================================================================== *)

Section OneWord.
Context `{UnicodeData}.

Lemma alternative_is_spec (al : Re.alternative) (word : str) :
  alternative_is al word = true <-> al = map Re.Chr word.
Proof.
  revert word. induction al as [|[c|] al IH]; intros [|c' word];
    cbn [alternative_is map]; try (split; [discriminate | discriminate]).
  - split; reflexivity.
  - rewrite andb_true_iff, N.eqb_eq, IH. split.
    + intros [-> ->]. reflexivity.
    + intros [= -> ->]. auto.
Qed.

Lemma match_atoms_exact (consumed rest : str) (prev : option cp) :
  Re.match_atoms (map Re.Chr consumed) prev (consumed ++ rest)
  = [(last_from prev consumed, rest)].
Proof.
  revert prev. induction consumed as [|c r IH]; intros prev;
    cbn [map app Re.match_atoms last_from]; [reflexivity|].
  rewrite N.eqb_refl. apply IH.
Qed.

Lemma match_atoms_word (al : Re.alternative) (prev : option cp) (s : str)
  (last : option cp) (rest : str) :
  Forall word_char s ->
  In (last, rest) (Re.match_atoms al prev s) ->
  exists consumed,
    s = consumed ++ rest /\ al = map Re.Chr consumed
    /\ last = last_from prev consumed.
Proof.
  revert prev s. induction al as [|[c|] al IH]; intros prev s Hs Hin;
    cbn [Re.match_atoms] in Hin.
  - destruct Hin as [[= <- <-] | []]. exists []. auto.
  - destruct s as [|c' r]; [destruct Hin|].
    destruct (N.eqb_spec c c') as [<- | ?]; [|destruct Hin].
    apply Forall_cons in Hs as [_ Hr].
    destruct (IH _ _ Hr Hin) as (consumed & -> & -> & ->).
    exists (c :: consumed). auto.
  - destruct s as [|c' r]; cbn [Re.space_runs flat_map] in Hin; [destruct Hin|].
    apply Forall_cons in Hs as [[_ Hsp] _]. rewrite Hsp in Hin. destruct Hin.
Qed.

Lemma last_from_word (prev : option cp) (consumed : str) :
  Forall word_char consumed -> Re.word_at prev = true ->
  Re.word_at (last_from prev consumed) = true.
Proof.
  revert prev. induction consumed as [|c r IH]; intros prev Hs Hprev;
    cbn [last_from]; [exact Hprev|].
  apply Forall_cons in Hs as [[Hc _] Hr]. apply IH; [exact Hr | exact Hc].
Qed.

(** After a word character, inside or at the end of a word, nothing
    matches. *)
Lemma match_here_inside_word (p : Re.pattern) (c : cp) (s : str) :
  [] ∉ Re.alternatives p -> is_word c = true -> Forall word_char s ->
  Re.match_here p (Some c) s = None.
Proof.
  intros Hne Hc Hs. unfold Re.match_here, Re.boundary. cbn [Re.word_at]. rewrite Hc.
  destruct s as [|c' r]; cbn [head Re.word_at xorb negb].
  - destruct (List.find _ _) as [[last rest]|] eqn:Hfind; [|reflexivity].
    apply find_some in Hfind as [Hin _].
    apply in_flat_map in Hin as (al & Hal & Hin).
    apply match_atoms_word in Hin as (consumed & Hnil & -> & _); [|constructor].
    symmetry in Hnil. apply app_eq_nil in Hnil as [-> _].
    exfalso. apply Hne. apply list_elem_of_In. exact Hal.
  - apply Forall_cons in Hs as [[Hc' _] _]. rewrite Hc'. reflexivity.
Qed.

Lemma count_from_inside_word (p : Re.pattern) (s : str) :
  [] ∉ Re.alternatives p -> Forall word_char s ->
  forall c skip, is_word c = true -> Re.count_from p (Some c) skip s = 0%nat.
Proof.
  intros Hne. induction s as [|c' r IH]; intros Hs c skip Hc.
  - destruct skip; cbn [Re.count_from]; [|reflexivity].
    rewrite match_here_inside_word by assumption. reflexivity.
  - pose proof Hs as Hs'. apply Forall_cons in Hs' as [[Hc' _] Hr].
    destruct skip; cbn [Re.count_from]; [|apply IH; assumption].
    rewrite match_here_inside_word by assumption. apply IH; assumption.
Qed.

(** A text of one word counts once for a pattern that has the word among
    its alternatives, and not at all otherwise. *)
Lemma findall_len_one_word (p : Re.pattern) (word : str) :
  word <> [] -> Forall word_char word -> [] ∉ Re.alternatives p ->
  Re.findall_len p word = if has_alternative p word then 1%nat else 0%nat.
Proof.
  intros Hword Hs Hne. destruct word as [|c r]; [contradiction|].
  pose proof Hs as Hs'. apply Forall_cons in Hs' as [[Hc _] Hr].
  unfold Re.findall_len. cbn [Re.count_from].
  destruct (Re.match_here p None (c :: r)) as [rest|] eqn:Hm;
    rewrite count_from_inside_word by assumption.
  - unfold Re.match_here in Hm.
    destruct (Re.boundary None (head (c :: r))); [|discriminate].
    destruct (List.find _ _) as [[last rest']|] eqn:Hfind; [|discriminate].
    apply find_some in Hfind as [Hin Hb]. cbn [fst snd] in Hb.
    apply in_flat_map in Hin as (al & Hal & Hin).
    apply (match_atoms_word _ _ _ _ _ Hs) in Hin as (consumed & Heq & -> & ->).
    assert (Hrest : rest' = []).
    { destruct consumed as [|c0 consumed].
      - exfalso. apply Hne. apply list_elem_of_In. exact Hal.
      - assert (Hcons : Forall word_char (c0 :: consumed) /\ Forall word_char rest')
          by (apply Forall_app; rewrite <- Heq; exact Hs).
        destruct Hcons as [Hcons Hrest'].
        cbn [last_from] in Hb. apply Forall_cons in Hcons as [[Hc0 _] Hcons].
        unfold Re.boundary in Hb.
        rewrite (last_from_word (Some c0) consumed Hcons Hc0) in Hb.
        destruct rest' as [|c1 rest1]; [reflexivity|].
        apply Forall_cons in Hrest' as [[Hc1 _] _].
        cbn [head Re.word_at] in Hb. rewrite Hc1 in Hb. discriminate. }
    subst rest'. rewrite app_nil_r in Heq. subst consumed.
    replace (has_alternative p (c :: r)) with true; [reflexivity|].
    symmetry. unfold has_alternative. apply existsb_exists.
    exists (map Re.Chr (c :: r)). split; [exact Hal|].
    apply alternative_is_spec. reflexivity.
  - destruct (has_alternative p (c :: r)) eqn:Hhas; [|reflexivity].
    exfalso. unfold has_alternative in Hhas.
    apply existsb_exists in Hhas as (al & Hal & His).
    apply alternative_is_spec in His. subst al.
    unfold Re.match_here, Re.boundary in Hm. cbn [head Re.word_at xorb] in Hm.
    rewrite Hc in Hm. cbn [xorb] in Hm.
    destruct (List.find _ _) as [lr|] eqn:Hfind; [discriminate|].
    assert (Hcand : In (last_from None (c :: r), [])
                       (flat_map (fun al => Re.match_atoms al None (c :: r))
                                 (Re.alternatives p))).
    { apply in_flat_map. exists (map Re.Chr (c :: r)). split; [exact Hal|].
      pose proof (match_atoms_exact (c :: r) [] None) as Hex.
      rewrite app_nil_r in Hex. rewrite Hex. left. reflexivity. }
    pose proof (find_none _ _ Hfind _ Hcand) as Hb.
    cbn [fst snd head last_from Re.word_at] in Hb.
    rewrite (last_from_word (Some c) r Hr Hc) in Hb. discriminate.
Qed.

End OneWord.

Lemma pattern_score_one_word `{UnicodeData} (patterns : list Re.pattern) (word : str) :
  word <> [] -> Forall word_char word ->
  Forall (fun p => [] ∉ Re.alternatives p) patterns ->
  pattern_score patterns word
  = length (List.filter (fun p => has_alternative p word) patterns).
Proof.
  intros Hword Hs. induction 1 as [|p ps Hp Hps IH]; [reflexivity|].
  rewrite pattern_score_cons, IH, findall_len_one_word by assumption.
  cbn [List.filter]. destruct (has_alternative p word); reflexivity.
Qed.

(** X14. A query of one word is scored by whole-word comparison: when
    the lower-cased query is a single run of word characters, the score of
    an intent is the number of its patterns that list exactly that word
    among their alternatives; a keyword that is only a part of the word
    counts for nothing. *)
Theorem X14_one_word_query `{UnicodeData} (self : QueryAnalyzer) (query : str) :
  NoDup (map fst (INTENT_PATTERNS self)) ->
  Forall (fun ip => Forall (fun p => [] ∉ Re.alternatives p) (snd ip))
         (INTENT_PATTERNS self) ->
  str_lower query <> [] ->
  Forall word_char (str_lower query) ->
  intent_scores_of self (str_lower query)
  = map (fun ip =>
           (fst ip,
            length (List.filter (fun p => has_alternative p (str_lower query))
                                (snd ip))))
        (INTENT_PATTERNS self).
Proof.
  intros Hdict Hne Hword Hs. rewrite intent_scores_map by exact Hdict.
  induction Hne as [|ip table Hip Htable IH]; [reflexivity|].
  cbn [map]. apply NoDup_cons in Hdict as [_ Hdict]. rewrite (IH Hdict).
  rewrite pattern_score_one_word by assumption. reflexivity.
Qed.

(** ["Temperatura"] scores once, for weather, although ["tempo"] is
    tried first; ["Pibinho"] scores for nothing although ["pib"] occurs in
    it. *)
Lemma X14_temperatura_e_pibinho :
  (NoDup (map fst (INTENT_PATTERNS the_QueryAnalyzer))
   /\ Forall (fun ip => Forall (fun p => [] ∉ Re.alternatives p) (snd ip))
             (INTENT_PATTERNS the_QueryAnalyzer)
   /\ str_lower (u "Pibinho") <> []
   /\ Forall word_char (str_lower (u "Pibinho")))
  /\ intent_scores_of the_QueryAnalyzer (str_lower (u "Pibinho"))
     = map (fun ip =>
              (fst ip,
               length (List.filter (fun p => has_alternative p (str_lower (u "Pibinho")))
                                   (snd ip))))
           (INTENT_PATTERNS the_QueryAnalyzer)
  /\ intent_scores_of the_QueryAnalyzer (str_lower (u "Pibinho"))
     = [(u "weather", 0%nat); (u "chart", 0%nat); (u "research", 0%nat)]
  /\ intent_scores_of the_QueryAnalyzer (str_lower (u "Temperatura"))
     = [(u "weather", 1%nat); (u "chart", 0%nat); (u "research", 0%nat)].
Proof.
  assert (Hdict : NoDup (map fst (INTENT_PATTERNS the_QueryAnalyzer))).
  { apply (bool_decide_unpack (NoDup _)). vm_compute. exact I. }
  assert (Hne : Forall (fun ip => Forall (fun p => [] ∉ Re.alternatives p) (snd ip))
                       (INTENT_PATTERNS the_QueryAnalyzer)).
  { unfold the_QueryAnalyzer. cbn [INTENT_PATTERNS].
    repeat (apply Forall_cons; split; cbn beta iota delta [snd]);
      try apply Forall_nil; try exact I;
      (intros Hin; apply list_elem_of_In in Hin; vm_compute in Hin;
       intuition discriminate). }
  assert (Hword : str_lower (u "Pibinho") <> []) by (vm_compute; discriminate).
  assert (Hs : Forall word_char (str_lower (u "Pibinho"))).
  { assert (Hw : forallb (fun c => is_word c && negb (is_space c))
                         (str_lower (u "Pibinho")) = true)
      by (vm_compute; reflexivity).
    rewrite forallb_forall in Hw. apply Forall_forall. intros c Hc.
    apply list_elem_of_In in Hc.
    specialize (Hw c Hc). apply andb_true_iff in Hw as [Hw Hsp].
    apply negb_true_iff in Hsp. split; assumption. }
  split; [auto|].
  split; [exact (X14_one_word_query the_QueryAnalyzer (u "Pibinho") Hdict Hne Hword Hs)|].
  split; vm_compute; reflexivity.
Defined.

(* ===================================================================== *)
(** ** generate_cache_key: the shape of a key                             *)
(* ===================================================================== *)

Lemma le_bytes_bytes (n : nat) (x : N) :
  length (MD5.le_bytes n x) = n /\ Forall (fun b => b < 0x100) (MD5.le_bytes n x).
Proof.
  unfold MD5.le_bytes. split; [rewrite length_map, length_seq; reflexivity|].
  apply Forall_forall. intros b Hb. apply list_elem_of_fmap in Hb as (i & -> & _).
  apply N.mod_lt. discriminate.
Qed.

Lemma digest_bytes (msg : list N) :
  length (MD5.digest msg) = 16%nat /\ Forall (fun b => b < 0x100) (MD5.digest msg).
Proof.
  unfold MD5.digest. cbv zeta. destruct (fold_left _ _ _) as [A B C D].
  split.
  - rewrite !length_app. rewrite !(proj1 (le_bytes_bytes 4 _)). reflexivity.
  - repeat (apply Forall_app; split); apply le_bytes_bytes.
Qed.

Lemma hex_digit_is_hex_digit (n : N) : n < 16 -> is_hex_digit (MD5.hex_digit n) = true.
Proof.
  intros Hn. unfold MD5.hex_digit, is_hex_digit.
  destruct (N.ltb_spec n 10).
  - apply orb_true_iff. left. apply andb_true_iff. split; apply N.leb_le; lia.
  - apply orb_true_iff. right. apply andb_true_iff. split; apply N.leb_le; lia.
Qed.

(** [hexdigest()] is 32 lower-case hexadecimal digits. *)
Lemma hexdigest_digits (msg : list N) :
  length (MD5.hexdigest msg) = 32%nat
  /\ forallb is_hex_digit (MD5.hexdigest msg) = true.
Proof.
  unfold MD5.hexdigest. destruct (digest_bytes msg) as [Hlen Hbytes].
  revert Hlen Hbytes. generalize (MD5.digest msg) as bs. intros bs Hlen Hbytes.
  assert (Hgen : length (flat_map (fun b => [MD5.hex_digit (b / 16);
                                             MD5.hex_digit (b mod 16)]) bs)
                 = (2 * length bs)%nat
                 /\ forallb is_hex_digit
                      (flat_map (fun b => [MD5.hex_digit (b / 16);
                                           MD5.hex_digit (b mod 16)]) bs) = true).
  { clear Hlen. induction Hbytes as [|b bs Hb Hbs [IHlen IHhex]]; [split; reflexivity|].
    cbn [flat_map app length forallb]. split; [rewrite IHlen; lia|].
    rewrite IHhex, !hex_digit_is_hex_digit; [reflexivity| |].
    - apply N.mod_lt. discriminate.
    - apply N.Div0.div_lt_upper_bound. exact Hb. }
  destruct Hgen as [Hl Hh]. split; [rewrite Hl, Hlen; reflexivity | exact Hh].
Qed.

Lemma forallb_firstn {A} (f : A -> bool) (n : nat) (l : list A) :
  forallb f l = true -> forallb f (firstn n l) = true.
Proof.
  revert n. induction l as [|a l IH]; intros [|n]; cbn [firstn forallb]; auto.
  intros [-> Hl]%andb_true_iff. cbn [andb]. apply IH. exact Hl.
Qed.

Lemma first_surrogate_None (s : str) (pos : nat) :
  first_surrogate pos s = None <-> existsb is_surrogate s = false.
Proof.
  revert pos. induction s as [|c r IH]; intros pos;
    cbn [first_surrogate existsb]; [split; reflexivity|].
  destruct (is_surrogate c); cbn [orb]; [split; discriminate | apply IH].
Qed.

Lemma str_encode_result (s : str) :
  match str_encode s with
  | Ok bytes => existsb is_surrogate s = false /\ bytes = flat_map encode_cp s
  | Raise e => existsb is_surrogate s = true
               /\ exists msg, e = Exception "UnicodeEncodeError" msg
  end.
Proof.
  unfold str_encode. pose proof (first_surrogate_None s 0) as Hnone.
  destruct (first_surrogate 0 s) as [[[start c] last]|].
  - split; [|eexists; reflexivity].
    destruct (existsb is_surrogate s); [reflexivity|].
    destruct Hnone as [_ Hnone]. discriminate (Hnone eq_refl).
  - split; [apply Hnone|]; reflexivity.
Qed.

(** X15. A cache key is the agent type, a colon and eight lower-case
    hexadecimal digits (the first 32 bits of the MD5 of the normalised
    query). [generate_cache_key] fails exactly when the normalised query
    holds a surrogate code point, which UTF-8 refuses; the exception is
    then a [UnicodeEncodeError]. *)
Theorem X15_cache_key_shape `{UnicodeData} (agent_type query : str) :
  match generate_cache_key agent_type query with
  | Ok key =>
      existsb is_surrogate (normalize_query query) = false
      /\ exists query_hash,
           key = agent_type ++ u ":" ++ query_hash
           /\ length query_hash = 8%nat
           /\ forallb is_hex_digit query_hash = true
           /\ length key = (length agent_type + 9)%nat
  | Raise e =>
      existsb is_surrogate (normalize_query query) = true
      /\ exists msg, e = Exception "UnicodeEncodeError" msg
  end.
Proof.
  unfold generate_cache_key. cbv zeta.
  pose proof (str_encode_result (normalize_query query)) as Henc.
  destruct (str_encode (normalize_query query)) as [encoded | e]; [|exact Henc].
  destruct Henc as [Hsur _]. split; [exact Hsur|].
  destruct (hexdigest_digits encoded) as [Hlen Hhex].
  exists (str_prefix 8 (MD5.hexdigest encoded)). split; [reflexivity|].
  assert (Hl : length (str_prefix 8 (MD5.hexdigest encoded)) = 8%nat).
  { unfold str_prefix. rewrite length_firstn, Hlen. reflexivity. }
  split; [exact Hl|]. split; [apply forallb_firstn; exact Hhex|].
  rewrite !length_app, Hl. replace (length (u ":")) with 1%nat by (vm_compute; reflexivity).
  lia.
Qed.

(** X16. A key tells its agent type: two calls that return the same key
    were given the same agent type, whatever the queries. Keys of different
    agent types never collide. *)
Theorem X16_key_names_its_agent_type `{UnicodeData}
  (agent_type1 agent_type2 query1 query2 key : str) :
  generate_cache_key agent_type1 query1 = Ok key ->
  generate_cache_key agent_type2 query2 = Ok key ->
  agent_type1 = agent_type2.
Proof.
  unfold generate_cache_key. cbv zeta.
  destruct (str_encode (normalize_query query1)) as [e1|]; [|discriminate].
  destruct (str_encode (normalize_query query2)) as [e2|]; [|discriminate].
  intros [= <-] [= Heq].
  assert (Hl : forall e, length (u ":" ++ str_prefix 8 (MD5.hexdigest e)) = 9%nat).
  { intros e. rewrite length_app. unfold str_prefix.
    rewrite length_firstn, (proj1 (hexdigest_digits e)). vm_compute. reflexivity. }
  destruct (app_inj_2 _ _ _ _ (eq_trans (Hl e2) (eq_sym (Hl e1))) Heq) as [-> _].
  reflexivity.
Qed.

(** ["system:67130af0"] is the key of ["PIB  São Paulo"] and of
    ["pib são paulo"] for the agent type ["system"], and of no query for
    another agent type. *)
Lemma X16_system_key :
  generate_cache_key (u "system") (u "PIB  São Paulo") = Ok (u "system:67130af0")
  /\ generate_cache_key (u "system") (u "pib são paulo") = Ok (u "system:67130af0")
  /\ u "system" = u "system".
Proof.
  assert (H1 : generate_cache_key (u "system") (u "PIB  São Paulo")
               = Ok (u "system:67130af0")) by (vm_compute; reflexivity).
  assert (H2 : generate_cache_key (u "system") (u "pib são paulo")
               = Ok (u "system:67130af0")) by (vm_compute; reflexivity).
  split; [exact H1|]. split; [exact H2|].
  exact (X16_key_names_its_agent_type _ _ _ _ _ H1 H2).
Defined.

(* ===================================================================== *)
(** ** CLIInterface.main_loop                                             *)
(* ===================================================================== *)

Section MainLoop.
Context `{UnicodeData}.

Lemma handle_cache_commands_terminal (query : str) (w : world) (out : list display) :
  exists shown, snd (handle_cache_commands query w out) = out ++ shown
                /\ activity (fst (handle_cache_commands query w out)) = activity w
                /\ clock (fst (handle_cache_commands query w out)) = clock w
                /\ alarm (fst (handle_cache_commands query w out)) = alarm w.
Proof.
  unfold handle_cache_commands.
  destruct (str_in (u "clear") _); [|destruct (str_in (u "info") _)]; cbn [fst snd].
  - eexists. split; [reflexivity|]. auto.
  - eexists. split; [reflexivity|]. auto.
  - exists []. rewrite app_nil_r. auto.
Qed.

Ltac next_prompt shown :=
  match goal with
  | Hnext : forall w1 out1 shown1, out1 = _ ++ shown1 -> _ |- _ =>
      eapply Hnext with (shown1 := shown); [ | | eassumption];
      [first [reflexivity | symmetry; apply app_nil_r | assumption]
      |first [reflexivity | assumption]]
  end.

Lemma prompts_end (self : BrazilianEconomyAgentSystem) (stdin : list stdin_event)
  (w : world) (out : list display) (s' : session) :
  prompts self stdin w out = Some s' ->
  exists pre ev shown,
    stdin = pre ++ ev :: unread s'
    /\ forallb (fun ev => negb (ends_session ev)) pre = true
    /\ ends_session ev = true
    /\ terminal s'
       = out ++ shown ++ [match ev with
                          | CtrlC _ => Interrupted
                          | Line _ _ => Goodbye
                          end]
    /\ running s' = match ev with
                    | CtrlC _ => true
                    | Line _ _ => false
                    end.
Proof.
  revert w out. induction stdin as [|ev stdin IH]; intros w out Hrun; [discriminate|].
  assert (Hnext : forall w1 out1 shown1,
             out1 = out ++ shown1 ->
             ends_session ev = false ->
             prompts self stdin w1 out1 = Some s' ->
             exists pre ev' shown,
               ev :: stdin = pre ++ ev' :: unread s'
               /\ forallb (fun ev => negb (ends_session ev)) pre = true
               /\ ends_session ev' = true
               /\ terminal s'
                  = out ++ shown ++ [match ev' with
                                     | CtrlC _ => Interrupted
                                     | Line _ _ => Goodbye
                                     end]
               /\ running s' = match ev' with
                               | CtrlC _ => true
                               | Line _ _ => false
                               end).
  { intros w1 out1 shown1 -> Hev Hrest.
    destruct (IH _ _ Hrest) as (pre & ev' & shown & -> & Hpre & Hev' & Hterm & Hrunning).
    exists (ev :: pre), ev', (shown1 ++ shown). split; [reflexivity|].
    split; [cbn [forallb]; rewrite Hev, Hpre; reflexivity|].
    split; [exact Hev'|]. split; [|exact Hrunning].
    rewrite Hterm, <- !app_assoc. reflexivity. }
  destruct ev as [wait text | wait].
  2: { injection Hrun as <-. exists [], (CtrlC wait), []. cbn [app unread terminal running].
       auto. }
  cbn [prompts] in Hrun. cbv zeta in Hrun. fold quit_words in Hrun.
  cbn [ends_session] in Hnext |- *.
  destruct (bool_decide (strip text = [])) eqn:Hblank.
  { next_prompt (@nil display). }
  cbn [negb andb] in Hnext.
  destruct (bool_decide (str_lower (strip text) ∈ quit_words)) eqn:Hquit.
  { injection Hrun as <-. exists [], (Line wait text), [].
    cbn [app unread terminal running ends_session]. rewrite Hblank, Hquit. auto. }
  destruct (bool_decide (_ ∈ map u ["help"; "ajuda"]%string));
    [next_prompt [Help]|].
  destruct (bool_decide (_ ∈ map u ["clear"; "limpar"]%string));
    [next_prompt [Banner]|].
  destruct (handle_cache_commands_terminal (strip text) (waited w wait) out)
    as (shown & Hshown & _).
  destruct (handle_cache_commands _ _ _) as [w' out']. cbn [snd] in Hshown.
  destruct (starts_with _ _); [next_prompt shown|].
  destruct (bool_decide (_ ∈ map u ["status"; "info"]%string));
    [next_prompt [Status]|].
  destruct (process_query self (strip text) _) as [[[result | e] w2]|];
    [next_prompt [Results result]
    |next_prompt [Unexpected (exc_str e)]
    |discriminate].
Qed.

(** X18. When [main_loop] returns, it is a quit word or a Ctrl-C that
    ended it, at the first of them in the input: nothing after it is read;
    the terminal only grew, and its last entry is the farewell of
    [handle_quit] or the notice of the interruption; [self.running] is
    cleared by a quit word and left set by Ctrl-C. *)
Theorem X18_loop_ends_at_quit_or_ctrl_c
  (self : BrazilianEconomyAgentSystem) (s s' : session) :
  running s = true ->
  main_loop self s = Some s' ->
  exists pre ev shown,
    unread s = pre ++ ev :: unread s'
    /\ forallb (fun ev => negb (ends_session ev)) pre = true
    /\ ends_session ev = true
    /\ terminal s'
       = terminal s ++ shown ++ [match ev with
                                 | CtrlC _ => Interrupted
                                 | Line _ _ => Goodbye
                                 end]
    /\ running s' = match ev with
                    | CtrlC _ => true
                    | Line _ _ => false
                    end.
Proof.
  unfold main_loop. intros ->. apply prompts_end.
Qed.

Lemma cache_line_is_no_other_command (text : str) (words : list string) :
  cache_line text ->
  forallb (fun word => negb (starts_with (u "cache") (u word))) words = true ->
  bool_decide (str_lower (strip text) ∈ map u words) = false.
Proof.
  intros [_ Hcache] Hwords. apply bool_decide_eq_false_2. intros Hin.
  apply list_elem_of_In, in_map_iff in Hin as (word & Heq & Hin).
  rewrite forallb_forall in Hwords. specialize (Hwords word Hin).
  rewrite Heq, Hcache in Hwords. discriminate.
Qed.

End MainLoop.

(** A session of four lines typed and a fifth never read. *)
Lemma X18_a_session :
  exists s',
    running (new_session (fresh_world Disarmed 0)
               [Line 2000000 (u " Help "); Line 0 (u "PIB do Brasil");
                Line 0 (u "cache info"); Line 0 (u " SAIR");
                Line 0 (u "PIB do Brasil")]) = true
    /\ main_loop (the_system (answers "R$ 10,9 trilhões" 1000000) hangs hangs)
         (new_session (fresh_world Disarmed 0)
            [Line 2000000 (u " Help "); Line 0 (u "PIB do Brasil");
             Line 0 (u "cache info"); Line 0 (u " SAIR");
             Line 0 (u "PIB do Brasil")]) = Some s'
    /\ exists pre ev shown,
         unread (new_session (fresh_world Disarmed 0)
                   [Line 2000000 (u " Help "); Line 0 (u "PIB do Brasil");
                    Line 0 (u "cache info"); Line 0 (u " SAIR");
                    Line 0 (u "PIB do Brasil")])
         = pre ++ ev :: unread s'
         /\ forallb (fun ev => negb (ends_session ev)) pre = true
         /\ ends_session ev = true
         /\ terminal s'
            = terminal (new_session (fresh_world Disarmed 0)
                   [Line 2000000 (u " Help "); Line 0 (u "PIB do Brasil");
                    Line 0 (u "cache info"); Line 0 (u " SAIR");
                    Line 0 (u "PIB do Brasil")])
              ++ shown ++ [match ev with
                           | CtrlC _ => Interrupted
                           | Line _ _ => Goodbye
                           end]
         /\ running s' = match ev with
                         | CtrlC _ => true
                         | Line _ _ => false
                         end.
Proof.
  assert (Hrun : exists s',
             main_loop (the_system (answers "R$ 10,9 trilhões" 1000000) hangs hangs)
               (new_session (fresh_world Disarmed 0)
                  [Line 2000000 (u " Help "); Line 0 (u "PIB do Brasil");
                   Line 0 (u "cache info"); Line 0 (u " SAIR");
                   Line 0 (u "PIB do Brasil")]) = Some s')
    by (eexists; vm_compute; reflexivity).
  destruct Hrun as [s' Hrun]. exists s'.
  split; [reflexivity|]. split; [exact Hrun|].
  refine (X18_loop_ends_at_quit_or_ctrl_c _ _ s' _ Hrun). reflexivity.
Defined.

(* ===================================================================== *)
(** ** CLIInterface.main_loop, pass by pass                               *)
(* ===================================================================== *)

Section MainLoopPasses.
Context `{UnicodeData}.
Variable print : str -> res unit.
Variable show_help : Console.session -> option (res unit * Console.session).
Variable clear_screen : Console.session -> option (res unit * Console.session).
Variable show_status : Console.session -> option (res unit * Console.session).
Variable process_and_display_query :
  str -> Console.session -> option (res unit * Console.session).

Lemma say_all_accepted (lines : list str) (s : Console.session) :
  accepts print lines ->
  Console.say_all print lines s
  = (Ok tt, session_after s (Console.process s) lines (Console.unread s)).
Proof.
  revert s. induction lines as [|line lines IH]; intros s Hall.
  - cbn [Console.say_all]. unfold session_after. rewrite app_nil_r.
    destruct s; reflexivity.
  - cbn [Console.say_all]. rewrite (Forall_inv Hall), (IH _ (Forall_inv_tail Hall)).
    unfold session_after, Console.wrote.
    cbn [Console.running Console.process Console.written Console.unread].
    rewrite <- app_assoc. reflexivity.
Qed.

(** A pass at the end of standard input: [input] writes its prompt and
    raises [EOFError], [except Exception] prints its line, and the loop
    goes on. *)
Lemma pass_at_end_of_input (s : Console.session) :
  Console.unread s = [] ->
  (forall due, alarm (Console.process s) <> Armed due) ->
  accepts print end_of_input_lines ->
  Console.pass print show_help clear_screen show_status process_and_display_query s
  = Some (Console.Again (session_after s (Console.process s) end_of_input_lines [])).
Proof.
  intros Hend Hquiet Hall.
  pose proof (Forall_inv Hall) as Hprompt.
  pose proof (Forall_inv (Forall_inv_tail Hall)) as Hline. cbn beta in Hprompt, Hline.
  unfold Console.pass, Console.input. rewrite Hprompt.
  cbn [Console.wrote Console.unread Console.process]. rewrite Hend.
  destruct (alarm (Console.process s)) as [| |due] eqn:Ha;
    [| |exfalso; exact (Hquiet due eq_refl)];
    unfold Console.on_exception; rewrite Hline;
    unfold session_after, Console.wrote, end_of_input_lines;
    cbn [Console.running Console.process Console.written Console.unread];
    rewrite <- app_assoc, Hend; reflexivity.
Qed.

Lemma passes_at_end_of_input (n : nat) (s : Console.session) :
  Console.running s = true ->
  Console.unread s = [] ->
  (forall due, alarm (Console.process s) <> Armed due) ->
  accepts print end_of_input_lines ->
  Console.passes print show_help clear_screen show_status process_and_display_query n s
  = Some (Console.Looping
            (session_after s (Console.process s)
               (concat (repeat end_of_input_lines n)) [])).
Proof.
  intros Hrunning Hend Hquiet Hall. revert s Hrunning Hend Hquiet.
  induction n as [|n IH]; intros s Hrunning Hend Hquiet.
  - cbn [Console.passes repeat concat]. unfold session_after.
    rewrite app_nil_r, <- Hend. destruct s; reflexivity.
  - cbn [Console.passes].
    rewrite Hrunning, (pass_at_end_of_input s Hend Hquiet Hall).
    rewrite IH by (try exact Hrunning; try exact Hquiet; reflexivity).
    unfold session_after.
    cbn [Console.running Console.process Console.written Console.unread repeat concat].
    rewrite <- app_assoc. reflexivity.
Qed.

(** X17. The end of standard input does not end the loop. With standard
    input at its end and no alarm armed, every pass of the loop goes the
    same way: [input] writes its prompt and raises [EOFError], which
    [except Exception] catches; its line is printed and the loop goes on.
    So after any number of passes [main_loop] is still in its loop, with
    [self.running] set, the process state untouched, and the two lines
    written once more by each pass. The standard output is taken to accept
    the lines printed. *)
Theorem X17_end_of_input_never_ends_the_loop (s : Console.session) (n : nat) :
  Console.running s = true ->
  Console.unread s = [] ->
  (forall due, alarm (Console.process s) <> Armed due) ->
  accepts print (Console.opening_lines ++ end_of_input_lines) ->
  Console.main_loop print show_help clear_screen show_status
                    process_and_display_query n s
  = Some (Console.Looping
            (session_after s (Console.process s)
               (Console.opening_lines ++ concat (repeat end_of_input_lines n)) [])).
Proof.
  intros Hrunning Hend Hquiet Hall. unfold accepts in Hall.
  apply Forall_app in Hall as [Hopen Hloop].
  unfold Console.main_loop. rewrite (say_all_accepted _ _ Hopen).
  rewrite passes_at_end_of_input;
    [|exact Hrunning|exact Hend|exact Hquiet|exact Hloop].
  unfold session_after.
  cbn [Console.running Console.process Console.written Console.unread].
  rewrite <- app_assoc. reflexivity.
Qed.

(** [input] when no alarm falls due while it waits for a line. *)
Lemma input_line (s : Console.session) (wait : N) (text : str)
  (rest : list stdin_event) :
  Console.unread s = Line wait text :: rest ->
  (forall due, alarm (Console.process s) = Armed due ->
               (clock (Console.process s) + Z.of_N wait < due)%Z) ->
  print Console.prompt = Ok tt ->
  Console.input print s
  = (Console.Typed text,
     session_after s (waited (Console.process s) wait) [Console.prompt] rest).
Proof.
  intros Hunread Halarm Hprompt. unfold Console.input. rewrite Hprompt.
  cbn [Console.wrote Console.unread Console.process]. rewrite Hunread.
  cbn [Console.wait_of]. unfold Console.alarm_due_by.
  destruct (alarm (Console.process s)) as [| |due] eqn:Ha; try reflexivity.
  destruct (Z.leb_spec due (clock (Console.process s) + Z.of_N wait));
    [specialize (Halarm due eq_refl); lia | reflexivity].
Qed.

(** X19. A line that begins with ["cache"] (blanks and letter case
    apart), typed while no alarm falls due, is handled by
    [handle_cache_commands] and by no other method, whatever follows the
    word: the pass is the same whatever the other methods are, and the
    activity log is as it was. If the line contains ["clear"] the cache is
    emptied, so nothing is cached under any key afterwards, and one line is
    printed; otherwise the cache is untouched, and the three lines that
    give the number of its entries are printed if the line contains
    ["info"], else nothing is printed. The loop then goes on to the next
    prompt. The standard output is taken to accept the lines printed. *)
Theorem X19_cache_lines_never_reach_the_agents (s : Console.session) (wait : N)
  (text : str) (rest : list stdin_event) :
  Console.unread s = Line wait text :: rest ->
  cache_line text ->
  (forall due, alarm (Console.process s) = Armed due ->
               (clock (Console.process s) + Z.of_N wait < due)%Z) ->
  print Console.prompt = Ok tt ->
  let w := waited (Console.process s) wait in
  let query_lower := str_lower (strip text) in
  let pass := Console.pass print show_help clear_screen show_status
                           process_and_display_query s in
  (forall show_help' clear_screen' show_status' process_and_display_query',
     pass = Console.pass print show_help' clear_screen' show_status'
                         process_and_display_query' s)
  /\ (occurs_in (u "clear") query_lower ->
      print Console.cache_cleared_line = Ok tt ->
      pass = Some (Console.Again
                     (session_after s (cache_cleared w)
                        [Console.prompt; Console.cache_cleared_line] rest))
      /\ activity (cache_cleared w) = activity (Console.process s)
      /\ forall key, cached_at (cache_cleared w) key = None)
  /\ (~ occurs_in (u "clear") query_lower ->
      occurs_in (u "info") query_lower ->
      let info := Console.cache_info_lines
                    (size (CacheManager.cache (cache_manager (Console.process s)))) in
      accepts print info ->
      pass = Some (Console.Again (session_after s w (Console.prompt :: info) rest)))
  /\ (~ occurs_in (u "clear") query_lower ->
      ~ occurs_in (u "info") query_lower ->
      pass = Some (Console.Again (session_after s w [Console.prompt] rest))).
Proof.
  intros Hunread Hline Halarm Hprompt. cbv zeta.
  assert (Hpass : forall sh cs ss padq,
             Console.pass print sh cs ss padq s
             = Console.then_continue print
                 (Some (Console.handle_cache_commands print (strip text)
                          (session_after s (waited (Console.process s) wait)
                             [Console.prompt] rest)))).
  { intros sh cs ss padq. unfold Console.pass.
    rewrite (input_line s wait text rest Hunread Halarm Hprompt). cbv zeta.
    rewrite (bool_decide_eq_false_2 (strip text = [])) by apply Hline.
    rewrite !(cache_line_is_no_other_command text) by (exact Hline || reflexivity).
    rewrite (proj2 Hline). reflexivity. }
  split; [intros; rewrite !Hpass; reflexivity|].
  rewrite Hpass. unfold Console.handle_cache_commands, Console.then_continue.
  pose proof (str_in_spec (u "clear") (str_lower (strip text))) as Hclear.
  pose proof (str_in_spec (u "info") (str_lower (strip text))) as Hinfo.
  split; [|split].
  - intros Hocc Hsaid. apply Hclear in Hocc. rewrite Hocc.
    cbn [Console.say_all]. rewrite Hsaid.
    split; [|split].
    + unfold session_after, Console.wrote, Console.with_process, cache_cleared.
      cbn [Console.running Console.process Console.written Console.unread].
      rewrite <- app_assoc. reflexivity.
    + reflexivity.
    + intros key. unfold cached_at, cache_cleared. cbn. apply lookup_empty.
  - intros Hno Hocc. cbv zeta. intros Hsaid.
    destruct (str_in (u "clear") _); [exfalso; apply Hno, Hclear; reflexivity|].
    apply Hinfo in Hocc. rewrite Hocc.
    rewrite (say_all_accepted _ _ Hsaid).
    unfold session_after.
    cbn [Console.running Console.process Console.written Console.unread].
    unfold waited. world_simpl.
    rewrite <- app_assoc. reflexivity.
  - intros Hno Hni.
    destruct (str_in (u "clear") _); [exfalso; apply Hno, Hclear; reflexivity|].
    destruct (str_in (u "info") _); [exfalso; apply Hni, Hinfo; reflexivity|].
    reflexivity.
Qed.

End MainLoopPasses.

(** Standard input at its end when [main_loop] is entered, as when the
    program is started with its input closed: three passes later the loop
    is still going. *)
Lemma X17_input_closed :
  let s := {| Console.running := true; Console.process := fresh_world Disarmed 0;
              Console.written := []; Console.unread := [] |} in
  Console.main_loop Console.utf8_strict Console.returns_at_once
    Console.returns_at_once Console.returns_at_once
    (fun _ => Console.returns_at_once) 3 s
  = Some (Console.Looping
            (session_after s (Console.process s)
               (Console.opening_lines ++ concat (repeat end_of_input_lines 3)) [])).
Proof.
  cbv zeta.
  apply (X17_end_of_input_never_ends_the_loop Console.utf8_strict
           Console.returns_at_once Console.returns_at_once Console.returns_at_once
           (fun _ => Console.returns_at_once)).
  - reflexivity.
  - reflexivity.
  - intros due. vm_compute; discriminate.
  - apply accepts_by_computation. vm_compute; reflexivity.
Defined.

(** ["Cache de dados: info sobre o PIB, clear?"] begins with ["cache"] and
    contains ["clear"]: the cache is emptied. *)
Lemma X19_cache_de_dados :
  let text := u "Cache de dados: info sobre o PIB, clear?" in
  let s := {| Console.running := true; Console.process := fresh_world Disarmed 0;
              Console.written := []; Console.unread := [Line 0 text] |} in
  let w := waited (Console.process s) 0 in
  cache_line text
  /\ occurs_in (u "clear") (str_lower (strip text))
  /\ Console.pass Console.utf8_strict Console.returns_at_once Console.returns_at_once
       Console.returns_at_once (fun _ => Console.returns_at_once) s
     = Some (Console.Again
               (session_after s (cache_cleared w)
                  [Console.prompt; Console.cache_cleared_line] []))
  /\ activity (cache_cleared w) = activity (Console.process s)
  /\ forall key, cached_at (cache_cleared w) key = None.
Proof.
  cbv zeta.
  assert (Hline : cache_line (u "Cache de dados: info sobre o PIB, clear?")).
  { split; [vm_compute; discriminate | vm_compute; reflexivity]. }
  assert (Hclear : occurs_in (u "clear")
                     (str_lower (strip (u "Cache de dados: info sobre o PIB, clear?")))).
  { apply str_in_spec. vm_compute; reflexivity. }
  split; [exact Hline|]. split; [exact Hclear|].
  pose proof (X19_cache_lines_never_reach_the_agents Console.utf8_strict
                Console.returns_at_once Console.returns_at_once
                Console.returns_at_once (fun _ => Console.returns_at_once)
                {| Console.running := true; Console.process := fresh_world Disarmed 0;
                   Console.written := [];
                   Console.unread :=
                     [Line 0 (u "Cache de dados: info sobre o PIB, clear?")] |}
                0 (u "Cache de dados: info sobre o PIB, clear?") []) as Hx19.
  cbv zeta in Hx19.
  destruct Hx19 as (_ & Hcleared & _).
  - reflexivity.
  - exact Hline.
  - intros due. vm_compute; discriminate.
  - vm_compute; reflexivity.
  - apply Hcleared; [exact Hclear | vm_compute; reflexivity].
Defined.

(* ===================================================================== *)
(** ** tools.py: _enhance_search_query                                    *)
(* ===================================================================== *)

Lemma enhance_with_first (items : list (str * str)) (query_lower query : str) :
  (Forall (fun te => ~ occurs_in (fst te) query_lower) items
   /\ enhance_with items query_lower query = query)
  \/ exists pre term enhancement post,
       items = pre ++ (term, enhancement) :: post
       /\ Forall (fun te => ~ occurs_in (fst te) query_lower) pre
       /\ occurs_in term query_lower
       /\ enhance_with items query_lower query = query ++ u " " ++ enhancement.
Proof.
  induction items as [|[term enhancement] rest IH]; cbn [enhance_with].
  - left. split; [constructor | reflexivity].
  - destruct (str_in term query_lower) eqn:Hin.
    + right. exists [], term, enhancement, rest.
      split; [reflexivity|]. split; [constructor|].
      split; [apply str_in_spec; exact Hin | reflexivity].
    + assert (Hno : ~ occurs_in term query_lower)
        by (intros Hocc; apply str_in_spec in Hocc; congruence).
      destruct IH as [[Hall Heq] | (pre & t & e & post & -> & Hpre & Hocc & Heq)].
      * left. split; [constructor; [exact Hno | exact Hall] | exact Heq].
      * right. exists ((term, enhancement) :: pre), t, e, post.
        split; [reflexivity|]. split; [constructor; [exact Hno | exact Hpre]|].
        split; [exact Hocc | exact Heq].
Qed.

(** X20. The search query sent to the engine keeps the text it was
    given, unchanged, at its start, and always ends with the filter on
    government sites. Between them comes at most one enhancement: that of
    the first term of the table, in the order the table is written, that
    occurs in the lower-cased query; terms listed later are not looked at.
    With no term in the query, only the filter is added. *)
Theorem X20_search_query_enhancement `{UnicodeData} (query : str) :
  (exists added,
     _enhance_search_query query = query ++ added ++ u " " ++ reliable_sources)
  /\ ((forall term enhancement,
         (term, enhancement) ∈ enhancements -> ~ occurs_in term (str_lower query)) ->
      _enhance_search_query query = query ++ u " " ++ reliable_sources)
  /\ (forall pre term enhancement post,
        enhancements = pre ++ (term, enhancement) :: post ->
        Forall (fun te => ~ occurs_in (fst te) (str_lower query)) pre ->
        occurs_in term (str_lower query) ->
        _enhance_search_query query
        = query ++ u " " ++ enhancement ++ u " " ++ reliable_sources).
Proof.
  unfold _enhance_search_query. cbv zeta.
  destruct (enhance_with_first enhancements (str_lower query) query)
    as [[Hall Heq] | (pre & term & enhancement & post & Htable & Hpre & Hocc & Heq)];
    rewrite Heq.
  - split; [exists []; rewrite app_nil_l; reflexivity|]. split; [reflexivity|].
    intros pre term enhancement post Htable _ Hocc. exfalso.
    rewrite Htable in Hall. apply Forall_app in Hall as [_ Hall].
    apply Forall_cons in Hall as [Hno _]. exact (Hno Hocc).
  - split; [exists (u " " ++ enhancement); rewrite <- !app_assoc; reflexivity|].
    split.
    + intros Hnone. exfalso. apply (Hnone term enhancement); [|exact Hocc].
      rewrite Htable. apply elem_of_app. right. apply list_elem_of_here.
    + intros pre' term' enhancement' post' Htable' Hpre' Hocc'.
      rewrite <- !app_assoc.
      assert (Hsame : pre = pre' /\ (term, enhancement) = (term', enhancement')).
      { rewrite Htable in Htable'. clear - Htable' Hpre Hpre' Hocc Hocc'.
        revert pre' Htable' Hpre'. induction pre as [|x pre IH]; intros [|y pre'] Heq Hpre'.
        - injection Heq as -> ->. auto.
        - injection Heq as <- _. apply Forall_cons in Hpre' as [Hno _].
          contradiction.
        - injection Heq as -> _. apply Forall_cons in Hpre as [Hno _].
          contradiction.
        - injection Heq as -> Heq. apply Forall_cons in Hpre as [_ Hpre].
          apply Forall_cons in Hpre' as [_ Hpre'].
          destruct (IH Hpre pre' Heq Hpre') as [-> Hte]. auto. }
      destruct Hsame as [_ [= <- <-]]. reflexivity.
Qed.

(** ["Clima e economia de Município"] gets the enhancement of
    ["economia"], the first term of the table it contains: that of ["clima"]
    is not added, and ["municipio"], written without its accent in the
    table, is not found in ["município"]. *)
Lemma X20_clima_e_economia :
  (enhancements
   = [(u "pib", u "PIB Brasil dados oficiais IBGE")]
       ++ (u "economia", u "economia brasileira dados oficiais")
       :: [(u "municipio", u "município Brasil dados IBGE");
           (u "cidade", u "cidade Brasil economia PIB");
           (u "clima", u "clima tempo Brasil INMET");
           (u "temperatura", u "temperatura clima Brasil")]
   /\ Forall (fun te => ~ occurs_in (fst te) (str_lower (u "Clima e economia de Município")))
             [(u "pib", u "PIB Brasil dados oficiais IBGE")]
   /\ occurs_in (u "economia") (str_lower (u "Clima e economia de Município"))
   /\ ~ occurs_in (u "municipio") (str_lower (u "Clima e economia de Município")))
  /\ _enhance_search_query (u "Clima e economia de Município")
     = u "Clima e economia de Município" ++ u " "
         ++ u "economia brasileira dados oficiais" ++ u " " ++ reliable_sources.
Proof.
  assert (Hpre : Forall (fun te => ~ occurs_in (fst te)
                                     (str_lower (u "Clima e economia de Município")))
                        [(u "pib", u "PIB Brasil dados oficiais IBGE")]).
  { constructor; [|constructor]. intros Hocc. apply str_in_spec in Hocc.
    vm_compute in Hocc. discriminate. }
  assert (Hocc : occurs_in (u "economia") (str_lower (u "Clima e economia de Município")))
    by (apply str_in_spec; vm_compute; reflexivity).
  assert (Hmun : ~ occurs_in (u "municipio")
                   (str_lower (u "Clima e economia de Município"))).
  { intros H. apply str_in_spec in H. vm_compute in H. discriminate. }
  split; [split; [reflexivity | auto]|].
  exact (proj2 (proj2 (X20_search_query_enhancement (u "Clima e economia de Município")))
           [(u "pib", u "PIB Brasil dados oficiais IBGE")]
           (u "economia") (u "economia brasileira dados oficiais")
           [(u "municipio", u "município Brasil dados IBGE");
            (u "cidade", u "cidade Brasil economia PIB");
            (u "clima", u "clima tempo Brasil INMET");
            (u "temperatura", u "temperatura clima Brasil")]
           eq_refl Hpre Hocc).
Defined.

(* ===================================================================== *)
(** ** tools.py: _enhance_python_code                                     *)
(* ===================================================================== *)

Lemma filter_found {A B} (c : A -> bool) (f : A -> B) (g : B -> bool) (l : list A) :
  List.filter g (flat_map (fun a => if c a then [f a] else []) l)
  = flat_map (fun a => if c a && g (f a) then [f a] else []) l.
Proof.
  induction l as [|a l IH]; [reflexivity|].
  cbn [flat_map]. rewrite List.filter_app, IH.
  destruct (c a); cbn [andb List.filter app]; [|reflexivity].
  destruct (g (f a)); reflexivity.
Qed.

(** What [_enhance_python_code] returns: the code, after the block of the
    imports it lacks. *)
Lemma enhance_python_code_eq (code : str) :
  _enhance_python_code code = imports_block (new_imports_of code) ++ code.
Proof.
  unfold _enhance_python_code. cbv zeta.
  assert (Hnew : forall needed,
             needed = flat_map (fun lib : list str * str =>
                                  if any_in (fst lib) code then [snd lib] else [])
                               known_imports ->
             List.filter
               (fun imp => negb (bool_decide
                             (imp ∈ List.filter (fun imp => str_in imp code) needed)))
               needed
             = new_imports_of code).
  { intros needed ->. rewrite (List.filter_ext_in _ (fun imp => negb (str_in imp code))).
    - unfold new_imports_of.
      apply (filter_found (fun lib : list str * str => any_in (fst lib) code) snd
                          (fun imp => negb (str_in imp code))).
    - intros imp Hin. f_equal. destruct (str_in imp code) eqn:Hcode.
      + apply bool_decide_eq_true_2, list_elem_of_In, filter_In. auto.
      + apply bool_decide_eq_false_2. intros Hex.
        apply list_elem_of_In, filter_In in Hex as [_ Hex]. congruence. }
  specialize (Hnew _ eq_refl). rewrite Hnew. revert Hnew.
  destruct (flat_map _ known_imports) as [|imp needed']; intros Hnew.
  - cbn [List.filter] in Hnew. rewrite <- Hnew. reflexivity.
  - unfold imports_block. destruct (new_imports_of code); reflexivity.
Qed.

(** X21. [_enhance_python_code] never alters the code it is given: it
    returns it as it is or after a block of import lines ended by a blank
    line. The block holds, in the order matplotlib, seaborn, pandas, numpy,
    the import line of each library that some text of the code calls for
    and whose import line does not occur in the code, and no other line;
    with no such library the code comes back unchanged. *)
Theorem X21_python_code_keeps_the_code (code : str) :
  exists new_imports,
    _enhance_python_code code = imports_block new_imports ++ code
    /\ new_imports `sublist_of` map snd known_imports
    /\ (forall imp,
          imp ∈ new_imports
          <-> exists markers,
                (markers, imp) ∈ known_imports
                /\ mentions markers code /\ ~ occurs_in imp code)
    /\ (new_imports = [] <-> _enhance_python_code code = code).
Proof.
  exists (new_imports_of code). split; [apply enhance_python_code_eq|].
  assert (Hgen : forall libs,
             let new := flat_map (fun lib : list str * str =>
                                    if any_in (fst lib) code
                                       && negb (str_in (snd lib) code)
                                    then [snd lib] else []) libs in
             new `sublist_of` map snd libs
             /\ forall imp, imp ∈ new
                            <-> exists markers,
                                  (markers, imp) ∈ libs
                                  /\ mentions markers code /\ ~ occurs_in imp code).
  { induction libs as [|[markers imp0] libs [IHsub IHin]]; cbn [flat_map map snd fst].
    - split; [constructor|]. intros imp. split.
      + intros Hin. apply elem_of_nil in Hin. contradiction.
      + intros (markers & Hin & _). apply elem_of_nil in Hin. contradiction.
    - pose proof (any_in_spec markers code) as Hany.
      pose proof (str_in_spec imp0 code) as Hstr. fold (mentions markers code) in Hany.
      split.
      + destruct (any_in markers code && negb (str_in imp0 code)); cbn [app];
          [apply sublist_skip | apply sublist_cons]; exact IHsub.
      + intros imp. rewrite elem_of_app, IHin. split.
        * intros [Hhere | (ms & Hin & Hm & Hno)].
          -- destruct (any_in markers code) eqn:Ha;
               [|apply elem_of_nil in Hhere; contradiction].
             destruct (str_in imp0 code) eqn:Hs;
               [apply elem_of_nil in Hhere; contradiction|].
             apply list_elem_of_singleton in Hhere as ->. exists markers.
             split; [apply list_elem_of_here|]. split; [apply Hany; reflexivity|].
             intros Hocc. apply Hstr in Hocc. discriminate.
          -- exists ms. split; [apply list_elem_of_further; exact Hin | auto].
        * intros (ms & [[= -> ->] | Hin]%elem_of_cons & Hm & Hno).
          -- left. apply Hany in Hm. rewrite Hm.
             destruct (str_in imp0 code); [exfalso; apply Hno, Hstr; reflexivity|].
             apply list_elem_of_here.
          -- right. exists ms. auto. }
  destruct (Hgen known_imports) as [Hsub Hin].
  split; [exact Hsub|]. split; [exact Hin|].
  rewrite enhance_python_code_eq. split.
  - intros ->. reflexivity.
  - intros Heq. destruct (new_imports_of code) as [|imp new]; [reflexivity|].
    exfalso. apply (f_equal (@length N)) in Heq. unfold imports_block in Heq.
    rewrite !length_app in Heq. cbn [length] in Heq. lia.
Qed.

Lemma occurs_in_app_l (x a b : str) : occurs_in x a -> occurs_in x (a ++ b).
Proof.
  intros (before & after & ->). exists before, (after ++ b).
  rewrite <- !app_assoc. reflexivity.
Qed.

Lemma occurs_in_app_r (x a b : str) : occurs_in x b -> occurs_in x (a ++ b).
Proof.
  intros (before & after & ->). exists (a ++ before), after.
  rewrite <- !app_assoc. reflexivity.
Qed.

(** A text of one line that occurs in a text occurs before or after any
    of its line feeds. *)
Lemma occurs_beside_line_feed (x a c : str) :
  one_line x = true ->
  occurs_in x ((a ++ [0x0A]) ++ c) -> occurs_in x (a ++ [0x0A]) \/ occurs_in x c.
Proof.
  intros Hx (before & after & Heq).
  assert (Hnl : ~ In 0x0A x).
  { destruct x as [|c0 x']; [discriminate|]. cbn [one_line] in Hx.
    rewrite forallb_forall in Hx. intros Hin. specialize (Hx _ Hin). discriminate. }
  apply app_eq_app in Heq as [l [[Ha Hxa] | [Hb Hc]]].
  - symmetry in Hxa. apply app_eq_app in Hxa as [l' [[Hl Hafter] | [Hxl Hc]]].
    + left. exists before, l'. rewrite Ha, Hl. reflexivity.
    + destruct l as [|c0 l0] using rev_ind.
      * right. cbn [app] in Hxl. subst l'. exists [], after. exact Hc.
      * exfalso. rewrite app_assoc in Ha. apply app_inj_tail in Ha as [_ <-].
        apply Hnl. rewrite Hxl. apply in_or_app. left. apply in_or_app. right.
        left. reflexivity.
  - right. exists l, after. exact Hc.
Qed.

Lemma imports_block_shape (new_imports : list str) :
  imports_block new_imports = []
  \/ exists a, imports_block new_imports = a ++ [0x0A].
Proof.
  destruct new_imports as [|imp new]; [left; reflexivity|]. right.
  unfold imports_block. exists (str_join [0x0A] (imp :: new) ++ [0x0A]).
  rewrite <- app_assoc. reflexivity.
Qed.

Lemma str_in_block (x : str) (new_imports : list str) (code : str) :
  one_line x = true ->
  str_in x (imports_block new_imports ++ code)
  = str_in x (imports_block new_imports) || str_in x code.
Proof.
  intros Hx. destruct (imports_block_shape new_imports) as [-> | [a ->]].
  - cbn [app]. destruct x; [discriminate | reflexivity].
  - apply eq_true_iff_eq. rewrite orb_true_iff, !str_in_spec. split.
    + apply occurs_beside_line_feed. exact Hx.
    + intros [Hocc | Hocc]; [apply occurs_in_app_l | apply occurs_in_app_r]; exact Hocc.
Qed.

Lemma any_in_block (markers : list str) (new_imports : list str) (code : str) :
  forallb one_line markers = true ->
  any_in markers (imports_block new_imports ++ code)
  = any_in markers (imports_block new_imports) || any_in markers code.
Proof.
  unfold any_in. induction markers as [|m ms IH]; [reflexivity|].
  cbn [forallb existsb]. intros [Hm Hms]%andb_true_iff.
  rewrite (str_in_block m _ _ Hm), (IH Hms).
  destruct (str_in m (imports_block new_imports)), (str_in m code),
    (existsb _ ms), (existsb _ ms); reflexivity.
Qed.

(** The code [_enhance_python_code] returns lacks no import. *)
Lemma enhanced_code_lacks_no_import (code : str) :
  new_imports_of (imports_block (new_imports_of code) ++ code) = [].
Proof.
  unfold new_imports_of at 1. unfold known_imports at 1. cbn [flat_map fst snd].
  rewrite !any_in_block by (vm_compute; reflexivity).
  rewrite !str_in_block by (vm_compute; reflexivity).
  unfold new_imports_of, known_imports. cbn [flat_map fst snd].
  destruct (any_in [u "plt."; u "pyplot"] code),
    (str_in (u "import matplotlib.pyplot as plt") code),
    (any_in [u "sns."; u "seaborn"] code),
    (str_in (u "import seaborn as sns") code),
    (any_in [u "pd."; u "DataFrame"] code),
    (str_in (u "import pandas as pd") code),
    (any_in [u "np."; u "numpy"] code),
    (str_in (u "import numpy as np") code);
    vm_compute; reflexivity.
Qed.

(** X22. [_enhance_python_code] applied to what it returned changes
    nothing: no import line is ever added twice, and the lines it adds call
    for no further import. *)
Theorem X22_python_code_enhanced_once (code : str) :
  _enhance_python_code (_enhance_python_code code) = _enhance_python_code code.
Proof.
  rewrite (enhance_python_code_eq code).
  rewrite (enhance_python_code_eq (imports_block (new_imports_of code) ++ code)).
  rewrite enhanced_code_lacks_no_import. reflexivity.
Qed.

(* ===================================================================== *)
(** ** DataValidator.validate_chart_data                                  *)
(* ===================================================================== *)

Lemma point_errors_length (data : list PyPoint) (i : nat) :
  length (point_errors i data)
  = length (List.filter (fun point => negb (complete_point point)) data).
Proof.
  revert i. induction data as [|point rest IH]; intros i; [reflexivity|].
  cbn [point_errors List.filter]. rewrite length_app, IH.
  destruct point as [keys|]; cbn [complete_point].
  - destruct (bool_decide (u "x" ∈ keys)), (bool_decide (u "y" ∈ keys)); reflexivity.
  - reflexivity.
Qed.

Lemma point_errors_name_the_point (data : list PyPoint) (i0 i : nat) (point : PyPoint) :
  nth_error data i = Some point ->
  complete_point point = false ->
  (u "Ponto " ++ str_of_nat (i0 + i)
     ++ match point with
        | NotADict => u " não é um dicionário válido"
        | PointDict _ => u " missing 'x' or 'y' coordinates"
        end)
  ∈ point_errors i0 data.
Proof.
  revert i0 i. induction data as [|p rest IH]; intros i0 [|i] Hnth Hbad;
    try discriminate; cbn [nth_error point_errors] in *.
  - injection Hnth as ->. rewrite Nat.add_0_r. apply elem_of_app. left.
    destruct point as [keys|]; cbn [complete_point] in Hbad.
    + rewrite <- negb_andb, Hbad. apply list_elem_of_here.
    + apply list_elem_of_here.
  - apply elem_of_app. right. rewrite <- Nat.add_succ_comm. apply IH; assumption.
Qed.

(** X23. [validate_chart_data] reports one error for a list of fewer
    than two points and one error for each point that is not a dict or
    lacks the key ['x'] or ['y'], and nothing else. So the data is valid
    exactly when it has at least two points and every point is a dict with
    both keys; the empty list and a single complete point are invalid. The
    error of a point names the point by its index in the list, from 0. *)
Theorem X23_chart_data_valid (data : list PyPoint) :
  length (snd (validate_chart_data data))
  = ((if (length data <? 2)%nat then 1 else 0)
     + length (List.filter (fun point => negb (complete_point point)) data))%nat
  /\ (fst (validate_chart_data data) = true
      <-> (2 <= length data)%nat /\ forallb complete_point data = true)
  /\ (fst (validate_chart_data data) = true <-> snd (validate_chart_data data) = [])
  /\ (length (snd (validate_chart_data data)) <= length data + 1)%nat
  /\ (forall i point,
        nth_error data i = Some point ->
        complete_point point = false ->
        (u "Ponto " ++ str_of_nat i
           ++ match point with
              | NotADict => u " não é um dicionário válido"
              | PointDict _ => u " missing 'x' or 'y' coordinates"
              end)
        ∈ snd (validate_chart_data data)).
Proof.
  unfold validate_chart_data. cbv zeta. cbn [fst snd].
  assert (Hlen : length ((if (length data <? 2)%nat
                          then [u "Dados insuficientes para gráfico (mínimo 2 pontos)"]
                          else []) ++ point_errors 0 data)
                 = ((if (length data <? 2)%nat then 1 else 0)
                    + length (List.filter (fun point => negb (complete_point point))
                                          data))%nat).
  { rewrite length_app, point_errors_length. destruct (length data <? 2)%nat; reflexivity. }
  assert (Hbad : length (List.filter (fun point => negb (complete_point point)) data)
                 = 0%nat <-> forallb complete_point data = true).
  { clear. induction data as [|point rest IH]; [split; reflexivity|].
    cbn [List.filter forallb]. destruct (complete_point point); cbn [negb andb length].
    - exact IH.
    - split; discriminate. }
  pose proof (List.filter_length_le (fun point => negb (complete_point point)) data)
    as Hle.
  split; [exact Hlen|]. rewrite bool_decide_eq_true, Hlen. split; [|split].
  - rewrite <- Hbad. destruct (Nat.ltb_spec (length data) 2); lia.
  - rewrite <- Hlen. split.
    + intros H0. apply length_zero_iff_nil. exact H0.
    + intros ->. reflexivity.
  - split; [destruct (length data <? 2)%nat; lia|].
    intros i point Hnth Hpoint. apply elem_of_app. right.
    exact (point_errors_name_the_point data 0 i point Hnth Hpoint).
Qed.

(* ===================================================================== *)
(** ** process_query: the lifetime of a cached answer                     *)
(* ===================================================================== *)

(** X24. How long a cached answer is served. When an entry stored at
    [ts] is in the cache under the key of the query, a call made less than
    [ttl_minutes] after [ts] returns the stored dictionary as it is (with
    the processing time and the timestamp of the run that produced it) and
    only logs the hit; a call made [ttl_minutes] after [ts] or later goes
    exactly as if the entry had never been there: the analyzer is consulted
    again. *)
Theorem X24_cached_answer_lifetime `{UnicodeData}
  (self : BrazilianEconomyAgentSystem) (query : str) (w : world)
  (key : str) (o : Outcome) (ts : Z) :
  generate_cache_key (u "system") query = Ok key ->
  cached_at w key = Some (o, ts) ->
  ((clock w - ts < timedelta_minutes (CacheManager.ttl_minutes (cache_manager w)))%Z ->
   process_query self query w
   = Some (Ok o, logged w (Activity "system" "cache_hit")))
  /\ ((timedelta_minutes (CacheManager.ttl_minutes (cache_manager w)) <= clock w - ts)%Z ->
      process_query self query w = process_query self query (without_entry w key)
      /\ forall r w',
           process_query self query w = Some (r, w') ->
           exists more, activity w' = activity w ++ Analyzed query :: more).
Proof.
  unfold cached_at. intros Hkey Hentry. split.
  - intros Hfresh. rewrite process_query_eq, Hkey. unfold CacheManager.get.
    rewrite Hentry. destruct (Z.ltb_spec (clock w - ts)
      (timedelta_minutes (CacheManager.ttl_minutes (cache_manager w)))); [|lia].
    destruct w; reflexivity.
  - intros Hold.
    assert (Hget : CacheManager.get (cache_manager w) (clock w) key
                   = (None, cache_manager (without_entry w key))).
    { unfold CacheManager.get. rewrite Hentry.
      destruct (Z.ltb_spec (clock w - ts)
        (timedelta_minutes (CacheManager.ttl_minutes (cache_manager w)))); [lia|].
      reflexivity. }
    assert (Hget' : CacheManager.get (cache_manager (without_entry w key))
                      (clock (without_entry w key)) key
                    = (None, cache_manager (without_entry w key))).
    { unfold CacheManager.get, without_entry.
      cbn [with_cache_manager cache_manager CacheManager.cache].
      rewrite lookup_delete_eq. reflexivity. }
    split.
    + rewrite !process_query_eq, Hkey, Hget, Hget'. reflexivity.
    + intros r w'. rewrite process_query_eq, Hkey, Hget. cbv zeta.
      destruct (query_analyzer self query) as [analysis | e].
      2: { intros [= <- <-]. exists [Activity "system" "error"].
           cbn [logged activity with_cache_manager]. rewrite <- app_assoc. reflexivity. }
      destruct (run_agent self query _) as [[[result | e] w2]|] eqn:Hagent;
        [|apply run_agent_world in Hagent as ([v Hv] & _); discriminate
         |discriminate].
      apply run_agent_world in Hagent as (_ & _ & Hact & _).
      cbn [logged activity with_cache_manager] in Hact.
      unfold finalize. destruct (result_get_output result) as [content | e].
      * cbv zeta. intros [= <- <-]. eexists.
        destruct (_ <? _)%Z; cbn [with_cache_manager activity]; rewrite Hact;
          rewrite <- !app_assoc; reflexivity.
      * intros [= <- <-]. eexists. cbn [logged activity]. rewrite Hact.
        rewrite <- !app_assoc. reflexivity.
Qed.

(** The answer to ["PIB do Brasil"], produced in one second, is served
    again 29 minutes 59 seconds later, and no more after 30 minutes. *)
Lemma X24_half_an_hour_later :
  exists w1 o,
    process_query (the_system (answers "R$ 10,9 trilhões" 1000000) hangs hangs)
                  (u "PIB do Brasil") (fresh_world Disarmed 0)
    = Some (Ok o, w1)
    /\ (generate_cache_key (u "system") (u "PIB do Brasil") = Ok (u "system:23e048b3")
        /\ cached_at (waited w1 1799000000) (u "system:23e048b3") = Some (o, clock w1)
        /\ (clock (waited w1 1799000000) - clock w1
            < timedelta_minutes
                (CacheManager.ttl_minutes (cache_manager (waited w1 1799000000))))%Z
        /\ cached_at (waited w1 1800000000) (u "system:23e048b3") = Some (o, clock w1)
        /\ (timedelta_minutes
              (CacheManager.ttl_minutes (cache_manager (waited w1 1800000000)))
            <= clock (waited w1 1800000000) - clock w1)%Z)
    /\ process_query (the_system (answers "R$ 10,9 trilhões" 1000000) hangs hangs)
                     (u "PIB do Brasil") (waited w1 1799000000)
       = Some (Ok o, logged (waited w1 1799000000) (Activity "system" "cache_hit"))
    /\ process_query (the_system (answers "R$ 10,9 trilhões" 1000000) hangs hangs)
                     (u "PIB do Brasil") (waited w1 1800000000)
       = process_query (the_system (answers "R$ 10,9 trilhões" 1000000) hangs hangs)
                       (u "PIB do Brasil")
                       (without_entry (waited w1 1800000000) (u "system:23e048b3")).
Proof.
  assert (Hrun : exists w1 o,
             process_query (the_system (answers "R$ 10,9 trilhões" 1000000) hangs hangs)
                           (u "PIB do Brasil") (fresh_world Disarmed 0)
             = Some (Ok o, w1)
             /\ generate_cache_key (u "system") (u "PIB do Brasil")
                = Ok (u "system:23e048b3")
             /\ cached_at (waited w1 1799000000) (u "system:23e048b3")
                = Some (o, clock w1)
             /\ (clock (waited w1 1799000000) - clock w1
                 < timedelta_minutes
                     (CacheManager.ttl_minutes (cache_manager (waited w1 1799000000))))%Z
             /\ cached_at (waited w1 1800000000) (u "system:23e048b3")
                = Some (o, clock w1)
             /\ (timedelta_minutes
                   (CacheManager.ttl_minutes (cache_manager (waited w1 1800000000)))
                 <= clock (waited w1 1800000000) - clock w1)%Z).
  { do 2 eexists. split; [vm_compute; reflexivity|].
    split; [vm_compute; reflexivity|]. split; [vm_compute; reflexivity|].
    split; [vm_compute; reflexivity|]. split; [vm_compute; reflexivity|].
    vm_compute. discriminate. }
  destruct Hrun as (w1 & o & Hrun & Hkey & Hentry & Hfresh & Hentry' & Hold).
  exists w1, o. split; [exact Hrun|]. split; [auto|]. split.
  - exact (proj1 (X24_cached_answer_lifetime _ _ _ _ _ _ Hkey Hentry) Hfresh).
  - exact (proj1 (proj2 (X24_cached_answer_lifetime _ _ _ _ _ _ Hkey Hentry') Hold)).
Defined.

(* ===================================================================== *)
(** ** Queries with the same normalised text                              *)
(* ===================================================================== *)

Lemma starts_with_space (k : str) (c : cp) (r : str) :
  space_free k = true -> k <> [] -> is_space c = true -> starts_with k (c :: r) = false.
Proof.
  intros Hk Hne Hc. destruct k as [|k0 k']; [contradiction|].
  cbn [starts_with]. cbn [space_free forallb] in Hk.
  apply andb_true_iff in Hk as [Hk0 _]. apply negb_true_iff in Hk0.
  destruct (N.eqb_spec k0 c) as [-> | _]; [congruence | reflexivity].
Qed.

(** A text without white space is found in a text exactly when it is
    found in the words of that text joined by single spaces. *)
Lemma str_in_words (s : str) :
  (forall k, space_free k = true -> k <> [] ->
             str_in k s = str_in k (join_spaces (words s)))
  /\ (forall k c r, space_free k = true -> s = c :: r -> is_space c = false ->
                    starts_with k s = starts_with k (join_spaces (words s))).
Proof.
  induction s as [|c r [IHA IHB]].
  - split; [reflexivity | discriminate].
  - destruct (is_space c) eqn:Hc.
    + split.
      * intros k Hk Hne. cbn [words str_in]. rewrite Hc.
        rewrite (starts_with_space k c r Hk Hne Hc). apply IHA; assumption.
      * intros k c0 r0 _ [= <- <-] Hc0. congruence.
    + assert (HB : forall k, space_free k = true ->
                     starts_with k (c :: r)
                     = starts_with k (join_spaces (words (c :: r)))).
      { intros k Hk. cbn [words]. rewrite Hc. unfold cons_word.
        destruct r as [|c' r']; [reflexivity|].
        destruct k as [|k0 k']; [reflexivity|].
        cbn [space_free forallb] in Hk. apply andb_true_iff in Hk as [_ Hk'].
        destruct (is_space c') eqn:Hc'.
        - destruct k' as [|k1 k''].
          + destruct (words (c' :: r')); reflexivity.
          + assert (Hno : forall x y, is_space x = true ->
                            starts_with (k1 :: k'') (x :: y) = false).
            { intros x y Hx. apply starts_with_space; [exact Hk' | discriminate | exact Hx]. }
            cbn [starts_with] in Hno |- *. rewrite (Hno c' r' Hc').
            destruct (words (c' :: r')) as [|w ws]; cbn [join_spaces app starts_with].
            * reflexivity.
            * rewrite (Hno 0x20 _ eq_refl). reflexivity.
        - pose proof (words_head_not_space c' r' Hc') as Hne.
          specialize (IHB k' c' r' Hk' eq_refl Hc').
          destruct (words (c' :: r')) as [|w ws]; [contradiction|].
          assert (Hjoin : join_spaces ((c :: w) :: ws) = c :: join_spaces (w :: ws))
            by (destruct ws; reflexivity).
          rewrite Hjoin. cbn [starts_with]. rewrite IHB. reflexivity. }
      split; [|intros k c0 r0 Hk _ _; apply HB; exact Hk].
      intros k Hk Hne. cbn [str_in]. rewrite (HB k Hk), (IHA k Hk Hne).
      cbn [words]. rewrite Hc. unfold cons_word.
      destruct r as [|c' r']; [reflexivity|].
      destruct (is_space c') eqn:Hc'.
      * destruct (words (c' :: r')) as [|w ws] eqn:Hw.
        -- reflexivity.
        -- rewrite join_spaces_cons by discriminate.
           cbn [app str_in]. rewrite (starts_with_space k 0x20 _ Hk Hne eq_refl).
           reflexivity.
      * pose proof (words_head_not_space c' r' Hc') as Hne'.
        destruct (words (c' :: r')) as [|w ws]; [contradiction|].
        assert (Hjoin : join_spaces ((c :: w) :: ws) = c :: join_spaces (w :: ws))
          by (destruct ws; reflexivity).
        rewrite Hjoin. reflexivity.
Qed.

Lemma any_in_words (ws : list str) (s : str) :
  forallb (fun k => space_free k && negb (bool_decide (k = []))) ws = true ->
  any_in ws s = any_in ws (join_spaces (words s)).
Proof.
  unfold any_in. induction ws as [|k ws IH]; [reflexivity|].
  cbn [forallb existsb]. intros [[Hk Hne]%andb_true_iff Hws]%andb_true_iff.
  apply negb_true_iff, bool_decide_eq_false_1 in Hne.
  rewrite (proj1 (str_in_words s) k Hk Hne), (IH Hws). reflexivity.
Qed.

Lemma found_in_words {A} (f : str -> A) (table : list str) (s : str) :
  forallb (fun k => space_free k && negb (bool_decide (k = []))) table = true ->
  flat_map (fun x => if str_in x s then [f x] else []) table
  = flat_map (fun x => if str_in x (join_spaces (words s)) then [f x] else []) table.
Proof.
  induction table as [|k table IH]; [reflexivity|].
  cbn [forallb flat_map]. intros [[Hk Hne]%andb_true_iff Htable]%andb_true_iff.
  apply negb_true_iff, bool_decide_eq_false_1 in Hne.
  rewrite (proj1 (str_in_words s) k Hk Hne), (IH Htable). reflexivity.
Qed.

(** X25. Two queries with the same normalised text, which therefore
    share a cache key, are routed to the same agent and have the same
    keywords: the answer the cache serves for the second was produced by
    the agent that would have answered it. *)
Theorem X25_same_key_same_route `{UnicodeData} (q1 q2 : str) :
  normalize_query q1 = normalize_query q2 ->
  _route_query q1 = _route_query q2
  /\ _extract_keywords (str_lower q1) = _extract_keywords (str_lower q2).
Proof.
  intros Hnorm. pose proof Hnorm as Hwords.
  rewrite !normalize_query_words in Hwords.
  split.
  - unfold _route_query. cbv zeta.
    rewrite !(any_in_words _ (str_lower q1)) by (vm_compute; reflexivity).
    rewrite !(any_in_words _ (str_lower q2)) by (vm_compute; reflexivity).
    rewrite Hwords. reflexivity.
  - unfold _extract_keywords.
    rewrite (found_in_words _ _ (str_lower q1)) by (vm_compute; reflexivity).
    rewrite (found_in_words _ _ (str_lower q2)) by (vm_compute; reflexivity).
    rewrite Hwords. reflexivity.
Qed.

(** ["Gráfico  do PIB de São  Paulo"], typed with double spaces, has the
    normalised text of ["gráfico do pib de são paulo"]: same route, same
    keywords. The entity ["São Paulo"] is found only in the second. *)
Lemma X25_double_spaces :
  normalize_query (u "Gráfico  do PIB de São  Paulo")
  = normalize_query (u "gráfico do pib de são paulo")
  /\ (_route_query (u "Gráfico  do PIB de São  Paulo")
      = _route_query (u "gráfico do pib de são paulo")
      /\ _extract_keywords (str_lower (u "Gráfico  do PIB de São  Paulo"))
         = _extract_keywords (str_lower (u "gráfico do pib de são paulo")))
  /\ _extract_entities the_QueryAnalyzer (str_lower (u "Gráfico  do PIB de São  Paulo"))
     = []
  /\ _extract_entities the_QueryAnalyzer (str_lower (u "gráfico do pib de são paulo"))
     = [u "São Paulo"].
Proof.
  assert (Hnorm : normalize_query (u "Gráfico  do PIB de São  Paulo")
                  = normalize_query (u "gráfico do pib de são paulo"))
    by (vm_compute; reflexivity).
  split; [exact Hnorm|].
  split; [exact (X25_same_key_same_route _ _ Hnorm)|].
  split; vm_compute; reflexivity.
Defined.
